(** * CodebaseScanner: regex extraction, dependency graph, metrics, detectors

    A shallow embedding of [src/parsers/CodebaseScanner.js] and of the
    upload-path extractor [parseJavaScriptContent] of the server script.

    Conventions of the embedding.
    - A JavaScript string is a [string]: a sequence of code units below 256.
      Case mapping and the whitespace class are those of JavaScript on that
      range.
    - A JavaScript number that is a count is a [nat], an array having fewer
      than [2 ^ 32] elements.  A score or a confidence is a double, written
      as the rational [Q] it is: a literal such as [0.1] is the double
      nearest to it, [Double.fl (1 # 10)], and every addition,
      multiplication and division rounds its exact result to the nearest
      double.  A value that may be [NaN] is a [number]; no computation here
      reaches an infinity.
    - A [while] loop over [RegExp.prototype.exec] is a fuel-bounded function
      that returns [None] when the fuel does not suffice; the fuel is fixed
      from the length of the text, and the theorems show it always suffices.
    - An operation that can throw returns a [result].
    - Node's [path] module is an interface, [PathApi], with its POSIX
      behaviour as an instance.
    - A syntax tree, the listing of a directory and the state of the
      scanner are data the scan is given: what the libraries and the file
      system return is an argument, what the scanner does with it is the
      function.

    The later parts embed the rest of a scan ([initializeParsers],
    [scanRepository], [getRepositoryInfo], [findSourceFiles], [analyzeAST]),
    the upload path of the server ([analyzeUploadedFiles]) and the file
    selection of the question path ([filterFilesForAI],
    [selectRelevantFiles]). *)

From Stdlib Require Import String Ascii List Bool Arith PeanoNat ZArith QArith Qround Qminmax Lia.
From Stdlib Require Import Permutation Sorted Qpower Qabs Lqa.
Import ListNotations.

Local Open Scope string_scope.
Local Open Scope nat_scope.
Local Open Scope list_scope.

(** ** JavaScript strings *)

Module JsString.

(** [\s] and the characters removed by [trim]: TAB, LF, VT, FF, CR, SP, NBSP. *)
Definition is_space (c : ascii) : bool :=
  let n := nat_of_ascii c in
  ((9 <=? n) && (n <=? 13)) || (n =? 32) || (n =? 160).

Definition is_digit (c : ascii) : bool :=
  let n := nat_of_ascii c in (48 <=? n) && (n <=? 57).

Definition is_upper (c : ascii) : bool :=
  let n := nat_of_ascii c in (65 <=? n) && (n <=? 90).

Definition is_lower (c : ascii) : bool :=
  let n := nat_of_ascii c in (97 <=? n) && (n <=? 122).

(** [\w] is [[A-Za-z0-9_]]. *)
Definition is_word (c : ascii) : bool :=
  is_upper c || is_lower c || is_digit c || (nat_of_ascii c =? 95).

(** [.] matches everything but a line terminator. *)
Definition is_dot (c : ascii) : bool :=
  let n := nat_of_ascii c in negb ((n =? 10) || (n =? 13)).

Definition lower_char (c : ascii) : ascii :=
  let n := nat_of_ascii c in
  if is_upper c then ascii_of_nat (n + 32)
  else if (192 <=? n) && (n <=? 222) && negb (n =? 215) then ascii_of_nat (n + 32)
  else c.

Fixpoint toLowerCase (s : string) : string :=
  match s with
  | EmptyString => EmptyString
  | String c s' => String (lower_char c) (toLowerCase s')
  end.

Definition startsWith (s p : string) : bool := String.prefix p s.

(** [hay.includes(needle)] *)
Fixpoint includes (hay needle : string) : bool :=
  String.prefix needle hay
  || match hay with
     | EmptyString => false
     | String _ hay' => includes hay' needle
     end.

(** [s.split(sep)] for a one-character separator. *)
Fixpoint split (sep : ascii) (s : string) : list string :=
  match s with
  | EmptyString => [EmptyString]
  | String c s' =>
      if Ascii.eqb c sep then EmptyString :: split sep s'
      else match split sep s' with
           | [] => [String c EmptyString]
           | hd :: tl => String c hd :: tl
           end
  end.

Definition newline : ascii := ascii_of_nat 10.

(** [s.substring(a, b)] for [a <= b] already clamped at 0. *)
Definition substring (a b : nat) (s : string) : string := String.substring a (b - a) s.

Fixpoint trimStart (s : string) : string :=
  match s with
  | String c s' => if is_space c then trimStart s' else s
  | EmptyString => EmptyString
  end.

(** Removes trailing whitespace. *)
Fixpoint trimEnd (s : string) : string :=
  match s with
  | EmptyString => EmptyString
  | String c s' =>
      match trimEnd s' with
      | EmptyString => if is_space c then EmptyString else String c EmptyString
      | t => String c t
      end
  end.

Definition trim (s : string) : string := trimEnd (trimStart s).

(** Truthiness of a possibly undefined string: defined and not empty. *)
Definition truthy (o : option string) : bool :=
  match o with
  | Some (String _ _) => true
  | _ => false
  end.

(** [a || b] where [b] is a string. *)
Definition or_else (a : option string) (b : string) : string :=
  match a with
  | Some (String c s) => String c s
  | _ => b
  end.

(** [a || b] where both may be undefined. *)
Definition or_opt (a b : option string) : option string :=
  if truthy a then a else b.

(** [l.includes(s)] on an array of strings. *)
Definition str_in (s : string) (l : list string) : bool := existsb (String.eqb s) l.

End JsString.

(** ** Regular expressions

    The fragment the program's patterns use: literal characters and classes,
    concatenation, alternation, greedy repetition of a class, capturing
    groups.  Matching is by backtracking, leftmost alternative and longest
    repetition first, as in JavaScript. *)

Module Regex.
Import JsString.

Inductive regex : Type :=
| Eps
| Chr (p : ascii -> bool)
| Seq (r1 r2 : regex)
| Alt (r1 r2 : regex)
| Star (p : ascii -> bool)
| Grp (i : nat) (r : regex).

(** Captured groups: the latest binding of a group number comes first. *)
Definition captures := list (nat * string).

Fixpoint group (i : nat) (caps : captures) : option string :=
  match caps with
  | [] => None
  | (j, s) :: rest => if j =? i then Some s else group i rest
  end.

(** A continuation takes the rest of the text, the number of characters
    consumed so far, and the captures. *)
Definition cont := string -> nat -> captures -> option (nat * captures).

Fixpoint star (p : ascii -> bool) (k : cont) (s : string) (n : nat) (caps : captures)
  : option (nat * captures) :=
  match s with
  | String c s' =>
      if p c then
        match star p k s' (S n) caps with
        | Some r => Some r
        | None => k s n caps
        end
      else k s n caps
  | EmptyString => k s n caps
  end.

Fixpoint rmatch (r : regex) (k : cont) (s : string) (n : nat) (caps : captures)
  : option (nat * captures) :=
  match r with
  | Eps => k s n caps
  | Chr p =>
      match s with
      | String c s' => if p c then k s' (S n) caps else None
      | EmptyString => None
      end
  | Seq r1 r2 => rmatch r1 (rmatch r2 k) s n caps
  | Alt r1 r2 =>
      match rmatch r1 k s n caps with
      | Some x => Some x
      | None => rmatch r2 k s n caps
      end
  | Star p => star p k s n caps
  | Grp i r' =>
      rmatch r' (fun s' n' caps' => k s' n' ((i, String.substring 0 (n' - n) s) :: caps')) s n caps
  end.

(** A match anchored at the start of [s]: its length and captures. *)
Definition match_at (r : regex) (s : string) : option (nat * captures) :=
  rmatch r (fun _ n caps => Some (n, caps)) s 0 [].

Record rmatch_result : Type := mkMatch {
  index : nat;
  mlength : nat;
  groups : captures
}.

(** Leftmost match in [s], whose first character has index [i] in the text. *)
Fixpoint find_match (r : regex) (s : string) (i : nat) : option rmatch_result :=
  match match_at r s with
  | Some (len, caps) => Some (mkMatch i len caps)
  | None =>
      match s with
      | String _ s' => find_match r s' (S i)
      | EmptyString => None
      end
  end.

Fixpoint drop (n : nat) (s : string) : option string :=
  match n, s with
  | 0, _ => Some s
  | S n', String _ s' => drop n' s'
  | S _, EmptyString => None
  end.

(** [pattern.exec(content)] with the [g] flag, from [lastIndex]:
    [None] is JavaScript's [null]. *)
Definition exec (r : regex) (content : string) (lastIndex : nat) : option rmatch_result :=
  match drop lastIndex content with
  | Some s => find_match r s lastIndex
  | None => None
  end.

(** [content.match(pattern)] without the [g] flag. *)
Definition match_first (r : regex) (content : string) : option rmatch_result :=
  find_match r content 0.

(** [while ((match = pattern.exec(content)) !== null) { ... }]: the matches
    in the order the loop sees them.  Each iteration spends one unit of
    fuel; [None] says the loop has not ended within the fuel. *)
Fixpoint exec_loop (fuel : nat) (r : regex) (content : string) (lastIndex : nat)
  : option (list rmatch_result) :=
  match fuel with
  | 0 => None
  | S fuel' =>
      match exec r content lastIndex with
      | None => Some []
      | Some m =>
          match exec_loop fuel' r content (index m + mlength m) with
          | Some ms => Some (m :: ms)
          | None => None
          end
      end
  end.

Definition exec_all (r : regex) (content : string) : option (list rmatch_result) :=
  exec_loop (S (String.length content)) r content 0.

(** Pattern syntax. *)
Fixpoint lit (s : string) : regex :=
  match s with
  | EmptyString => Eps
  | String c EmptyString => Chr (Ascii.eqb c)
  | String c s' => Seq (Chr (Ascii.eqb c)) (lit s')
  end.

Definition plus (p : ascii -> bool) : regex := Seq (Chr p) (Star p).
Definition opt (r : regex) : regex := Alt r Eps.

Fixpoint seq (rs : list regex) : regex :=
  match rs with
  | [] => Eps
  | [r] => r
  | r :: rs' => Seq r (seq rs')
  end.

Definition one_of (s : string) (c : ascii) : bool :=
  existsb (Ascii.eqb c) (list_ascii_of_string s).

(** A lower bound on the length of every match. *)
Fixpoint min_len (r : regex) : nat :=
  match r with
  | Eps => 0
  | Chr _ => 1
  | Seq r1 r2 => min_len r1 + min_len r2
  | Alt r1 r2 => Nat.min (min_len r1) (min_len r2)
  | Star _ => 0
  | Grp _ r' => min_len r'
  end.

End Regex.

(** ** JavaScript numbers

    A finite double is the rational it denotes.  [fl] rounds a rational to
    the nearest double, the one with the even last bit of two that are
    equally near: 53 significant bits, and a last place no finer than that
    of the subnormal numbers, [2 ^ -1074]. *)

Module Double.
Local Open Scope Q_scope.

(** [2 ^ k] *)
Definition pow2 (k : Z) : Q := 2 ^ k.

(** The integer [k] with [2 ^ k <= x < 2 ^ (k + 1)], for [x > 0]. *)
Definition ilog2 (x : Q) : Z :=
  let k := (Z.log2 (Qnum x) - Z.log2 (Zpos (Qden x)))%Z in
  if Qle_bool (pow2 k) x then k else (k - 1)%Z.

(** The integer nearest to [q], the even one of two that are equally near. *)
Definition round_even (q : Q) : Z :=
  let f := Qfloor q in
  match Qcompare (q - inject_Z f) (1 # 2) with
  | Lt => f
  | Gt => (f + 1)%Z
  | Eq => if Z.even f then f else (f + 1)%Z
  end.

(** The exponent of the last place of the doubles around [x]. *)
Definition last_place (x : Q) : Z := Z.max (ilog2 (Qabs x) - 52) (-1074).

(** The double nearest to [x]. *)
Definition fl (x : Q) : Q :=
  if Qeq_bool x 0 then 0
  else inject_Z (round_even (x / pow2 (last_place x))) * pow2 (last_place x).

(** [x + y], [x * y] and [x / y] on doubles. *)
Definition add (x y : Q) : Q := fl (x + y).
Definition mul (x y : Q) : Q := fl (x * y).
Definition div (x y : Q) : Q := fl (x / y).

(** Half a unit in the last place of the doubles from 1 to 2, and half the
    smallest positive double. *)
Definition u : Q := pow2 (-53).
Definition eta : Q := pow2 (-1075).

End Double.

(** ** The repository scanner: [CodebaseScanner] *)

Module Scanner.
Import JsString Regex.

(** An operation that can throw. *)
Inductive result (A : Type) : Type :=
| Ok (a : A)
| Threw.
Arguments Ok {A} a.
Arguments Threw {A}.

Record FunctionInfo : Type := mkFunction {
  fn_name : string;
  fn_line : nat;
  fn_parameters : list string;
  fn_isAsync : bool
}.

Record MethodInfo : Type := mkMethod { method_name : string }.

Record ClassInfo : Type := mkClass {
  cls_name : string;
  cls_line : nat;
  cls_methods : list MethodInfo
}.

Record ImportInfo : Type := mkImport {
  imp_module : string;
  imp_line : nat;
  imp_type : string
}.

Record CallInfo : Type := mkCall {
  call_function : string;
  call_line : nat
}.

(** The [analysis] object: six sequences. *)
Record Analysis : Type := mkAnalysis {
  functions : list FunctionInfo;
  classes : list ClassInfo;
  imports : list ImportInfo;
  exports : list string;
  variables : list string;
  calls : list CallInfo
}.

(** [Object.keys(analysis)] with the length of each sequence. *)
Definition sequences (a : Analysis) : list (string * nat) :=
  [ ("functions", length (functions a));
    ("classes", length (classes a));
    ("imports", length (imports a));
    ("exports", length (exports a));
    ("variables", length (variables a));
    ("calls", length (calls a)) ].

Definition emptyAnalysis : Analysis := mkAnalysis [] [] [] [] [] [].

(** A file as [findSourceFiles] lists it. *)
Record SourceFile : Type := mkFile {
  path : string;
  relativePath : string;
  extension : string;
  name : string;
  size : nat
}.

(** A file after [parseFiles]: [{...file, content, analysis, lineCount, complexity}]. *)
Record ParsedFile : Type := mkParsed {
  file : SourceFile;
  content : string;
  analysis : Analysis;
  lineCount : nat;
  complexity : Q
}.

(** [content.substring(0, index).split('\n').length] *)
Definition line_of (content : string) (idx : nat) : nat :=
  length (split newline (substring 0 idx content)).

(** [content.substring(index - 10, index).includes('async')] *)
Definition async_before (content : string) (idx : nat) : bool :=
  includes (substring (idx - 10) idx content) "async".

(** [match[1]]; the first group takes part in every match of the patterns
    below that read it. *)
Definition grp1 (m : rmatch_result) : string := or_else (group 1 (groups m)) EmptyString.

Definition function_of (content : string) (m : rmatch_result) : FunctionInfo :=
  mkFunction (grp1 m) (line_of content (index m)) [] (async_before content (index m)).

Definition class_of (content : string) (m : rmatch_result) : ClassInfo :=
  mkClass (grp1 m) (line_of content (index m)) [].

Definition import_of (content : string) (m : rmatch_result) : ImportInfo :=
  mkImport (grp1 m) (line_of content (index m)) "import".

(** Python: [module: match[1] || match[2].trim()] *)
Definition py_import_of (content : string) (m : rmatch_result) : ImportInfo :=
  mkImport (or_else (group 1 (groups m)) (trim (or_else (group 2 (groups m)) EmptyString)))
           (line_of content (index m)) "import".

(** The double quote is written [\x22] in the patterns quoted below. *)
Definition dquote : ascii := ascii_of_nat 34.

Definition quote (c : ascii) : bool := one_of "'`" c || Ascii.eqb c dquote.
Definition not_quote (c : ascii) : bool := negb (quote c).

(** [/function\s+(\w+)/g], [/const\s+(\w+)\s*=\s*\(/g], [/let\s+(\w+)\s*=\s*\(/g],
    [/(\w+)\s*:\s*function/g], [/(\w+)\s*=>\s*/g] *)
Definition functionPatterns : list regex :=
  [ seq [lit "function"; plus is_space; Grp 1 (plus is_word)];
    seq [lit "const"; plus is_space; Grp 1 (plus is_word); Star is_space; lit "=";
         Star is_space; lit "("];
    seq [lit "let"; plus is_space; Grp 1 (plus is_word); Star is_space; lit "=";
         Star is_space; lit "("];
    seq [Grp 1 (plus is_word); Star is_space; lit ":"; Star is_space; lit "function"];
    seq [Grp 1 (plus is_word); Star is_space; lit "=>"; Star is_space] ].

(** [/class\s+(\w+)/g] *)
Definition classPattern : regex :=
  seq [lit "class"; plus is_space; Grp 1 (plus is_word)].

(** [/import.*from\s+['\x22`]([^'\x22`]+)['\x22`]/g] and
    [/require\(['\x22`]([^'\x22`]+)['\x22`]\)/g] *)
Definition importPatterns : list regex :=
  [ seq [lit "import"; Star is_dot; lit "from"; plus is_space; Chr quote;
         Grp 1 (plus not_quote); Chr quote];
    seq [lit "require("; Chr quote; Grp 1 (plus not_quote); Chr quote; lit ")"] ].

(** [/def\s+(\w+)/g] *)
Definition funcPattern : regex :=
  seq [lit "def"; plus is_space; Grp 1 (plus is_word)].

(** [/(?:from\s+(\w+)\s+)?import\s+([^#\n]+)/g] *)
Definition importPattern : regex :=
  seq [opt (seq [lit "from"; plus is_space; Grp 1 (plus is_word); plus is_space]);
       lit "import"; plus is_space;
       Grp 2 (plus (fun c => negb (Ascii.eqb c "#" || Ascii.eqb c newline)))].

(** [patterns.forEach(pattern => { while (...) push })]: the matches of the
    first pattern, then those of the second, and so on. *)
Fixpoint forEach_exec (patterns : list regex) (content : string)
  : option (list rmatch_result) :=
  match patterns with
  | [] => Some []
  | p :: ps =>
      match exec_all p content with
      | None => None
      | Some ms =>
          match forEach_exec ps content with
          | None => None
          | Some rest => Some (ms ++ rest)
          end
      end
  end.

Definition js_family : list string := ["js"; "jsx"; "ts"; "tsx"; "mjs"].

(** The JavaScript/TypeScript block of [fallbackAnalysis]. *)
Definition js_rules (content : string) (a : Analysis) : option Analysis :=
  match forEach_exec functionPatterns content with
  | None => None
  | Some fs =>
      match exec_all classPattern content with
      | None => None
      | Some cs =>
          match forEach_exec importPatterns content with
          | None => None
          | Some ims =>
              Some (mkAnalysis (functions a ++ map (function_of content) fs)
                               (classes a ++ map (class_of content) cs)
                               (imports a ++ map (import_of content) ims)
                               (exports a) (variables a) (calls a))
          end
      end
  end.

(** The Python block of [fallbackAnalysis]. *)
Definition py_rules (content : string) (a : Analysis) : option Analysis :=
  match exec_all funcPattern content with
  | None => None
  | Some fs =>
      match exec_all classPattern content with
      | None => None
      | Some cs =>
          match exec_all importPattern content with
          | None => None
          | Some ims =>
              Some (mkAnalysis (functions a ++ map (function_of content) fs)
                               (classes a ++ map (class_of content) cs)
                               (imports a ++ map (py_import_of content) ims)
                               (exports a) (variables a) (calls a))
          end
      end
  end.

(** [fallbackAnalysis(content, file)]; [None] only if a scan loop does not end. *)
Definition fallbackAnalysis (content : string) (f : SourceFile) : option Analysis :=
  match (if str_in (extension f) js_family then js_rules content emptyAnalysis
         else Some emptyAnalysis) with
  | None => None
  | Some a => if String.eqb (extension f) "py" then py_rules content a else Some a
  end.

(** A length, as the double it is. *)
Definition count (n : nat) : Q := inject_Z (Z.of_nat n).

(** [calculateComplexity(analysis)]:
    [functions.length + classes.length * 2 + calls.length * 0.1], the
    product with [0.1] and the two sums each rounded. *)
Definition calculateComplexity (a : Analysis) : Q :=
  Double.add (Double.add (count (length (functions a)))
                         (Double.mul (count (length (classes a))) 2))
             (Double.mul (count (length (calls a))) (Double.fl (1 # 10))).

(** *** [parseFiles] *)

(** What the scan reads from outside: the file system, and the syntax-tree
    parsers when they were loaded.  [astAnalysis] is [parser.parse(content)]
    followed by [analyzeAST] on the tree the library built. *)
Record Env : Type := mkEnv {
  readFile : string -> result string;
  treeSitterLoaded : bool;
  hasParser : string -> bool;
  astAnalysis : string -> SourceFile -> result Analysis
}.

(** The entry pushed by the [catch] block. *)
Definition failed (f : SourceFile) : ParsedFile :=
  mkParsed f EmptyString emptyAnalysis 0 0%Q.

Definition parsed (f : SourceFile) (content : string) (a : Analysis) : ParsedFile :=
  mkParsed f content a (length (split newline content)) (calculateComplexity a).

(** The body of the [for] loop of [parseFiles]; [None] only if the regex
    scan does not end. *)
Definition parseFile (env : Env) (f : SourceFile) : option ParsedFile :=
  match readFile env (path f) with
  | Threw => Some (failed f)
  | Ok content =>
      if treeSitterLoaded env && hasParser env (extension f) then
        match astAnalysis env content f with
        | Ok a => Some (parsed f content a)
        | Threw => Some (failed f)
        end
      else
        match fallbackAnalysis content f with
        | Some a => Some (parsed f content a)
        | None => None
        end
  end.

Fixpoint parseFiles (env : Env) (files : list SourceFile) : option (list ParsedFile) :=
  match files with
  | [] => Some []
  | f :: rest =>
      match parseFile env f with
      | None => None
      | Some pf =>
          match parseFiles env rest with
          | None => None
          | Some pfs => Some (pf :: pfs)
          end
      end
  end.

(** *** The dependency graph *)

(** The two functions of Node's [path] module the scanner calls. *)
Class PathApi : Type := {
  dirname : string -> string;
  resolve : string -> string -> string
}.

Record Node : Type := mkNode {
  id : string;
  node_name : string;
  node_type : string;
  node_size : nat;
  node_complexity : Q;
  node_functions : nat;
  node_classes : nat
}.

Record Edge : Type := mkEdge {
  source : string;
  target : string;
  edge_type : string;
  weight : nat
}.

Record Graph : Type := mkGraph {
  nodes : list Node;
  edges : list Edge;
  clusters : list string
}.

Section Graph.
Context {P : PathApi}.

(** [resolveImportPath(module, fromFile)]; [None] is [null]. *)
Definition resolveImportPath (module : string) (fromFile : SourceFile) : option string :=
  if startsWith module "./" || startsWith module "../"
  then Some (resolve (dirname (path fromFile)) module)
  else None.

Definition node_of (pf : ParsedFile) : Node :=
  mkNode (relativePath (file pf)) (name (file pf)) "file" (size (file pf))
         (complexity pf) (length (functions (analysis pf)))
         (length (classes (analysis pf))).

(** The inner loop: one edge per import whose resolved path is truthy. *)
Definition edges_of (pf : ParsedFile) : list Edge :=
  flat_map (fun imp =>
              match resolveImportPath (imp_module imp) (file pf) with
              | Some targetPath =>
                  if truthy (Some targetPath)
                  then [mkEdge (relativePath (file pf)) targetPath "import" 1]
                  else []
              | None => []
              end)
           (imports (analysis pf)).

Definition buildDependencyGraph (parsedFiles : list ParsedFile) : Graph :=
  mkGraph (map node_of parsedFiles) (flat_map edges_of parsedFiles) [].
End Graph.

(** *** Metrics *)

(** A JavaScript number that may be [NaN]. *)
Inductive number : Type :=
| Num (q : Q)
| NaN.

(** [x] is a number, equal to [q]. *)
Definition is_num (x : number) (q : Q) : Prop :=
  match x with
  | Num p => p == q
  | NaN => False
  end.

(** [sum / n] where [sum] is a sum over [n] items: [0 / 0] is [NaN]. *)
Definition div_count (sum : Q) (n : nat) : number :=
  match n with
  | 0 => NaN
  | S _ => Num (Double.div sum (count n))
  end.

(** [Math.round(x)]: the integer nearest to [x], halves upwards. *)
Definition Math_round (x : Q) : Q := inject_Z (Qfloor (x + (1 # 2))).

(** [Math.round(x * 100) / 100] *)
Definition round2 (x : number) : number :=
  match x with
  | Num q => Num (Double.div (Math_round (Double.mul q 100)) 100)
  | NaN => NaN
  end.

(** [Math.min(x, 1)] *)
Definition min1 (x : number) : number :=
  match x with
  | Num q => Num (Qmin q 1)
  | NaN => NaN
  end.

(** [new Set(items)] spread into an array: insertion order, first occurrences. *)
Definition set_add (s : list string) (x : string) : list string :=
  if str_in x s then s else s ++ [x].

Definition new_Set (items : list string) : list string := fold_left set_add items [].

Record Metrics : Type := mkMetrics {
  totalLines : nat;
  totalFiles : nat;
  totalFunctions : nat;
  totalClasses : nat;
  avgComplexity : number;
  languages : list string
}.

Definition calculateMetrics (parsedFiles : list ParsedFile) : Metrics :=
  let totalLines := fold_left (fun sum f => sum + lineCount f) parsedFiles 0 in
  let totalFiles := length parsedFiles in
  let totalFunctions :=
    fold_left (fun sum f => sum + length (functions (analysis f))) parsedFiles 0 in
  let totalClasses :=
    fold_left (fun sum f => sum + length (classes (analysis f))) parsedFiles 0 in
  let avgComplexity :=
    div_count (fold_left (fun sum f => Double.add sum (complexity f)) parsedFiles 0%Q)
              totalFiles in
  mkMetrics totalLines totalFiles totalFunctions totalClasses
            (round2 avgComplexity)
            (new_Set (map (fun f => extension (file f)) parsedFiles)).

(** *** Pattern detectors *)

Record Verdict (E : Type) : Type := mkVerdict {
  detected : bool;
  confidence : number;
  evidence : E
}.
Arguments mkVerdict {E} _ _ _.
Arguments detected {E} _.
Arguments confidence {E} _.
Arguments evidence {E} _.

Record MVCEvidence : Type := mkMVC {
  hasModels : bool;
  hasViews : bool;
  hasControllers : bool
}.

(** [Number(b)] *)
Definition Number (b : bool) : nat := if b then 1 else 0.

(** [f.name.toLowerCase().includes(word) || f.relativePath.includes(dir)] *)
Definition mvc_match (word dir : string) (f : ParsedFile) : bool :=
  includes (toLowerCase (name (file f))) word || includes (relativePath (file f)) dir.

Definition detectMVCPattern (files : list ParsedFile) : Verdict MVCEvidence :=
  let hasModels := existsb (mvc_match "model" "/models/") files in
  let hasViews := existsb (mvc_match "view" "/views/") files in
  let hasControllers := existsb (mvc_match "controller" "/controllers/") files in
  mkVerdict (hasModels && hasViews && hasControllers)
            (Num (Double.div (count (Number hasModels + Number hasViews + Number hasControllers))
                             3))
            (mkMVC hasModels hasViews hasControllers).

Definition detectModulePattern (files : list ParsedFile) : Verdict bool :=
  let hasExports := existsb (fun f => 0 <? length (exports (analysis f))) files in
  let hasImports := existsb (fun f => 0 <? length (imports (analysis f))) files in
  mkVerdict (hasExports && hasImports) (Num (Double.fl (8 # 10))) true.

Definition detectFactoryPattern (files : list ParsedFile) : Verdict nat :=
  let factoryFunctions :=
    flat_map (fun f =>
                filter (fun fn => includes (toLowerCase (fn_name fn)) "factory"
                                  || includes (toLowerCase (fn_name fn)) "create")
                       (functions (analysis f)))
             files in
  mkVerdict (0 <? length factoryFunctions)
            (min1 (div_count (count (length factoryFunctions)) (length files)))
            (length factoryFunctions).

Definition detectSingletonPattern (files : list ParsedFile) : Verdict nat :=
  let singletonClasses :=
    flat_map (fun f =>
                filter (fun cls => includes (toLowerCase (cls_name cls)) "singleton"
                                   || existsb (fun m => String.eqb (method_name m) "getInstance")
                                              (cls_methods cls))
                       (classes (analysis f)))
             files in
  mkVerdict (0 <? length singletonClasses) (Num (Double.fl (9 # 10)))
            (length singletonClasses).

Definition observerNames : list string :=
  ["subscribe"; "unsubscribe"; "notify"; "addEventListener"].

(** [observerNames.includes(fn.name.toLowerCase())] *)
Definition is_observer (fn : FunctionInfo) : bool :=
  str_in (toLowerCase (fn_name fn)) observerNames.

Definition observerMethods (files : list ParsedFile) : list FunctionInfo :=
  flat_map (fun f => filter is_observer (functions (analysis f))) files.

Definition detectObserverPattern (files : list ParsedFile) : Verdict nat :=
  let n := length (observerMethods files) in
  mkVerdict (0 <? n) (Num (Qmin (Double.div (count n) 10) 1)) n.

Record Patterns : Type := mkPatterns {
  mvc : Verdict MVCEvidence;
  modules : Verdict bool;
  factories : Verdict nat;
  singletons : Verdict nat;
  observers : Verdict nat
}.

Definition detectArchitecturalPatterns (parsedFiles : list ParsedFile) : Patterns :=
  mkPatterns (detectMVCPattern parsedFiles) (detectModulePattern parsedFiles)
             (detectFactoryPattern parsedFiles) (detectSingletonPattern parsedFiles)
             (detectObserverPattern parsedFiles).

End Scanner.

(** ** Node's [path] module on POSIX

    [path.dirname] and [path.resolve] as Node's [posix] implementation
    computes them, for a process whose working directory is [cwd]. *)

Module Posix.
Import JsString.

Definition slash : ascii := "/"%char.

Fixpoint join_segs (segs : list string) : string :=
  match segs with
  | [] => EmptyString
  | [seg] => seg
  | seg :: rest => (seg ++ "/" ++ join_segs rest)%string
  end.

(** Segments kept so far are held last first. *)
Fixpoint normalize_segs (allowAboveRoot : bool) (kept : list string) (segs : list string)
  : list string :=
  match segs with
  | [] => rev kept
  | seg :: rest =>
      if String.eqb seg EmptyString || String.eqb seg "." then normalize_segs allowAboveRoot kept rest
      else if String.eqb seg ".." then
        match kept with
        | last :: kept' =>
            if String.eqb last ".."
            then normalize_segs allowAboveRoot (".." :: kept) rest
            else normalize_segs allowAboveRoot kept' rest
        | [] =>
            if allowAboveRoot then normalize_segs allowAboveRoot [".."] rest
            else normalize_segs allowAboveRoot [] rest
        end
      else normalize_segs allowAboveRoot (seg :: kept) rest
  end.

Definition normalizeString (p : string) (allowAboveRoot : bool) : string :=
  join_segs (normalize_segs allowAboveRoot [] (split slash p)).

Definition isAbsolute (p : string) : bool := startsWith p "/".

(** The right-to-left loop of [path.resolve]: arguments are taken last
    first until an absolute one is met; empty ones are skipped. *)
Fixpoint resolve_loop (rev_args : list string) (resolvedPath : string) : string * bool :=
  match rev_args with
  | [] => (resolvedPath, false)
  | p :: rest =>
      if String.eqb p EmptyString then resolve_loop rest resolvedPath
      else
        let resolvedPath' := (p ++ "/" ++ resolvedPath)%string in
        if isAbsolute p then (resolvedPath', true)
        else resolve_loop rest resolvedPath'
  end.

(** [path.resolve(...args)] in a process whose working directory is [cwd]. *)
Definition resolve_args (cwd : string) (args : list string) : string :=
  let (resolvedPath, resolvedAbsolute) := resolve_loop (rev (cwd :: args)) EmptyString in
  let normalized := normalizeString resolvedPath (negb resolvedAbsolute) in
  if resolvedAbsolute then String slash normalized
  else if String.eqb normalized EmptyString then "." else normalized.

(** The backwards scan of [path.dirname] over the characters of index
    [i], [i - 1], ..., 1. *)
Fixpoint dirname_end (rev_tail : list ascii) (i : nat) (matchedSlash : bool) : option nat :=
  match rev_tail with
  | [] => None
  | c :: rest =>
      if Ascii.eqb c slash then
        if matchedSlash then dirname_end rest (i - 1) true else Some i
      else dirname_end rest (i - 1) false
  end.

Definition posix_dirname (p : string) : string :=
  match p with
  | EmptyString => "."
  | String c0 tail =>
      let hasRoot := Ascii.eqb c0 slash in
      match dirname_end (rev (list_ascii_of_string tail)) (String.length tail) true with
      | None => if hasRoot then "/" else "."
      | Some e => if hasRoot && (e =? 1) then "//" else String.substring 0 e p
      end
  end.

Definition posix (cwd : string) : Scanner.PathApi :=
  {| Scanner.dirname := posix_dirname;
     Scanner.resolve := fun a b => resolve_args cwd [a; b] |}.

End Posix.

(** ** The upload path of the server: [parseJavaScriptContent]

    The extractor of the Express server script (its text follows
    [DEMO_SCRIPT.md] in the source tree), applied to uploaded [.js] files.
    It works line by line, with one unanchored match per line and rule. *)

Module Server.
Import JsString Regex.

(** [{ name, type }] *)
Record Named : Type := mkNamed {
  name : string;
  type : string
}.

(** The [analysis] object of the upload path: four sequences. *)
Record Analysis : Type := mkAnalysis {
  functions : list Named;
  classes : list Named;
  imports : list string;
  exports : list string
}.

Definition emptyAnalysis : Analysis := mkAnalysis [] [] [] [].

(** [Object.keys(analysis)] with the length of each sequence. *)
Definition sequences (a : Analysis) : list (string * nat) :=
  [ ("functions", length (functions a));
    ("classes", length (classes a));
    ("imports", length (imports a));
    ("exports", length (exports a)) ].

Definition quote (c : ascii) : bool := Ascii.eqb c "'" || Ascii.eqb c Scanner.dquote.
Definition not_quote (c : ascii) : bool := negb (quote c).

(** [/(?:function\s+(\w+)|const\s+(\w+)\s*=.*(?:function|=>)|(\w+)\s*:\s*(?:function|async))/] *)
Definition functionPattern : regex :=
  Alt (seq [lit "function"; plus is_space; Grp 1 (plus is_word)])
 (Alt (seq [lit "const"; plus is_space; Grp 2 (plus is_word); Star is_space; lit "=";
            Star is_dot; Alt (lit "function") (lit "=>")])
      (seq [Grp 3 (plus is_word); Star is_space; lit ":"; Star is_space;
            Alt (lit "function") (lit "async")])).

(** [/class\s+(\w+)/] *)
Definition classPattern : regex :=
  seq [lit "class"; plus is_space; Grp 1 (plus is_word)].

(** [/(?:require\(['\x22]([^'\x22]+)['\x22]|import.*from\s+['\x22]([^'\x22]+)['\x22]|import\s+['\x22]([^'\x22]+)['\x22])/] *)
Definition importPattern : regex :=
  Alt (seq [lit "require("; Chr quote; Grp 1 (plus not_quote); Chr quote])
 (Alt (seq [lit "import"; Star is_dot; lit "from"; plus is_space; Chr quote;
            Grp 2 (plus not_quote); Chr quote])
      (seq [lit "import"; plus is_space; Chr quote; Grp 3 (plus not_quote); Chr quote])).

(** [/(?:module\.exports|exports\.|export\s+(?:default\s+)?(\w+))/] *)
Definition exportPattern : regex :=
  Alt (lit "module.exports")
 (Alt (lit "exports.")
      (seq [lit "export"; plus is_space; opt (seq [lit "default"; plus is_space]);
            Grp 1 (plus is_word)])).

(** [m[1] || m[2] || m[3]] *)
Definition first_group (m : rmatch_result) : option string :=
  or_opt (group 1 (groups m)) (or_opt (group 2 (groups m)) (group 3 (groups m))).

Definition has_name (n : string) (l : list Named) : bool :=
  existsb (fun f => String.eqb (name f) n) l.


(** The name a line contributes to [functions], before the duplicate check. *)
Definition function_name (trimmed : string) : option string :=
  match match_first functionPattern trimmed with
  | Some m => if truthy (first_group m) then first_group m else None
  | None => None
  end.

Definition add_function (trimmed : string) (fs : list Named) : list Named :=
  match function_name trimmed with
  | Some funcName => if has_name funcName fs then fs else fs ++ [mkNamed funcName "function"]
  | None => fs
  end.

Definition add_class (trimmed : string) (cs : list Named) : list Named :=
  match match_first classPattern trimmed with
  | Some m => cs ++ [mkNamed (or_else (group 1 (groups m)) EmptyString) "class"]
  | None => cs
  end.

Definition import_name (trimmed : string) : option string :=
  match match_first importPattern trimmed with
  | Some m => if truthy (first_group m) then first_group m else None
  | None => None
  end.

Definition add_import (trimmed : string) (ims : list string) : list string :=
  match import_name trimmed with
  | Some importName => if str_in importName ims then ims else ims ++ [importName]
  | None => ims
  end.

(** [exportMatch[1] || 'default'] *)
Definition export_name (trimmed : string) : option string :=
  match match_first exportPattern trimmed with
  | Some m => Some (or_else (group 1 (groups m)) "default")
  | None => None
  end.

Definition add_export (trimmed : string) (exs : list string) : list string :=
  match export_name trimmed with
  | Some exportName => if str_in exportName exs then exs else exs ++ [exportName]
  | None => exs
  end.

(** The body of [for (const line of lines)]. *)
Definition parse_line (a : Analysis) (line : string) : Analysis :=
  let trimmed := trim line in
  mkAnalysis (add_function trimmed (functions a))
             (add_class trimmed (classes a))
             (add_import trimmed (imports a))
             (add_export trimmed (exports a)).

Definition parseJavaScriptContent (content filename : string) : Analysis :=
  fold_left parse_line (split newline content) emptyAnalysis.

End Server.

(** ** Scenarios *)

Module Scenarios.
Import JsString Regex Scanner.

(** A file system holding the listed [(path, content)] pairs; reading any
    other path throws. *)
Fixpoint read (disk : list (string * string)) (p : string) : result string :=
  match disk with
  | [] => Threw
  | (q, content) :: rest => if String.eqb p q then Ok content else read rest p
  end.

(** A scan without syntax-tree parsers: every file goes through
    [fallbackAnalysis]. *)
Definition regex_env (disk : list (string * string)) : Env :=
  mkEnv (read disk) false (fun _ => false) (fun _ _ => Threw).

(** The file [relative] of a repository scanned at [/repo]. *)
Definition repo_file (relative base ext : string) (bytes : nat) : SourceFile :=
  mkFile ("/repo/" ++ relative) relative ext base bytes.

Definition app_js : SourceFile := repo_file "app.js" "app.js" "js" 33.

Definition twice_foo : string := "function foo(){} function foo(){}".

Definition exports_text : string := "module.exports = foo;".

Definition listener_text : string := "function addEventListener(){}".

(** Scenario A: three files with no content in top-level directories. *)
Definition mvc_sources : list SourceFile :=
  [ repo_file "models/user.js" "user.js" "js" 0;
    repo_file "views/home.js" "home.js" "js" 0;
    repo_file "controllers/home.js" "home.js" "js" 0 ].

Definition mvc_disk : list (string * string) :=
  [ ("/repo/models/user.js", EmptyString);
    ("/repo/views/home.js", EmptyString);
    ("/repo/controllers/home.js", EmptyString) ].

(** The same three directories one level down. *)
Definition nested_mvc_sources : list SourceFile :=
  [ repo_file "src/models/user.js" "user.js" "js" 0;
    repo_file "src/views/home.js" "home.js" "js" 0;
    repo_file "src/controllers/home.js" "home.js" "js" 0 ].

(** Scenario C: [a.js] imports [./b] and [lodash]; [b.js] is in the set. *)
Definition a_js : SourceFile := repo_file "a.js" "a.js" "js" 40.
Definition b_js : SourceFile := repo_file "b.js" "b.js" "js" 0.

Definition a_text : string := "import b from './b';
import _ from 'lodash';".

Definition ab_disk : list (string * string) :=
  [ ("/repo/a.js", a_text); ("/repo/b.js", EmptyString) ].

(** The parsed files of a scenario, [[]] if the scan gave none. *)
Definition scan (disk : list (string * string)) (files : list SourceFile) : list ParsedFile :=
  match parseFiles (regex_env disk) files with
  | Some pfs => pfs
  | None => []
  end.

Definition ab_parsed : list ParsedFile := scan ab_disk [a_js; b_js].

Definition mvc_parsed : list ParsedFile := scan mvc_disk mvc_sources.

Definition nested_mvc_parsed : list ParsedFile := scan [] nested_mvc_sources.

(** A file set with a [module.exports] declaration in one file and imports
    in another. *)
Definition modules_parsed : list ParsedFile :=
  scan [("/repo/app.js", exports_text); ("/repo/a.js", a_text)] [app_js; a_js].

(** A file whose analysis holds one export, as the upload path would record
    it for [exports_text], beside the scanned [a.js]. *)
Definition exporting_file : ParsedFile :=
  parsed app_js exports_text (mkAnalysis [] [] [] ["default"] [] []).

Definition exporting_set : list ParsedFile := exporting_file :: ab_parsed.

Definition listener_parsed : list ParsedFile :=
  scan [("/repo/app.js", listener_text)] [app_js].

(** [analysis.functions.push(fn)] and [analysis.classes.push(cls)], all else equal. *)
Definition push_function (fn : FunctionInfo) (a : Analysis) : Analysis :=
  mkAnalysis (functions a ++ [fn]) (classes a) (imports a) (exports a) (variables a) (calls a).

Definition push_class (cls : ClassInfo) (a : Analysis) : Analysis :=
  mkAnalysis (functions a) (classes a ++ [cls]) (imports a) (exports a) (variables a) (calls a).

(** A parsed file known only by its line count. *)
Definition with_lines (f : SourceFile) (n : nat) : ParsedFile :=
  mkParsed f EmptyString emptyAnalysis n 0%Q.

(** Sums and means as the metrics are stated. *)
Definition sum_nat (l : list nat) : nat := fold_right Nat.add 0 l.

Definition sum_Q (l : list Q) : Q := fold_right Qplus 0%Q l.

Definition mean (l : list Q) : Q := (sum_Q l / count (length l))%Q.

(** First occurrences of a list of names, in order. *)
Fixpoint first_occurrences (seen : list string) (l : list string) : list string :=
  match l with
  | [] => []
  | x :: rest =>
      if str_in x seen then first_occurrences seen rest
      else x :: first_occurrences (x :: seen) rest
  end.

(** The names the lines of a text contribute, line by line. *)
Fixpoint keep_some (l : list (option string)) : list string :=
  match l with
  | [] => []
  | Some x :: rest => x :: keep_some rest
  | None :: rest => keep_some rest
  end.

Definition line_names (pick : string -> option string) (content : string) : list string :=
  keep_some (map (fun line => pick (trim line)) (split newline content)).

End Scenarios.

(** ** Notions the statements use *)

Module Notions.
Import JsString Regex Scanner.

(** What a continuation is handed when a match that started after [n]
    characters, with [s] left, succeeds: at least [m] more characters were
    consumed, all taken from [s]. *)
Definition advances (m : nat) (k : cont) (s : string) (n : nat) (res : nat * captures) : Prop :=
  exists s' n' caps',
    k s' n' caps' = Some res /\ n + m <= n' /\ n' + String.length s' = n + String.length s.

(** [a'] has the [exports], [variables] and [calls] of [a]. *)
Definition keeps_rest (a a' : Analysis) : Prop :=
  exports a' = exports a /\ variables a' = variables a /\ calls a' = calls a.

(** The test of [resolveImportPath]. *)
Definition is_relative (module : string) : bool :=
  startsWith module "./" || startsWith module "../".

(** The path an import of a file resolves to. *)
Definition resolved {P : PathApi} (pf : ParsedFile) (imp : ImportInfo) : string :=
  resolve (dirname (path (file pf))) (imp_module imp).

(** A loop that appends what a line yields unless an item with that key is
    there already. *)
Definition has_key {A : Type} (key : A -> string) (n : string) (acc : list A) : bool :=
  existsb (fun a => String.eqb (key a) n) acc.

Definition dedup_step {A : Type} (key : A -> string) (make : string -> A)
    (pick : string -> option string) (acc : list A) (line : string) : list A :=
  match pick line with
  | Some n => if has_key key n acc then acc else acc ++ [make n]
  | None => acc
  end.

(** A confidence that is a number between 0 and 1. *)
Definition in_unit (x : number) : Prop :=
  match x with
  | Num q => (0 <= q)%Q /\ (q <= 1)%Q
  | NaN => False
  end.


End Notions.

(** ** The syntax-tree path: [analyzeAST] and its helpers *)

Module Ast.
Import JsString Scanner.

Set Warnings "-register-all".

(** A node of a syntax tree, as far as the scanner reads it: [type], [text],
    [startPosition.row] and [children]. *)
Inductive TsNode : Type :=
| TsN (type text : string) (row : nat) (children : list TsNode).

Definition ts_type (n : TsNode) : string := match n with TsN t _ _ _ => t end.
Definition ts_text (n : TsNode) : string := match n with TsN _ x _ _ => x end.
Definition ts_row (n : TsNode) : nat := match n with TsN _ _ r _ => r end.
Definition ts_children (n : TsNode) : list TsNode := match n with TsN _ _ _ cs => cs end.

(** [node.children.find(child => child.type === t)] *)
Definition child_of_type (t : string) (n : TsNode) : option TsNode :=
  find (fun c => String.eqb (ts_type c) t) (ts_children n).

Definition extractFunctionName (node : TsNode) : string :=
  match child_of_type "identifier" node with
  | Some nameNode => ts_text nameNode
  | None => "anonymous"
  end.

Definition extractClassName (node : TsNode) : string :=
  match child_of_type "identifier" node with
  | Some nameNode => ts_text nameNode
  | None => "Anonymous"
  end.

Definition extractParameters (node : TsNode) : list string :=
  match child_of_type "formal_parameters" node with
  | Some params =>
      map ts_text (filter (fun c => String.eqb (ts_type c) "identifier") (ts_children params))
  | None => []
  end.

Definition isAsyncFunction (node : TsNode) : bool :=
  existsb (fun c => String.eqb (ts_type c) "async") (ts_children node).

(** [text.slice(1, -1)] *)
Definition strip_ends (text : string) : string :=
  String.substring 1 (String.length text - 2) text.

Definition extractImportModule (node : TsNode) : string :=
  match child_of_type "string" node with
  | Some stringNode => strip_ends (ts_text stringNode)
  | None => EmptyString
  end.

Definition extractCallName (node : TsNode) : string :=
  match find (fun c => String.eqb (ts_type c) "identifier"
                       || String.eqb (ts_type c) "member_expression")
             (ts_children node) with
  | Some identifierNode => ts_text identifierNode
  | None => EmptyString
  end.

Definition function_types : list string :=
  ["function_declaration"; "function_expression"; "arrow_function"; "method_definition"].

Definition import_types : list string := ["import_statement"; "import_from_statement"].

(** The [switch] of [traverse] on one node.  [bound] says whether [this] is
    the scanner: it is for the call [traverse.call(this, rootNode)] and it is
    [undefined] for the calls [traverse(child)], the function being strict
    code, so there reading [this.extractFunctionName] throws.  The class case
    throws in both: it calls [this.extractMethods], which the class does not
    define. *)
Definition visit (bound : bool) (node : TsNode) (a : Analysis) : result Analysis :=
  let t := ts_type node in
  if str_in t function_types then
    if bound then
      Ok (mkAnalysis (functions a ++ [mkFunction (extractFunctionName node) (ts_row node + 1)
                                                 (extractParameters node) (isAsyncFunction node)])
                     (classes a) (imports a) (exports a) (variables a) (calls a))
    else Threw
  else if String.eqb t "class_declaration" then Threw
  else if str_in t import_types then
    if bound then
      Ok (mkAnalysis (functions a) (classes a)
                     (imports a ++ [mkImport (extractImportModule node) (ts_row node + 1) "import"])
                     (exports a) (variables a) (calls a))
    else Threw
  else if String.eqb t "call_expression" then
    if bound then
      Ok (mkAnalysis (functions a) (classes a) (imports a) (exports a) (variables a)
                     (calls a ++ [mkCall (extractCallName node) (ts_row node + 1)]))
    else Threw
  else Ok a.

(** [traverse]: the node itself, then its children in order, all with
    [this] unbound. *)
Fixpoint traverse (bound : bool) (node : TsNode) (a : Analysis) {struct node}
  : result Analysis :=
  match visit bound node a with
  | Threw => Threw
  | Ok a1 =>
      (fix each (cs : list TsNode) (acc : Analysis) {struct cs} : result Analysis :=
         match cs with
         | [] => Ok acc
         | c :: rest =>
             match traverse false c acc with
             | Threw => Threw
             | Ok acc' => each rest acc'
             end
         end) (ts_children node) a1
  end.

(** [analyzeAST(tree, content, file)], [rootNode] being [tree.rootNode]. *)
Definition analyzeAST (rootNode : TsNode) (content : string) (f : SourceFile) : result Analysis :=
  traverse true rootNode emptyAnalysis.

(** The types the [switch] has a case for. *)
Definition has_case (t : string) : bool :=
  str_in t function_types || String.eqb t "class_declaration"
  || str_in t import_types || String.eqb t "call_expression".

(** The nodes strictly below a node, in the order [traverse] reaches them. *)
Fixpoint below (node : TsNode) : list TsNode :=
  (fix all (cs : list TsNode) : list TsNode :=
     match cs with
     | [] => []
     | c :: rest => (c :: below c) ++ all rest
     end) (ts_children node).

(** A node whose type has a case. *)
Definition cased (d : TsNode) : bool := has_case (ts_type d).

(** The loop of [traverse] over the children, as a function of its own. *)
Fixpoint each (cs : list TsNode) (acc : Analysis) : result Analysis :=
  match cs with
  | [] => Ok acc
  | c :: rest =>
      match traverse false c acc with
      | Threw => Threw
      | Ok acc' => each rest acc'
      end
  end.

Fixpoint all_below (cs : list TsNode) : list TsNode :=
  match cs with
  | [] => []
  | c :: rest => (c :: below c) ++ all_below rest
  end.

(** *** [initializeParsers] *)

Inductive Language : Type := JavaScript | TypeScript | Python.

(** What can go wrong while the parsers load: the four dynamic imports, and
    the construction of each of the three parsers. *)
Record LoadOutcome : Type := mkLoad {
  imports_ok : bool;
  js_ok : bool;
  ts_ok : bool;
  py_ok : bool
}.

(** [this.parsers] and [this.treeSitterLoaded]. *)
Record ScannerState : Type := mkState {
  parsers : list (string * Language);
  treeSitterLoaded : bool
}.

(** The state the constructor leaves. *)
Definition initial_state : ScannerState := mkState [] false.

(** [initializeParsers()]: a throw at any step leaves what was set before it
    and [treeSitterLoaded] false. *)
Definition initializeParsers (o : LoadOutcome) : ScannerState :=
  if negb (imports_ok o) then mkState [] false
  else if negb (js_ok o) then mkState [] false
  else
    let with_js := [("js", JavaScript); ("jsx", JavaScript); ("mjs", JavaScript)] in
    if negb (ts_ok o) then mkState with_js false
    else
      let with_ts := with_js ++ [("ts", TypeScript); ("tsx", TypeScript)] in
      if negb (py_ok o) then mkState with_ts false
      else mkState (with_ts ++ [("py", Python)]) true.

(** [this.parsers.get(ext)] *)
Fixpoint get (ext : string) (m : list (string * Language)) : option Language :=
  match m with
  | [] => None
  | (k, v) :: rest => if String.eqb ext k then Some v else get ext rest
  end.

(** The environment of [parseFiles] for a scanner in state [st]:
    [parse lang content] is [parser.parse(content)] for the parser of
    language [lang]. *)
Definition scan_env (st : ScannerState) (readFile : string -> result string)
    (parse : Language -> string -> result TsNode) : Env :=
  mkEnv readFile (treeSitterLoaded st)
        (fun ext => match get ext (parsers st) with Some _ => true | None => false end)
        (fun content f =>
           match get (extension f) (parsers st) with
           | Some lang =>
               match parse lang content with
               | Ok tree => analyzeAST tree content f
               | Threw => Threw
               end
           | None => Threw
           end).

End Ast.

(** ** [findSourceFiles] and [scanRepository] *)

Module Walk.
Import JsString Scanner Ast.

Set Warnings "-register-all".

(** What [fs.readdir(dir, { withFileTypes: true })] lists: regular files
    (with the size [fs.stat] reports, if it does not throw), directories
    (with their own listing, which may throw), and entries that are
    neither. *)
Inductive entry : Type :=
| File (name : string) (bytes : result nat)
| Dir (name : string) (listing : result (list entry))
| Other (name : string).

(** The functions of Node's [path] module the walk calls. *)
Class FsPathApi : Type := {
  join : string -> string -> string;
  extname : string -> string;
  relative : string -> string -> string;
  basename : string -> string
}.

Definition supportedExtensions : list string := ["js"; "jsx"; "ts"; "tsx"; "py"; "mjs"].

Definition ignoreDirs : list string :=
  ["node_modules"; ".git"; "dist"; "build"; "__pycache__"; ".pytest_cache"].

(** [!ignoreDirs.includes(name) && !name.startsWith('.')] *)
Definition walked (name : string) : bool :=
  negb (str_in name ignoreDirs) && negb (startsWith name ".").

(** [s.slice(1)] *)
Definition slice1 (s : string) : string :=
  match s with
  | EmptyString => EmptyString
  | String _ rest => rest
  end.

Section Walk.
Context {F : FsPathApi}.
Variable repoPath : string.

(** One iteration of the [for] loop of [walkDirectory(dir)]: the files the
    entry adds, or [Threw] when a listing below it throws. *)
Fixpoint walkEntry (dir : string) (e : entry) {struct e} : result (list SourceFile) :=
  match e with
  | Dir name listing =>
      if walked name then
        match listing with
        | Ok entries =>
            (fix walkEntries (es : list entry) {struct es} : result (list SourceFile) :=
               match es with
               | [] => Ok []
               | e' :: rest =>
                   match walkEntry (join dir name) e' with
                   | Threw => Threw
                   | Ok found =>
                       match walkEntries rest with
                       | Threw => Threw
                       | Ok more => Ok (found ++ more)
                       end
                   end
               end) entries
        | Threw => Threw
        end
      else Ok []
  | File name stat =>
      let ext := slice1 (extname name) in
      if str_in ext supportedExtensions
      then match stat with
           | Ok bytes =>
               Ok [mkFile (join dir name) (relative repoPath (join dir name)) ext name bytes]
           | Threw => Threw
           end
      else Ok []
  | Other _ => Ok []
  end.

(** [walkDirectory(dir)] over the listing of [dir]. *)
Fixpoint walkDirectory (dir : string) (entries : list entry) : result (list SourceFile) :=
  match entries with
  | [] => Ok []
  | e :: rest =>
      match walkEntry dir e with
      | Threw => Threw
      | Ok found =>
          match walkDirectory dir rest with
          | Threw => Threw
          | Ok more => Ok (found ++ more)
          end
      end
  end.

(** [findSourceFiles(repoPath)], [root] being the listing of [repoPath]. *)
Definition findSourceFiles (root : result (list entry)) : result (list SourceFile) :=
  match root with
  | Ok entries => walkDirectory repoPath entries
  | Threw => Threw
  end.
End Walk.

(** The files a walk of [entries], the listing of [dir], is to find: the
    regular files with a supported extension, here or below directories that
    are walked. *)
Inductive reaches {F : FsPathApi} (repoPath : string)
  : string -> list entry -> SourceFile -> Prop :=
| reaches_file (dir : string) (entries : list entry) (name : string) (bytes : nat) :
    In (File name (Ok bytes)) entries ->
    str_in (slice1 (extname name)) supportedExtensions = true ->
    reaches repoPath dir entries
            (mkFile (join dir name) (relative repoPath (join dir name))
                    (slice1 (extname name)) name bytes)
| reaches_dir (dir : string) (entries : list entry) (name : string) (sub : list entry)
              (f : SourceFile) :
    In (Dir name (Ok sub)) entries ->
    walked name = true ->
    reaches repoPath (join dir name) sub f ->
    reaches repoPath dir entries f.

(** A walk of [entries] meets a walked directory whose listing throws, or a
    file with a supported extension whose size cannot be read. *)
Inductive blocked {F : FsPathApi} : list entry -> Prop :=
| blocked_file (entries : list entry) (name : string) :
    In (File name Threw) entries ->
    str_in (slice1 (extname name)) supportedExtensions = true -> blocked entries
| blocked_here (entries : list entry) (name : string) :
    In (Dir name Threw) entries -> walked name = true -> blocked entries
| blocked_below (entries : list entry) (name : string) (sub : list entry) :
    In (Dir name (Ok sub)) entries -> walked name = true -> blocked sub -> blocked entries.

(** The walk of a listing throws exactly when it is blocked, and otherwise
    returns exactly the files it is to find. *)
Definition walk_ok {F : FsPathApi} (repoPath dir : string) (es : list entry) : Prop :=
  (walkDirectory repoPath dir es = Threw <-> blocked es)
  /\ (forall found, walkDirectory repoPath dir es = Ok found ->
                    forall f, In f found <-> reaches repoPath dir es f).

Definition entry_ok {F : FsPathApi} (repoPath : string) (e : entry) : Prop :=
  forall dir, walk_ok repoPath dir [e].

(** *** [getRepositoryInfo] and [scanRepository] *)

(** What [simple-git] reports for a repository: the current branch, the
    commits of [log({ maxCount: 5 })], the latest first. *)
Record GitInfo : Type := mkGit {
  current : string;
  all_commits : list string
}.

Inductive RepoInfo : Type :=
| Local (path : string) (branch : string) (commits : nat) (lastCommit : option string)
| Directory (path : string) (name : string).

(** [stat] is [fs.stat(repoPath)] reduced to [isDirectory()]; [git] is
    [Some] when [checkIsRepo()] says yes and [status()] and [log()] return,
    [None] when it says no or one of the three throws. *)
Definition getRepositoryInfo {F : FsPathApi} (repoPath : string)
    (stat : result bool) (git : option GitInfo) : result RepoInfo :=
  match stat with
  | Threw => Threw
  | Ok false => Threw
  | Ok true =>
      match git with
      | Some g => Ok (Local repoPath (current g) (length (all_commits g)) (hd_error (all_commits g)))
      | None => Ok (Directory repoPath (basename repoPath))
      end
  end.

(** Everything a scan reads from outside.  [state] is the state of the
    scanner, taken as settled: the constructor starts [initializeParsers]
    without waiting for it. *)
Record World : Type := mkWorld {
  stat : result bool;
  git : option GitInfo;
  root : result (list entry);
  disk : string -> result string;
  state : ScannerState;
  parse : Language -> string -> result TsNode;
  now : string
}.

Record ScanResult : Type := mkScan {
  repository : RepoInfo;
  files : list ParsedFile;
  dependencies : Graph;
  patterns : Patterns;
  metrics : Metrics;
  timestamp : string
}.

(** [scanRepository(repoPath)]: [Some Threw] when it rejects, [None] only if
    a regex scan does not end. *)
Definition scanRepository {P : PathApi} {F : FsPathApi} (w : World) (repoPath : string)
  : option (result ScanResult) :=
  match getRepositoryInfo repoPath (stat w) (git w) with
  | Threw => Some Threw
  | Ok repoInfo =>
      match findSourceFiles repoPath (root w) with
      | Threw => Some Threw
      | Ok sources =>
          match parseFiles (scan_env (state w) (disk w) (parse w)) sources with
          | None => None
          | Some parsedFiles =>
              Some (Ok (mkScan repoInfo parsedFiles
                               (buildDependencyGraph parsedFiles)
                               (detectArchitecturalPatterns parsedFiles)
                               (calculateMetrics parsedFiles)
                               (now w)))
          end
      end
  end.

End Walk.

(** ** More of Node's [path] module on POSIX

    [path.normalize], [path.join], [path.extname], [path.basename] and
    [path.relative].  [extname] follows Node's backward scan state by state;
    [basename] and [relative] are given by the segments of the paths. *)

Module PosixFs.
Import JsString.

Definition dot : ascii := "."%char.

Fixpoint last_char (s : string) : option ascii :=
  match s with
  | EmptyString => None
  | String c EmptyString => Some c
  | String _ rest => last_char rest
  end.

Definition ends_with_slash (p : string) : bool :=
  match last_char p with
  | Some c => Ascii.eqb c Posix.slash
  | None => false
  end.

Definition normalize (p : string) : string :=
  match p with
  | EmptyString => "."
  | _ =>
      let isAbsolute := Posix.isAbsolute p in
      let trailingSeparator := ends_with_slash p in
      let n := Posix.normalizeString p (negb isAbsolute) in
      match n with
      | EmptyString => if isAbsolute then "/" else if trailingSeparator then "./" else "."
      | _ =>
          let n' := if trailingSeparator then (n ++ "/")%string else n in
          if isAbsolute then String Posix.slash n' else n'
      end
  end.

(** [path.join(a, b)] *)
Definition join (a b : string) : string :=
  match a, b with
  | EmptyString, EmptyString => "."
  | EmptyString, _ => normalize b
  | _, EmptyString => normalize a
  | _, _ => normalize (a ++ "/" ++ b)%string
  end.

(** [preDotState]: 0, 1 and -1. *)
Inductive PreDot : Type := NoDotYet | DotBefore | CharBefore.

(** The variables of the scan of [extname]; [None] is -1. *)
Record ExtState : Type := mkExt {
  startDot : option nat;
  startPart : nat;
  endPos : option nat;
  matchedSlash : bool;
  preDotState : PreDot
}.

Definition ext_init : ExtState := mkExt None 0 None true NoDotYet.

(** The loop [for (i = path.length - 1; i >= 0; --i)]: the first character of
    [rev_chars] has index [i]. *)
Fixpoint extname_loop (rev_chars : list ascii) (i : nat) (st : ExtState) : ExtState :=
  match rev_chars with
  | [] => st
  | c :: rest =>
      if Ascii.eqb c Posix.slash then
        if negb (matchedSlash st)
        then mkExt (startDot st) (i + 1) (endPos st) (matchedSlash st) (preDotState st)
        else extname_loop rest (i - 1) st
      else
        let st1 :=
          match endPos st with
          | None => mkExt (startDot st) (startPart st) (Some (i + 1)) false (preDotState st)
          | Some _ => st
          end in
        let st2 :=
          if Ascii.eqb c dot then
            match startDot st1 with
            | None => mkExt (Some i) (startPart st1) (endPos st1) (matchedSlash st1)
                            (preDotState st1)
            | Some _ => mkExt (startDot st1) (startPart st1) (endPos st1) (matchedSlash st1)
                              DotBefore
            end
          else
            match startDot st1 with
            | Some _ => mkExt (startDot st1) (startPart st1) (endPos st1) (matchedSlash st1)
                              CharBefore
            | None => st1
            end in
        extname_loop rest (i - 1) st2
  end.

Definition extname (p : string) : string :=
  let st := extname_loop (rev (list_ascii_of_string p)) (String.length p - 1) ext_init in
  match startDot st, endPos st with
  | Some sd, Some e =>
      match preDotState st with
      | NoDotYet => EmptyString
      | DotBefore =>
          if (sd =? e - 1) && (sd =? startPart st + 1) then EmptyString
          else String.substring sd (e - sd) p
      | CharBefore => String.substring sd (e - sd) p
      end
  | _, _ => EmptyString
  end.

(** The non-empty segments of a path. *)
Definition segments (p : string) : list string :=
  filter (fun seg => negb (String.eqb seg EmptyString)) (split Posix.slash p).

(** [path.basename(p)]: the last non-empty segment. *)
Definition basename (p : string) : string := last (segments p) EmptyString.

Fixpoint drop_common (a b : list string) : list string * list string :=
  match a, b with
  | x :: a', y :: b' => if String.eqb x y then drop_common a' b' else (a, b)
  | _, _ => (a, b)
  end.

(** [path.relative(from, to)] in a process whose working directory is
    [cwd]: one [..] per segment of [from] past the common ones, then the
    segments of [to] past them. *)
Definition relative (cwd from to : string) : string :=
  if String.eqb from to then EmptyString
  else
    let from' := Posix.resolve_args cwd [from] in
    let to' := Posix.resolve_args cwd [to] in
    if String.eqb from' to' then EmptyString
    else
      let (ups, downs) := drop_common (segments from') (segments to') in
      Posix.join_segs (map (fun _ => "..") ups ++ downs).

Definition posix_fs (cwd : string) : Walk.FsPathApi :=
  {| Walk.join := join;
     Walk.extname := extname;
     Walk.relative := relative cwd;
     Walk.basename := basename |}.

End PosixFs.

(** ** Notions the further statements use *)

Module ScanNotions.
Import JsString Scanner Ast Walk.

(** No character of a list, or of a string, is [c]. *)
Definition lacks (c : ascii) (l : list ascii) : bool :=
  forallb (fun d => negb (Ascii.eqb d c)) l.

Definition free_of (c : ascii) (s : string) : bool := lacks c (list_ascii_of_string s).

(** [preDotState] after the characters before the last dot went by. *)
Definition pre_dot (l : list ascii) (d : PosixFs.PreDot) : PosixFs.PreDot :=
  fold_left (fun _ c => if Ascii.eqb c PosixFs.dot then PosixFs.DotBefore else PosixFs.CharBefore)
            l d.

(** The number of occurrences of a character. *)
Fixpoint occ (c : ascii) (s : string) : nat :=
  match s with
  | EmptyString => 0
  | String d s' => (if Ascii.eqb d c then 1 else 0) + occ c s'
  end.

(** Every line number an analysis records lies between 1 and [n]. *)
Definition lines_within (n : nat) (a : Analysis) : Prop :=
  Forall (fun fn => 1 <= fn_line fn <= n) (functions a)
  /\ Forall (fun cls => 1 <= cls_line cls <= n) (classes a)
  /\ Forall (fun imp => 1 <= imp_line imp <= n) (imports a).

(** The environment of a scan that has no syntax-tree parser at all. *)
Definition regex_only (readFile : string -> result string) : Env :=
  mkEnv readFile false (fun _ => false) (fun _ _ => Threw).

(** The classes whose name holds [singleton], whatever the case. *)
Definition named_singleton (pfs : list ParsedFile) : list ClassInfo :=
  flat_map (fun f => filter (fun cls => includes (toLowerCase (cls_name cls)) "singleton")
                            (classes (analysis f)))
           pfs.

(** All four sequences of steps of [initializeParsers] went through. *)
Definition all_loaded : LoadOutcome := mkLoad true true true true.

(** The Python grammar failed to load, after the two others did. *)
Definition python_missing : LoadOutcome := mkLoad true true true false.

(** A tree as the JavaScript grammar builds it for [function f() {}]: a
    [program] with one [function_declaration]. *)
Definition function_tree : TsNode :=
  TsN "program" "function f() {}" 0
      [TsN "function_declaration" "function f() {}" 0
           [TsN "function" "function" 0 []; TsN "identifier" "f" 0 [];
            TsN "formal_parameters" "()" 0 []; TsN "statement_block" "{}" 0 []]].

(** A tree without any node the [switch] has a case for. *)
Definition comment_tree : TsNode :=
  TsN "program" "// nothing" 0 [TsN "comment" "// nothing" 0 []].

(** A repository [/repo] holding [a.js], [notes.txt], [src/b.py] and an
    unreadable [node_modules]. *)
Definition sample_root : list entry :=
  [ File "a.js" (Ok 16); File "notes.txt" (Ok 5);
    Dir "node_modules" Threw;
    Dir "src" (Ok [File "b.py" (Ok 12)]) ].

Definition sample_disk (p : string) : result string :=
  if String.eqb p "/repo/a.js" then Ok "function f() {}"
  else if String.eqb p "/repo/src/b.py" then Ok "# nothing"
  else Threw.

(** The parser of every language builds [function_tree] for the text of
    [a.js] and [comment_tree] for any other. *)
Definition sample_parse (lang : Language) (content : string) : result TsNode :=
  if String.eqb content "function f() {}" then Ok function_tree else Ok comment_tree.

Definition sample_world (o : LoadOutcome) : World :=
  mkWorld (Ok true) None (Ok sample_root) sample_disk (initializeParsers o) sample_parse
          "2024-01-01T00:00:00.000Z".

End ScanNotions.

(** ** The upload path of the server: [analyzeUploadedFiles] *)

Module Upload.
Import JsString Scanner.

(** An element of [uploadedFiles], as the browser sends it: [content] and
    [size] may be missing. *)
Record UploadedFile : Type := mkUpload {
  up_name : string;
  up_content : option string;
  up_size : option nat
}.

Record AnalyzedFile : Type := mkAnalyzed {
  name : string;
  relativePath : string;
  size : nat;
  extension : string;
  content : string;
  lineCount : nat;
  analysis : Server.Analysis;
  isMainEntry : bool
}.

(** [name.split('.').pop().toLowerCase()] *)
Definition extension_of (name : string) : string :=
  toLowerCase (last (split "." name) EmptyString).

(** The body of [for (const file of uploadedFiles)] up to the totals.
    [package_keys content] is [Object.keys(JSON.parse(content).dependencies || {})],
    which may throw. *)
Definition analyzeFile (package_keys : string -> result (list string)) (file : UploadedFile)
  : AnalyzedFile :=
  let extension := extension_of (up_name file) in
  let content := or_else (up_content file) EmptyString in
  let lineCount :=
    match content with
    | EmptyString => 0
    | _ => length (split newline content)
    end in
  let size :=
    match up_size file with
    | Some (S n) => S n
    | _ => String.length content
    end in
  let analysis :=
    match content with
    | EmptyString => Server.emptyAnalysis
    | _ =>
        if String.eqb extension "js"
        then Server.parseJavaScriptContent content (up_name file)
        else if String.eqb extension "json" && String.eqb (up_name file) "package.json"
        then match package_keys content with
             | Ok keys => Server.mkAnalysis [] [] keys []
             | Threw => Server.emptyAnalysis
             end
        else Server.emptyAnalysis
    end in
  mkAnalyzed (up_name file) (up_name file) size extension content lineCount analysis
             (includes (up_name file) "app.js").

(** The variables the loop updates. *)
Record Totals : Type := mkTotals {
  analyzedFiles : list AnalyzedFile;
  languages : list string;
  totalFunctions : nat;
  totalClasses : nat;
  totalLines : nat
}.

Definition step (package_keys : string -> result (list string)) (t : Totals)
    (file : UploadedFile) : Totals :=
  let fileAnalysis := analyzeFile package_keys file in
  mkTotals (analyzedFiles t ++ [fileAnalysis])
           (set_add (languages t) (extension fileAnalysis))
           (totalFunctions t + length (Server.functions (analysis fileAnalysis)))
           (totalClasses t + length (Server.classes (analysis fileAnalysis)))
           (totalLines t + lineCount fileAnalysis).

Record MockNode : Type := mkMockNode {
  id : string;
  node_type : string;
  node_size : nat
}.

Record MockGraph : Type := mkMockGraph {
  nodes : list MockNode;
  edges : list (string * string)
}.

(** [generateMockDependencies(isReact, isExpress)] *)
Definition generateMockDependencies (isReact isExpress : bool) : MockGraph :=
  let nodes0 := [mkMockNode "index.js" "entry" 40] in
  let nodes1 :=
    if isReact
    then nodes0 ++ [mkMockNode "App.jsx" "component" 45; mkMockNode "Header.jsx" "component" 30;
                    mkMockNode "Dashboard.jsx" "component" 50]
    else nodes0 in
  let edges1 :=
    if isReact
    then [("index.js", "App.jsx"); ("App.jsx", "Header.jsx"); ("App.jsx", "Dashboard.jsx")]
    else [] in
  let nodes2 :=
    if isExpress
    then nodes1 ++ [mkMockNode "server.js" "server" 40; mkMockNode "routes.js" "routes" 35;
                    mkMockNode "middleware.js" "middleware" 25]
    else nodes1 in
  let edges2 :=
    if isExpress
    then edges1 ++ [("server.js", "routes.js"); ("server.js", "middleware.js")]
    else edges1 in
  mkMockGraph nodes2 edges2.

(** [{ detected, confidence }] *)
Record MockVerdict : Type := mkMockVerdict {
  detected : bool;
  confidence : Q
}.

(** [generateMockPatterns(isReact, isExpress)]: the keys of the object in
    insertion order. *)
Definition generateMockPatterns (isReact isExpress : bool) : list (string * MockVerdict) :=
  [("modules", mkMockVerdict true (Double.fl (9 # 10)));
   ("factories", mkMockVerdict false (Double.fl (2 # 10)))]
  ++ (if isReact
      then [("componentPattern", mkMockVerdict true (Double.fl (95 # 100)));
            ("hooks", mkMockVerdict true (Double.fl (8 # 10)))]
      else [])
  ++ (if isExpress
      then [("mvc", mkMockVerdict true (Double.fl (85 # 100)));
            ("middleware", mkMockVerdict true (Double.fl (9 # 10)))]
      else []).

(** The number the string [x.toFixed(1)] denotes, for [x >= 0]. *)
Definition toFixed1 (x : Q) : Q := (Math_round (x * 10) / 10)%Q.

Record UploadMetrics : Type := mkUploadMetrics {
  m_totalLines : nat;
  m_totalFiles : nat;
  m_totalFunctions : nat;
  m_totalClasses : nat;
  m_avgComplexity : Q;
  m_languages : list string
}.

Record UploadAnalysis : Type := mkUploadAnalysis {
  fileCount : nat;
  analyzedAt : string;
  files : list AnalyzedFile;
  dependencies : MockGraph;
  patterns : list (string * MockVerdict);
  metrics : UploadMetrics
}.

(** [analyzeUploadedFiles(uploadedFiles)]; [random] is the value
    [Math.random()] returns and [now] the date.  The delay the function
    waits for has no part in the result. *)
Definition analyzeUploadedFiles (package_keys : string -> result (list string))
    (random : Q) (now : string) (uploadedFiles : list UploadedFile) : UploadAnalysis :=
  let t := fold_left (step package_keys) uploadedFiles (mkTotals [] [] 0 0 0) in
  let languageArray := languages t in
  let hasNode :=
    str_in "js" languageArray
    && existsb (fun f => String.eqb (up_name f) "package.json") uploadedFiles in
  mkUploadAnalysis (length uploadedFiles) now (analyzedFiles t)
                   (generateMockDependencies false hasNode)
                   (generateMockPatterns false hasNode)
                   (mkUploadMetrics (totalLines t) (length uploadedFiles) (totalFunctions t)
                                    (totalClasses t)
                                    (toFixed1 (Double.add 2 (Double.mul random (1 # 2))))
                                    languageArray).

(** The uploaded files whose content is analysed: a content that is not
    empty and a name whose last dot is followed by [js] in any case. *)
Definition is_parsed (f : UploadedFile) : bool :=
  truthy (up_content f) && String.eqb (extension_of (up_name f)) "js".

End Upload.

(** ** The question path: [filterFilesForAI] and [selectRelevantFiles] *)

Module Whisperer.
Import JsString Scanner.

(** A file of [codebaseContext.files], as the client sends it back.  The
    names of [analysis.functions] and [analysis.classes] are [None] when the
    field is not an array, as in the mock analyses, where it is a number. *)
Record ContextFile : Type := mkContext {
  name : option string;
  relativePath : option string;
  extension : option string;
  functions : option (list string);
  classes : option (list string);
  content : option string
}.

(** [arr.sort(compare)], which is stable: [before y x] is
    [compare(y, x) < 0]. *)
Section Sort.
Context {A : Type}.
Variable before : A -> A -> bool.

Fixpoint insert (x : A) (l : list A) : list A :=
  match l with
  | [] => [x]
  | y :: l' => if before y x then y :: insert x l' else x :: l
  end.

Fixpoint sort (l : list A) : list A :=
  match l with
  | [] => []
  | x :: l' => insert x (sort l')
  end.
End Sort.

Definition binaryExtensions : list string :=
  ["png"; "jpg"; "jpeg"; "gif"; "pdf"; "zip"; "tar"; "gz"; "exe"; "dll"; "so"; "dylib"].

Definition importantExtensions : list string :=
  ["md"; "js"; "py"; "ts"; "jsx"; "tsx"; "json"; "yml"; "yaml"; "txt"; "html"; "css"; "sql";
   "sh"; "bat"; "env"].

(** [(s || '').toLowerCase()] *)
Definition lower_or_empty (s : option string) : string := toLowerCase (or_else s EmptyString).

(** The callback of [filter]. *)
Definition kept (file : ContextFile) : bool :=
  let ext := lower_or_empty (extension file) in
  let fileName := lower_or_empty (name file) in
  if str_in ext binaryExtensions then false
  else if String.eqb ext "pyc" || includes fileName ".cpython-" then false
  else if includes fileName "__pycache__" || includes fileName "node_modules"
          || includes fileName ".git/" then false
  else true.

Definition is_readme (file : ContextFile) : bool :=
  includes (lower_or_empty (name file)) "readme".

Definition is_main (file : ContextFile) : bool :=
  includes (lower_or_empty (name file)) "main" || includes (lower_or_empty (name file)) "index".

Definition is_important (file : ContextFile) : bool :=
  str_in (lower_or_empty (extension file)) importantExtensions.

(** The callback of [sort]. *)
Definition compare (a b : ContextFile) : Z :=
  if is_readme a && negb (is_readme b) then (-1)%Z
  else if is_readme b && negb (is_readme a) then 1%Z
  else if is_main a && negb (is_main b) then (-1)%Z
  else if is_main b && negb (is_main a) then 1%Z
  else if is_important a && negb (is_important b) then (-1)%Z
  else if is_important b && negb (is_important a) then 1%Z
  else 0%Z.

Definition filterFilesForAI (files : list ContextFile) : list ContextFile :=
  sort (fun y x => (compare y x <? 0)%Z) (filter kept files).

(** The place of a file in the order of [compare]: README files, then main
    and index files, then important extensions. *)
Definition rank (file : ContextFile) : Z :=
  ((if is_readme file then 0 else 4) + (if is_main file then 0 else 2)
   + (if is_important file then 0 else 1))%Z.

(** [questionLower.split(' ').filter(word => word.length > 2)] *)
Definition questionWords (question : string) : list string :=
  filter (fun word => 2 <? String.length word) (split " " (toLowerCase question)).

(** [questionWords.some(word => text.includes(word))] *)
Definition some_word_in (words : list string) (text : string) : bool :=
  existsb (fun word => includes text word) words.

(** [Array.isArray(x) ? x.map(f => (f.name || '').toLowerCase()) : []] *)
Definition lower_names (names : option (list string)) : list string :=
  match names with
  | Some l => map toLowerCase l
  | None => []
  end.

Definition points (b : bool) (n : nat) : nat := if b then n else 0.

(** The callback of [files.map]: the score of a file that has a name. *)
Definition score (question : string) (fileName : string) (file : ContextFile) : nat :=
  let questionLower := toLowerCase question in
  let words := questionWords question in
  let fileName := toLowerCase fileName in
  let relativePath := lower_or_empty (relativePath file) in
  let fileExt :=
    match extension file with
    | Some e => toLowerCase e
    | None => "undefined"
    end in
  points (some_word_in words fileName) 10
  + points (includes questionLower fileExt) 5
  + points (some_word_in words relativePath) 3
  + points (existsb (some_word_in words) (lower_names (functions file))) 6
  + points (existsb (some_word_in words) (lower_names (classes file))) 6
  + points (truthy (content file)
            && some_word_in words (toLowerCase (or_else (content file) EmptyString))) 2
  + points (includes fileName "readme" || includes fileName "main" || includes fileName "index") 1.

(** [{ ...file, relevanceScore }] *)
Definition Scored : Type := (ContextFile * nat)%type.

(** [files.map(...)]: reading [file.name.toLowerCase()] of a file without a
    name throws. *)
Fixpoint scoredFiles (question : string) (files : list ContextFile) : result (list Scored) :=
  match files with
  | [] => Ok []
  | file :: rest =>
      match name file with
      | None => Threw
      | Some fileName =>
          match scoredFiles question rest with
          | Threw => Threw
          | Ok more => Ok ((file, score question fileName file) :: more)
          end
      end
  end.

(** [selectRelevantFiles(question, codebaseContext)]; [files] is
    [codebaseContext.files]. *)
Definition selectRelevantFiles (question : string) (files : option (list ContextFile))
  : result (list Scored) :=
  match scoredFiles question (match files with Some l => l | None => [] end) with
  | Threw => Threw
  | Ok scored =>
      Ok (firstn 8 (sort (fun y x => snd x <? snd y)
                         (filter (fun f => 0 <? snd f) scored)))
  end.

Record RelatedFile : Type := mkRelated {
  rel_path : option string;
  rel_relevance : nat;
  rel_functions : nat;
  rel_classes : nat
}.

Definition array_length (names : option (list string)) : nat :=
  match names with
  | Some l => length l
  | None => 0
  end.

(** [findRelatedFiles(question, codebaseContext)] *)
Definition findRelatedFiles (question : string) (files : option (list ContextFile))
  : result (list RelatedFile) :=
  match selectRelevantFiles question files with
  | Threw => Threw
  | Ok relevantFiles =>
      Ok (map (fun f => mkRelated (relativePath (fst f)) (snd f)
                                  (array_length (functions (fst f)))
                                  (array_length (classes (fst f))))
              relevantFiles)
  end.

(** The files of a context that have a name and a score above 0. *)
Definition relevant (question : string) (files : list ContextFile) : list Scored :=
  flat_map (fun file =>
              match name file with
              | Some fileName =>
                  if 0 <? score question fileName file
                  then [(file, score question fileName file)]
                  else []
              | None => []
              end)
           files.

(** A context of three files. *)
Definition sample_context : list ContextFile :=
  [ mkContext (Some "README.md") (Some "README.md") (Some "md") (Some []) (Some []) None;
    mkContext (Some "auth.js") (Some "src/auth.js") (Some "js") (Some ["login"]) (Some [])
              (Some "function login() {}");
    mkContext (Some "logo.png") (Some "logo.png") (Some "png") None None None ].

End Whisperer.

(** ** Notions and scenarios for the scores *)

Module ScoreNotions.
Import JsString Scanner Scenarios.

(** A length an array can have. *)
Definition array_length (n : nat) : Prop := (Z.of_nat n < 2 ^ 32)%Z.

(** The three sequences a score is computed from are arrays. *)
Definition array_sized (a : Analysis) : Prop :=
  array_length (length (functions a))
  /\ array_length (length (classes a))
  /\ array_length (length (calls a)).

(** The score as the formula states it, in exact arithmetic. *)
Definition stated_score (a : Analysis) : Q :=
  (count (length (functions a)) + 2 * count (length (classes a))
   + (1 # 10) * count (length (calls a)))%Q.

(** [2 ^ -50]: what the roundings of a score can change of it, in
    proportion. *)
Definition slack : Q := 1 # 1125899906842624.

(** Every score of a file set is a whole number. *)
Definition whole_scores (files : list ParsedFile) : Prop :=
  Forall (fun pf => exists k : nat, (complexity pf == count k)%Q) files.

(** Fewer files than an array can hold, and scores that sum to at most
    [2 ^ 40]. *)
Definition moderate (files : list ParsedFile) : Prop :=
  array_length (length files)
  /\ (sum_Q (map complexity files) <= 1099511627776)%Q.

(** An analysis with the given numbers of functions, classes and calls. *)
Definition with_counts (f c k : nat) : Analysis :=
  mkAnalysis (repeat (mkFunction "f" 1 [] false) f) (repeat (mkClass "C" 1 []) c)
             [] [] [] (repeat (mkCall "g" 1) k).

(** The parsed file of [app.js] with such an analysis. *)
Definition scored (f c k : nat) : ParsedFile :=
  parsed app_js EmptyString (with_counts f c k).

(** One class and one call. *)
Definition one_class_one_call : Analysis := with_counts 0 1 1.

(** The [n]-th file of a repository of numbered files: its name is [n]
    letters long, its content [text n]. *)
Definition numbered (text : nat -> string) (n : nat) : SourceFile :=
  let base := (string_of_list_ascii (repeat "a"%char n) ++ ".js")%string in
  repo_file base base "js" (String.length (text n)).

(** The regex scan of the first [n] numbered files. *)
Definition numbered_scan (text : nat -> string) (n : nat) : list ParsedFile :=
  scan (map (fun i => (path (numbered text i), text i)) (seq 1 n))
       (map (numbered text) (seq 1 n)).

(** The scan of forty files: thirty-nine hold one function, the last one
    two. *)
Definition forty_files : list ParsedFile :=
  numbered_scan (fun i => if i =? 40 then twice_foo else "function f(){}") 40.

(** The scan of eight files: the first holds one function, the others are
    empty. *)
Definition eight_files : list ParsedFile :=
  numbered_scan (fun i => if i =? 1 then "function f(){}" else EmptyString) 8.

(** Four files, one with two functions and one with three call sites, which
    a syntax-tree analysis records. *)
Definition four_files : list ParsedFile :=
  [scored 2 0 0; scored 0 0 0; scored 0 0 3; scored 0 0 0].

(** A directory that holds nothing, scanned before any parser is loaded. *)
Definition empty_repository : Walk.World :=
  Walk.mkWorld (Ok true) None (Ok []) (fun _ => Threw) Ast.initial_state (fun _ _ => Threw)
               "2024-01-01T00:00:00.000Z".

End ScoreNotions.

(** ** Rounding to the nearest double *)

Module DoubleFacts.
Import Double.
Local Open Scope Q_scope.

Lemma pow2_pos (k : Z) : 0 < pow2 k.
Proof. apply Qpower_0_lt. reflexivity. Qed.

Lemma pow2_add (a b : Z) : pow2 (a + b) == pow2 a * pow2 b.
Proof. apply Qpower_plus. discriminate. Qed.

Lemma pow2_le (a b : Z) : (a <= b)%Z -> pow2 a <= pow2 b.
Proof. intros H. apply Qpower_le_compat_l; [exact H | discriminate]. Qed.

Lemma pow2_lt (a b : Z) : (a < b)%Z -> pow2 a < pow2 b.
Proof. intros H. apply Qpower_lt_compat_l; [exact H | reflexivity]. Qed.

Lemma pow2_Z (k : Z) : (0 <= k)%Z -> pow2 k == inject_Z (2 ^ k).
Proof. intros H. unfold pow2. rewrite Zpower_Qpower by exact H. reflexivity. Qed.

Lemma pow2_succ (k : Z) : pow2 (k + 1) == 2 * pow2 k.
Proof. rewrite pow2_add. change (pow2 1) with 2. ring. Qed.

Lemma below_twice (x D A K Pd Pn : Q) : x * D == A -> A < 2 * Pn -> K * Pd == Pn -> Pd <= D -> 0 < K -> 0 < D -> x < 2 * K.
Proof.
  intros. apply Qnot_le_lt. intros Hc.
  assert (P1 : 0 <= (x - 2 * K) * D) by (apply Qmult_le_0_compat; lra).
  assert (P2 : 0 <= K * (D - Pd)) by (apply Qmult_le_0_compat; lra).
  lra.
Qed.
Lemma above_half (x D A K Pd Pn : Q) : x * D == A -> Pn <= A -> K * Pd == Pn -> D < 2 * Pd -> 0 < K -> 0 < D -> 0 < Pd -> (1 # 2) * K <= x.
Proof.
  intros. apply Qnot_lt_le. intros Hc.
  assert (P1 : 0 <= ((1 # 2) * K - x) * D) by (apply Qmult_le_0_compat; lra).
  assert (P2 : 0 < K * (2 * Pd - D)) by (apply Qmult_lt_0_compat; lra).
  lra.
Qed.

Lemma ilog2_spec (x : Q) : 0 < x -> pow2 (ilog2 x) <= x /\ x < pow2 (ilog2 x + 1).
Proof.
  intros Hx. destruct x as [n d]. unfold ilog2. cbn [Qnum Qden].
  assert (Hn : (0 < n)%Z) by (unfold Qlt in Hx; simpl in Hx; lia).
  set (ln := Z.log2 n). set (ld := Z.log2 (Z.pos d)).
  assert (Hln : (0 <= ln)%Z) by apply Z.log2_nonneg.
  assert (Hld : (0 <= ld)%Z) by apply Z.log2_nonneg.
  destruct (Z.log2_spec n Hn) as [Hn1 Hn2]. fold ln in Hn1, Hn2.
  destruct (Z.log2_spec (Z.pos d) eq_refl) as [Hd1 Hd2]. fold ld in Hd1, Hd2.
  set (A := inject_Z n). set (D := inject_Z (Z.pos d)).
  assert (HA1 : pow2 ln <= A) by (rewrite pow2_Z by exact Hln; unfold A; rewrite <- Zle_Qle; exact Hn1).
  assert (HA2 : A < 2 * pow2 ln).
  { rewrite <- pow2_succ, pow2_Z by lia. unfold A. rewrite <- Zlt_Qlt. exact Hn2. }
  assert (HD1 : pow2 ld <= D) by (rewrite pow2_Z by exact Hld; unfold D; rewrite <- Zle_Qle; exact Hd1).
  assert (HD2 : D < 2 * pow2 ld).
  { rewrite <- pow2_succ, pow2_Z by lia. unfold D. rewrite <- Zlt_Qlt. exact Hd2. }
  assert (HxD : (n # d) * D == A).
  { rewrite (Qmake_Qdiv n d). fold A D. field. intros E.
    pose proof (pow2_pos ld). lra. }
  assert (HK : pow2 (ln - ld) * pow2 ld == pow2 ln).
  { rewrite <- pow2_add. replace (ln - ld + ld)%Z with ln by lia. reflexivity. }
  pose proof (pow2_pos (ln - ld)) as HKpos. pose proof (pow2_pos ld) as HPd.
  assert (HDpos : 0 < D) by lra.
  destruct (Qle_bool (pow2 (ln - ld)) (n # d)) eqn:E.
  - apply Qle_bool_iff in E. split; [exact E|].
    rewrite pow2_succ.
    exact (below_twice _ _ _ _ _ _ HxD HA2 HK HD1 HKpos HDpos).
  - assert (E' : (n # d) < pow2 (ln - ld)).
    { apply Qnot_le_lt. intros H. apply Qle_bool_iff in H. congruence. }
    replace (ln - ld - 1 + 1)%Z with (ln - ld)%Z by lia. split; [|exact E'].
    assert (Hhalf : pow2 (ln - ld - 1) == (1 # 2) * pow2 (ln - ld)).
    { pose proof (pow2_succ (ln - ld - 1)) as H.
      replace (ln - ld - 1 + 1)%Z with (ln - ld)%Z in H by lia. rewrite H. ring. }
    rewrite Hhalf.
    exact (above_half _ _ _ _ _ _ HxD HA1 HK HD2 HKpos HDpos HPd).
Qed.

Lemma ilog2_unique (x : Q) (k : Z) :
  pow2 k <= x -> x < pow2 (k + 1) -> ilog2 x = k.
Proof.
  intros H1 H2.
  assert (Hx : 0 < x) by (pose proof (pow2_pos k); lra).
  destruct (ilog2_spec x Hx) as [H3 H4].
  assert (Ha : (k < ilog2 x + 1)%Z).
  { apply (Qpower_lt_compat_l_inv 2); [|reflexivity]. fold (pow2 k) (pow2 (ilog2 x + 1)). lra. }
  assert (Hb : (ilog2 x < k + 1)%Z).
  { apply (Qpower_lt_compat_l_inv 2); [|reflexivity]. fold (pow2 (ilog2 x)) (pow2 (k + 1)). lra. }
  lia.
Qed.


Lemma ilog2_eq (x y : Q) : 0 < x -> x == y -> ilog2 x = ilog2 y.
Proof.
  intros Hx E. destruct (ilog2_spec x Hx) as [H1 H2].
  symmetry. apply ilog2_unique; rewrite <- E; assumption.
Qed.

Lemma round_even_comp (p q : Q) : p == q -> round_even p = round_even q.
Proof.
  intros E. unfold round_even. rewrite (Qfloor_comp p q E).
  assert (E' : p - inject_Z (Qfloor q) == q - inject_Z (Qfloor q)) by (rewrite E; reflexivity).
  rewrite (Qcompare_comp _ _ E' (1 # 2) (1 # 2) (Qeq_refl _)). reflexivity.
Qed.

Lemma round_even_error (q : Q) :
  q - (1 # 2) <= inject_Z (round_even q) /\ inject_Z (round_even q) <= q + (1 # 2).
Proof.
  unfold round_even.
  pose proof (Qfloor_le q) as H1. pose proof (Qlt_floor q) as H2.
  rewrite inject_Z_plus in H2. change (inject_Z 1) with 1 in H2.
  destruct (Qcompare_spec (q - inject_Z (Qfloor q)) (1 # 2)) as [E|E|E].
  - destruct (Z.even (Qfloor q)); [lra|]. rewrite inject_Z_plus. change (inject_Z 1) with 1. lra.
  - lra.
  - rewrite inject_Z_plus. change (inject_Z 1) with 1. lra.
Qed.

Lemma round_even_Z (q : Q) (z : Z) : q == inject_Z z -> round_even q = z.
Proof.
  intros E. rewrite (round_even_comp _ _ E). unfold round_even.
  rewrite Qfloor_Z.
  destruct (Qcompare_spec (inject_Z z - inject_Z z) (1 # 2)) as [H|H|H];
    [lra | reflexivity | lra].
Qed.

Lemma round_even_nonneg (q : Q) : 0 <= q -> (0 <= round_even q)%Z.
Proof.
  intros H. unfold round_even.
  assert (Hf : (0 <= Qfloor q)%Z).
  { change 0%Z with (Qfloor 0). apply Qfloor_resp_le. exact H. }
  destruct (Qcompare (q - inject_Z (Qfloor q)) (1 # 2)); [destruct (Z.even (Qfloor q))| |]; lia.
Qed.

Lemma last_place_eq (x y : Q) : ~ x == 0 -> x == y -> last_place x = last_place y.
Proof.
  intros Hx E. unfold last_place. f_equal. f_equal.
  apply ilog2_eq; [|apply Qabs_wd; exact E].
  apply Qabs_case; intros Hc.
  - apply Qle_lt_or_eq in Hc. destruct Hc as [Hc|Hc]; [exact Hc|].
    destruct Hx. symmetry. exact Hc.
  - apply Qle_lt_or_eq in Hc. destruct Hc as [Hc|Hc]; [lra|]. destruct Hx. exact Hc.
Qed.

#[export] Instance fl_comp : Proper (Qeq ==> Qeq) fl.
Proof.
  intros x y E. unfold fl.
  destruct (Qeq_bool x 0) eqn:Ex.
  - apply Qeq_bool_iff in Ex.
    assert (Ey : y == 0) by (apply Qeq_trans with x; [apply Qeq_sym; exact E | exact Ex]).
    apply Qeq_bool_iff in Ey. rewrite Ey. reflexivity.
  - assert (Hx : ~ x == 0) by (intros H; apply Qeq_bool_iff in H; congruence).
    assert (Ey : Qeq_bool y 0 = false).
    { destruct (Qeq_bool y 0) eqn:Ey; [|reflexivity].
      apply Qeq_bool_iff in Ey. destruct Hx. apply Qeq_trans with y; assumption. }
    rewrite Ey, <- (last_place_eq x y Hx E).
    assert (Eq : x / pow2 (last_place x) == y / pow2 (last_place x)).
    { apply Qmult_comp; [exact E | reflexivity]. }
    rewrite (round_even_comp _ _ Eq).
    reflexivity.
Qed.

Lemma fl_0 : fl 0 == 0.
Proof. reflexivity. Qed.

Lemma fl_nonneg (x : Q) : 0 <= x -> 0 <= fl x.
Proof.
  intros H. unfold fl. destruct (Qeq_bool x 0); [lra|].
  pose proof (pow2_pos (last_place x)) as Hp.
  apply Qmult_le_0_compat; [|lra].
  change 0 with (inject_Z 0). rewrite <- Zle_Qle. apply round_even_nonneg.
  apply Qle_shift_div_l; [exact Hp | lra].
Qed.

Lemma fl_error (x : Q) :
  0 <= x -> x - (x * u + eta) <= fl x /\ fl x <= x + (x * u + eta).
Proof.
  intros H. unfold fl. destruct (Qeq_bool x 0) eqn:E.
  { apply Qeq_bool_iff in E. rewrite E. split; vm_compute; discriminate. }
  assert (Hx : 0 < x).
  { apply Qle_lt_or_eq in H. destruct H as [H|H]; [exact H|].
    assert (E' : x == 0) by (symmetry; exact H). apply Qeq_bool_iff in E'. congruence. }
  set (e := last_place x).
  pose proof (pow2_pos e) as Hp.
  destruct (round_even_error (x / pow2 e)) as [H1 H2].
  assert (Hxe : x / pow2 e * pow2 e == x) by (field; lra).
  (* the last place is at most x * 2^-52 or the smallest one *)
  assert (He : pow2 e <= 2 * (x * u + eta)).
  { unfold e, last_place.
    assert (Habs : Qabs x == x) by exact (Qabs_pos x H).
    rewrite (ilog2_eq (Qabs x) x) by lra.
    destruct (ilog2_spec x Hx) as [Hl _].
    destruct (Z.max_spec (ilog2 x - 52) (-1074)) as [[_ ->]|[_ ->]].
    - assert (Hmin : pow2 (-1074) == 2 * eta) by (vm_compute; reflexivity).
      rewrite Hmin.
      assert (0 <= x * u) by (apply Qmult_le_0_compat; [lra | vm_compute; discriminate]). lra.
    - assert (Hs : pow2 (ilog2 x - 52) == pow2 (ilog2 x) * (2 * u)).
      { unfold Z.sub. rewrite pow2_add.
        assert (H52 : pow2 (- (52)) == 2 * u) by (vm_compute; reflexivity).
        rewrite H52. reflexivity. }
      rewrite Hs.
      assert (0 <= eta) by (vm_compute; discriminate).
      assert (P : 0 <= (x - pow2 (ilog2 x)) * (2 * u)).
      { apply Qmult_le_0_compat; [lra | vm_compute; discriminate]. }
      lra. }
  assert (Q1 : 0 <= (inject_Z (round_even (x / pow2 e)) - (x / pow2 e - (1 # 2))) * pow2 e)
    by (apply Qmult_le_0_compat; lra).
  assert (Q2 : 0 <= (x / pow2 e + (1 # 2) - inject_Z (round_even (x / pow2 e))) * pow2 e)
    by (apply Qmult_le_0_compat; lra).
  set (m := inject_Z (round_even (x / pow2 e))) in *.
  set (q := x / pow2 e) in *.
  split; lra.
Qed.

(** A whole number below [2 ^ 53] is a double. *)
Lemma fl_int (z : Z) : (0 <= z < 2 ^ 53)%Z -> fl (inject_Z z) == inject_Z z.
Proof.
  intros [H0 H1]. destruct (Z.eq_dec z 0) as [->|Hz]; [reflexivity|].
  assert (Hpos : (0 < z)%Z) by lia.
  unfold fl.
  assert (Hx : 0 < inject_Z z) by (change 0 with (inject_Z 0); rewrite <- Zlt_Qlt; exact Hpos).
  destruct (Qeq_bool (inject_Z z) 0) eqn:E; [apply Qeq_bool_iff in E; lra|].
  set (l := Z.log2 z).
  assert (Hl0 : (0 <= l)%Z) by apply Z.log2_nonneg.
  assert (Hl1 : (l <= 52)%Z).
  { assert (l < 53)%Z; [|lia]. apply Z.log2_lt_pow2; assumption. }
  destruct (Z.log2_spec z Hpos) as [Hs1 Hs2]. fold l in Hs1, Hs2.
  assert (Hlog : ilog2 (Qabs (inject_Z z)) = l).
  { rewrite (ilog2_eq (Qabs (inject_Z z)) (inject_Z z));
      [| rewrite Qabs_pos by lra; exact Hx | apply Qabs_pos; lra].
    apply ilog2_unique.
    - rewrite pow2_Z by exact Hl0. rewrite <- Zle_Qle. exact Hs1.
    - rewrite pow2_Z by lia. rewrite <- Zlt_Qlt. exact Hs2. }
  unfold last_place. rewrite Hlog.
  replace (Z.max (l - 52) (-1074)) with (l - 52)%Z by lia.
  assert (Hinv : pow2 (l - 52) * pow2 (52 - l) == 1).
  { rewrite <- pow2_add. replace (l - 52 + (52 - l))%Z with 0%Z by lia. reflexivity. }
  pose proof (pow2_pos (l - 52)) as Hp.
  assert (Hq : inject_Z z / pow2 (l - 52) == inject_Z (z * 2 ^ (52 - l))).
  { rewrite inject_Z_mult, <- (pow2_Z (52 - l)) by lia.
    apply Qmult_inj_r with (pow2 (l - 52)); [lra|].
    setoid_replace (inject_Z z / pow2 (l - 52) * pow2 (l - 52)) with (inject_Z z)
      by (field; lra).
    rewrite <- Qmult_assoc, (Qmult_comm (pow2 (52 - l))), Hinv. ring. }
  rewrite (round_even_Z _ _ Hq).
  rewrite inject_Z_mult, <- (pow2_Z (52 - l)) by lia.
  rewrite <- Qmult_assoc, (Qmult_comm (pow2 (52 - l))), Hinv. ring.
Qed.

Lemma fl_count (n : nat) : (Z.of_nat n < 2 ^ 53)%Z -> fl (inject_Z (Z.of_nat n)) == inject_Z (Z.of_nat n).
Proof. intros H. apply fl_int. lia. Qed.

(** The error of a rounding, with the two bounds written out: [2 ^ -53] of
    the value, and [2 ^ -200], which is more than [eta]. *)
Lemma fl_bounds (x : Q) :
  0 <= x ->
  x * (1 - (1 # 9007199254740992))
  - (1 # 1606938044258990275541962092341162602522202993782792835301376) <= fl x
  /\ fl x <= x * (1 + (1 # 9007199254740992))
              + (1 # 1606938044258990275541962092341162602522202993782792835301376).
Proof.
  intros H. destruct (fl_error x H) as [H1 H2].
  assert (Hu : u == 1 # 9007199254740992) by (vm_compute; reflexivity).
  assert (He : eta <= 1 # 1606938044258990275541962092341162602522202993782792835301376)
    by (vm_compute; discriminate).
  rewrite Hu in H1, H2. split; lra.
Qed.

End DoubleFacts.

(** * Properties *)

(** ** The matcher consumes what it reports *)

Module RegexFacts.
Import JsString Regex Notions.

Lemma star_advances (p : ascii -> bool) (k : cont) (s : string) :
  forall n caps res, star p k s n caps = Some res -> advances 0 k s n res.
Proof.
  induction s as [|c s IH]; intros n caps res H; simpl in H.
  - exists EmptyString, n, caps. repeat split; auto; lia.
  - destruct (p c).
    + destruct (star p k s (S n) caps) as [r|] eqn:E.
      * inversion H; subst r.
        destruct (IH _ _ _ E) as (s' & n' & caps' & Hk & Hn & Hl).
        exists s', n', caps'. simpl. repeat split; auto; lia.
      * exists (String c s), n, caps. repeat split; auto; lia.
    + exists (String c s), n, caps. repeat split; auto; lia.
Qed.

Lemma rmatch_advances (r : regex) :
  forall k s n caps res, rmatch r k s n caps = Some res -> advances (min_len r) k s n res.
Proof.
  induction r as [|p|r1 IH1 r2 IH2|r1 IH1 r2 IH2|p|i r IH]; intros k s n caps res H; simpl in *.
  - exists s, n, caps. repeat split; auto; lia.
  - destruct s as [|c s]; [discriminate|].
    destruct (p c); [|discriminate].
    exists s, (S n), caps. simpl. repeat split; auto; lia.
  - destruct (IH1 _ _ _ _ _ H) as (s1 & n1 & caps1 & H1 & Hn1 & Hl1).
    destruct (IH2 _ _ _ _ _ H1) as (s2 & n2 & caps2 & H2 & Hn2 & Hl2).
    exists s2, n2, caps2. repeat split; auto; lia.
  - destruct (rmatch r1 k s n caps) as [x|] eqn:E.
    + inversion H; subst x.
      destruct (IH1 _ _ _ _ _ E) as (s' & n' & caps' & Hk & Hn & Hl).
      exists s', n', caps'. repeat split; auto; lia.
    + destruct (IH2 _ _ _ _ _ H) as (s' & n' & caps' & Hk & Hn & Hl).
      exists s', n', caps'. repeat split; auto; lia.
  - apply star_advances with (p := p) (caps := caps). exact H.
  - destruct (IH _ _ _ _ _ H) as (s' & n' & caps' & Hk & Hn & Hl).
    exists s', n', ((i, String.substring 0 (n' - n) s) :: caps'). repeat split; auto.
Qed.

Lemma match_at_length (r : regex) (s : string) (len : nat) (caps : captures) :
  match_at r s = Some (len, caps) -> min_len r <= len <= String.length s.
Proof.
  unfold match_at. intros H.
  destruct (rmatch_advances r _ _ _ _ _ H) as (s' & n' & caps' & Hk & Hn & Hl).
  inversion Hk; subst. lia.
Qed.

Lemma find_match_bounds (r : regex) (s : string) :
  forall i m, find_match r s i = Some m ->
    i <= index m /\ min_len r <= mlength m /\ index m + mlength m <= i + String.length s.
Proof.
  induction s as [|c s IH]; intros i m H; simpl in H.
  - destruct (match_at r EmptyString) as [[len caps]|] eqn:E; [|discriminate].
    inversion H; subst m; simpl. apply match_at_length in E. simpl in E. lia.
  - destruct (match_at r (String c s)) as [[len caps]|] eqn:E.
    + inversion H; subst m; simpl. apply match_at_length in E. simpl in E. lia.
    + apply IH in H. simpl. lia.
Qed.

Lemma drop_length (n : nat) :
  forall s t, drop n s = Some t -> n + String.length t = String.length s.
Proof.
  induction n as [|n IH]; intros s t H; simpl in H.
  - inversion H; subst; reflexivity.
  - destruct s as [|c s]; [discriminate|]. apply IH in H. simpl. lia.
Qed.

Lemma exec_bounds (r : regex) (content : string) (lastIndex : nat) (m : rmatch_result) :
  exec r content lastIndex = Some m ->
  lastIndex <= index m /\ min_len r <= mlength m
  /\ index m + mlength m <= String.length content.
Proof.
  unfold exec. destruct (drop lastIndex content) as [s|] eqn:D; [|discriminate].
  intros H. apply find_match_bounds in H. apply drop_length in D. lia.
Qed.

(** A pattern whose matches are never empty moves [lastIndex] forward at
    every iteration, so the loop ends within [length content + 1] of them. *)
Lemma exec_loop_ends (r : regex) (content : string) :
  1 <= min_len r ->
  forall fuel lastIndex,
    String.length content - lastIndex < fuel ->
    exists ms, exec_loop fuel r content lastIndex = Some ms.
Proof.
  intros Hmin. induction fuel as [|fuel IH]; intros lastIndex Hfuel; [lia|].
  simpl. destruct (exec r content lastIndex) as [m|] eqn:E.
  - apply exec_bounds in E.
    destruct (IH (index m + mlength m)) as [ms Hms]; [lia|].
    rewrite Hms. eauto.
  - eauto.
Qed.

Lemma exec_all_ends (r : regex) (content : string) :
  1 <= min_len r -> exists ms, exec_all r content = Some ms.
Proof.
  intros H. unfold exec_all. apply exec_loop_ends; [exact H | lia].
Qed.

End RegexFacts.

(** ** The regex scan of the scanner *)

Module ScanFacts.
Import JsString Regex Scanner Notions RegexFacts.

Lemma forEach_exec_ends (patterns : list regex) (content : string) :
  Forall (fun p => 1 <= min_len p) patterns ->
  exists ms, forEach_exec patterns content = Some ms.
Proof.
  induction 1 as [|p ps Hp _ IH]; simpl; [eauto|].
  destruct (exec_all_ends p content Hp) as [ms ->].
  destruct IH as [rest ->]. eauto.
Qed.

Lemma functionPatterns_nonempty : Forall (fun p => 1 <= min_len p) functionPatterns.
Proof. unfold functionPatterns. repeat constructor; simpl; lia. Qed.

Lemma importPatterns_nonempty : Forall (fun p => 1 <= min_len p) importPatterns.
Proof. unfold importPatterns. repeat constructor; simpl; lia. Qed.

Lemma js_rules_ends (content : string) (a : Analysis) :
  exists fs cs ims,
    forEach_exec functionPatterns content = Some fs
    /\ exec_all classPattern content = Some cs
    /\ forEach_exec importPatterns content = Some ims
    /\ js_rules content a =
       Some (mkAnalysis (functions a ++ map (function_of content) fs)
                        (classes a ++ map (class_of content) cs)
                        (imports a ++ map (import_of content) ims)
                        (exports a) (variables a) (calls a)).
Proof.
  destruct (forEach_exec_ends functionPatterns content functionPatterns_nonempty) as [fs Hfs].
  destruct (exec_all_ends classPattern content) as [cs Hcs]; [simpl; lia|].
  destruct (forEach_exec_ends importPatterns content importPatterns_nonempty) as [ims Hims].
  exists fs, cs, ims. unfold js_rules. rewrite Hfs, Hcs, Hims. auto.
Qed.

Lemma py_rules_ends (content : string) (a : Analysis) :
  exists a', py_rules content a = Some a' /\ keeps_rest a a'.
Proof.
  destruct (exec_all_ends funcPattern content) as [fs Hfs]; [simpl; lia|].
  destruct (exec_all_ends classPattern content) as [cs Hcs]; [simpl; lia|].
  destruct (exec_all_ends importPattern content) as [ims Hims]; [simpl; lia|].
  unfold py_rules. rewrite Hfs, Hcs, Hims. eexists; split; [reflexivity|].
  repeat split.
Qed.

Lemma js_family_not_py (ext : string) :
  str_in ext js_family = true -> String.eqb ext "py" = false.
Proof.
  unfold str_in, js_family. simpl. rewrite !orb_true_iff.
  intros [H|[H|[H|[H|[H|H]]]]]; try discriminate;
    apply String.eqb_eq in H; subst; reflexivity.
Qed.

(** [fallbackAnalysis] returns, whatever the text; it fills neither
    [exports] nor [variables] nor [calls]. *)
Lemma fallbackAnalysis_ends (content : string) (f : SourceFile) :
  exists a, fallbackAnalysis content f = Some a
            /\ exports a = [] /\ variables a = [] /\ calls a = [].
Proof.
  unfold fallbackAnalysis.
  destruct (str_in (extension f) js_family) eqn:Hjs.
  - destruct (js_rules_ends content emptyAnalysis) as (fs & cs & ims & _ & _ & _ & ->).
    rewrite (js_family_not_py _ Hjs). eexists; split; [reflexivity|]. repeat split.
  - destruct (String.eqb (extension f) "py").
    + destruct (py_rules_ends content emptyAnalysis) as (a' & -> & He & Hv & Hc).
      exists a'. repeat split; assumption.
    + exists emptyAnalysis. repeat split.
Qed.

(** On a JavaScript-family file the functions are the matches of the five
    patterns, one record each. *)
Lemma fallbackAnalysis_js (content : string) (f : SourceFile) :
  str_in (extension f) js_family = true ->
  exists fs cs ims,
    forEach_exec functionPatterns content = Some fs
    /\ exec_all classPattern content = Some cs
    /\ forEach_exec importPatterns content = Some ims
    /\ fallbackAnalysis content f =
       Some (mkAnalysis (map (function_of content) fs) (map (class_of content) cs)
                        (map (import_of content) ims) [] [] []).
Proof.
  intros Hjs. unfold fallbackAnalysis. rewrite Hjs.
  destruct (js_rules_ends content emptyAnalysis) as (fs & cs & ims & Hfs & Hcs & Hims & ->).
  rewrite (js_family_not_py _ Hjs). exists fs, cs, ims. simpl. auto.
Qed.

Lemma parseFile_ends (env : Env) (f : SourceFile) :
  exists pf, parseFile env f = Some pf /\ file pf = f.
Proof.
  unfold parseFile. destruct (readFile env (path f)) as [content|]; [|eexists; split; reflexivity].
  destruct (treeSitterLoaded env && hasParser env (extension f)).
  - destruct (astAnalysis env content f); eexists; split; reflexivity.
  - destruct (fallbackAnalysis_ends content f) as (a & -> & _). eexists; split; reflexivity.
Qed.

Lemma parseFiles_ends (env : Env) (files : list SourceFile) :
  exists pfs, parseFiles env files = Some pfs
              /\ Forall2 (fun f pf => parseFile env f = Some pf) files pfs.
Proof.
  induction files as [|f rest IH]; simpl; [eauto|].
  destruct (parseFile_ends env f) as (pf & Hpf & _). rewrite Hpf.
  destruct IH as (pfs & -> & Hall). eauto.
Qed.

(** Without syntax-tree parsers every parsed file has an empty [exports]. *)
Lemma parseFile_regex_exports (env : Env) (f : SourceFile) (pf : ParsedFile) :
  treeSitterLoaded env = false ->
  parseFile env f = Some pf -> exports (analysis pf) = [].
Proof.
  unfold parseFile. intros -> H. simpl in H.
  destruct (readFile env (path f)) as [content|].
  - destruct (fallbackAnalysis_ends content f) as (a & E & He & _).
    rewrite E in H. inversion H; subst pf. exact He.
  - inversion H; subst pf. reflexivity.
Qed.

End ScanFacts.

(** ** Lists without repetition *)

Module DedupFacts.
Import JsString Scenarios Notions.

Lemma str_in_app (x : string) (l1 l2 : list string) :
  str_in x (l1 ++ l2) = str_in x l1 || str_in x l2.
Proof. unfold str_in. apply existsb_app. Qed.

Lemma str_in_In (x : string) (l : list string) : str_in x l = true <-> In x l.
Proof.
  unfold str_in. rewrite existsb_exists. split.
  - intros (y & Hy & E). apply String.eqb_eq in E. subst. exact Hy.
  - intros H. exists x. split; [exact H | apply String.eqb_refl].
Qed.

(** [first_occurrences seen l] repeats nothing and avoids [seen]. *)
Lemma first_occurrences_fresh (l : list string) :
  forall seen x, In x (first_occurrences seen l) -> In x l /\ ~ In x seen.
Proof.
  induction l as [|y l IH]; intros seen x H; simpl in H; [contradiction|].
  destruct (str_in y seen) eqn:E.
  - apply IH in H. simpl. tauto.
  - destruct H as [<-|H].
    + split; [left; reflexivity|]. intros Hin. apply str_in_In in Hin. congruence.
    + apply IH in H. simpl in H. simpl. tauto.
Qed.

Lemma first_occurrences_NoDup (l : list string) :
  forall seen, NoDup (first_occurrences seen l).
Proof.
  induction l as [|y l IH]; intros seen; simpl; [constructor|].
  destruct (str_in y seen); [apply IH|].
  constructor; [|apply IH].
  intros H. apply first_occurrences_fresh in H. simpl in H. tauto.
Qed.

Lemma first_occurrences_complete (l : list string) :
  forall seen x, In x l -> ~ In x seen -> In x (first_occurrences seen l).
Proof.
  induction l as [|y l IH]; intros seen x Hin Hseen; simpl in *; [contradiction|].
  destruct (str_in y seen) eqn:E.
  - destruct Hin as [->|Hin]; [apply str_in_In in E; contradiction | auto].
  - destruct (String.eqb_spec y x) as [->|Hne]; [left; reflexivity|].
    right. destruct Hin as [Hin|Hin]; [contradiction|].
    apply IH; [exact Hin|]. simpl. tauto.
Qed.

(** A loop that appends the key a line yields unless an item with that key
    is there already collects the first occurrences of the keys. *)
Section Dedup.
Context {A : Type} (key : A -> string) (make : string -> A) (pick : string -> option string).
Hypothesis key_make : forall n, key (make n) = n.

Lemma has_key_keys (n : string) (acc : list A) : has_key key n acc = str_in n (map key acc).
Proof.
  unfold has_key, str_in. induction acc as [|a acc IH]; simpl; [reflexivity|].
  rewrite IH, (String.eqb_sym (key a) n). reflexivity.
Qed.

Lemma dedup_fold (lines : list string) :
  forall acc seen,
    (forall x, str_in x seen = str_in x (map key acc)) ->
    map key (fold_left (dedup_step key make pick) lines acc)
    = map key acc ++ first_occurrences seen (keep_some (map pick lines)).
Proof.
  induction lines as [|line lines IH]; intros acc seen Hseen; simpl.
  - symmetry. apply app_nil_r.
  - unfold dedup_step at 2. destruct (pick line) as [n|]; simpl.
    + rewrite has_key_keys, <- Hseen. destruct (str_in n seen) eqn:E.
      * apply IH. exact Hseen.
      * rewrite (IH (acc ++ [make n]) (n :: seen)).
        -- rewrite map_app. simpl. rewrite key_make, <- app_assoc. reflexivity.
        -- intros x. rewrite map_app, str_in_app. simpl. rewrite key_make.
           unfold str_in at 1. simpl. fold (str_in x seen). rewrite Hseen.
           rewrite orb_false_r. apply orb_comm.
    + apply IH. exact Hseen.
Qed.
End Dedup.

Lemma fold_left_same {A B : Type} (f g : A -> B -> A) (l : list B) :
  (forall a x, f a x = g a x) -> forall a, fold_left f l a = fold_left g l a.
Proof.
  intros H. induction l as [|x l IH]; intros a; simpl; [reflexivity|].
  rewrite H. apply IH.
Qed.

Lemma existsb_eqb_sym (n : string) (l : list string) :
  existsb (fun a => String.eqb a n) l = existsb (String.eqb n) l.
Proof.
  induction l as [|a l IH]; simpl; [reflexivity|].
  rewrite IH, (String.eqb_sym a n). reflexivity.
Qed.

Lemma keep_some_In (x : string) (l : list (option string)) :
  In (Some x) l -> In x (keep_some l).
Proof.
  induction l as [|[y|] l IH]; simpl; [tauto| |].
  - intros [H|H]; [inversion H; left; reflexivity | right; auto].
  - intros [H|H]; [discriminate | auto].
Qed.

Lemma keep_some_Some (l : list string) : keep_some (map Some l) = l.
Proof. induction l as [|x l IH]; simpl; [reflexivity | rewrite IH; reflexivity]. Qed.

(** [new Set(items)] keeps the first occurrences, in order. *)
Lemma new_Set_first_occurrences (items : list string) :
  Scanner.new_Set items = first_occurrences [] items.
Proof.
  pose proof (dedup_fold (fun n : string => n) (fun n => n) Some (fun n => eq_refl)
                items [] [] (fun x => eq_refl)) as H.
  simpl in H. rewrite map_id, keep_some_Some in H. rewrite <- H.
  unfold Scanner.new_Set. apply fold_left_same. intros acc x.
  unfold Scanner.set_add, dedup_step, has_key, str_in.
  rewrite existsb_eqb_sym. reflexivity.
Qed.

End DedupFacts.

(** ** The duplicate checks of the upload-path extractor *)

Module ServerFacts.
Import JsString Regex Scenarios Notions DedupFacts Server.

Lemma fold_parse_line (lines : list string) :
  forall a,
    fold_left parse_line lines a
    = mkAnalysis (fold_left (fun fs line => add_function (trim line) fs) lines (functions a))
                 (fold_left (fun cs line => add_class (trim line) cs) lines (classes a))
                 (fold_left (fun ims line => add_import (trim line) ims) lines (imports a))
                 (fold_left (fun exs line => add_export (trim line) exs) lines (exports a)).
Proof.
  induction lines as [|line lines IH]; intros a; simpl.
  - destruct a; reflexivity.
  - rewrite IH. reflexivity.
Qed.

(** The function names of a text are the first occurrences of the names its
    lines yield. *)
Lemma function_names (content filename : string) :
  map name (functions (parseJavaScriptContent content filename))
  = first_occurrences [] (line_names function_name content).
Proof.
  unfold parseJavaScriptContent, line_names. rewrite fold_parse_line. simpl.
  pose proof (dedup_fold name (fun n => mkNamed n "function")
                (fun line => function_name (trim line)) (fun n => eq_refl)
                (split newline content) [] [] (fun x => eq_refl)) as H.
  simpl in H. rewrite <- H. reflexivity.
Qed.


Lemma export_names (content filename : string) :
  exports (parseJavaScriptContent content filename)
  = first_occurrences [] (line_names export_name content).
Proof.
  unfold parseJavaScriptContent, line_names. rewrite fold_parse_line. simpl.
  pose proof (dedup_fold (fun n : string => n) (fun n => n)
                (fun line => export_name (trim line)) (fun n => eq_refl)
                (split newline content) [] [] (fun x => eq_refl)) as H.
  simpl in H. rewrite map_id in H. rewrite <- H.
  unfold add_export, dedup_step, has_key, str_in.
  apply fold_left_same. intros exs line.
  destruct (export_name (trim line)) as [n|]; [|reflexivity].
  rewrite existsb_eqb_sym. reflexivity.
Qed.


End ServerFacts.

(** ** The dependency graph *)

Module GraphFacts.
Import JsString Scanner Notions.

Section AnyPath.
Context {P : PathApi}.

Lemma resolveImportPath_relative (module : string) (f : SourceFile) :
  resolveImportPath module f
  = if is_relative module then Some (resolve (dirname (path f)) module) else None.
Proof. reflexivity. Qed.

Lemma truthy_nonempty (s : string) : truthy (Some s) = true <-> s <> EmptyString.
Proof. destruct s; simpl; split; intros H; congruence. Qed.

(** The edges one file contributes. *)
Lemma edges_of_iff (pf : ParsedFile) (e : Edge) :
  In e (edges_of pf) <->
  exists imp,
    In imp (imports (analysis pf))
    /\ is_relative (imp_module imp) = true
    /\ resolved pf imp <> EmptyString
    /\ e = mkEdge (relativePath (file pf)) (resolved pf imp) "import" 1.
Proof.
  unfold edges_of. rewrite in_flat_map. split.
  - intros (imp & Hin & He). exists imp. split; [exact Hin|].
    rewrite resolveImportPath_relative in He.
    destruct (is_relative (imp_module imp)); [|contradiction].
    fold (resolved pf imp) in He.
    destruct (truthy (Some (resolved pf imp))) eqn:T; [|contradiction].
    apply truthy_nonempty in T. destruct He as [<-|[]]. auto.
  - intros (imp & Hin & Hrel & Hne & ->). exists imp. split; [exact Hin|].
    rewrite resolveImportPath_relative, Hrel. fold (resolved pf imp).
    apply truthy_nonempty in Hne. rewrite Hne. left; reflexivity.
Qed.

Lemma graph_edges_iff (files : list ParsedFile) (e : Edge) :
  In e (edges (buildDependencyGraph files)) <->
  exists pf imp,
    In pf files
    /\ In imp (imports (analysis pf))
    /\ is_relative (imp_module imp) = true
    /\ resolved pf imp <> EmptyString
    /\ e = mkEdge (relativePath (file pf)) (resolved pf imp) "import" 1.
Proof.
  simpl. rewrite in_flat_map. split.
  - intros (pf & Hpf & He). apply edges_of_iff in He.
    destruct He as (imp & H). exists pf, imp. tauto.
  - intros (pf & imp & Hpf & H). exists pf. split; [exact Hpf|].
    apply edges_of_iff. exists imp. exact H.
Qed.

Lemma node_ids (files : list ParsedFile) :
  map id (nodes (buildDependencyGraph files)) = map (fun pf => relativePath (file pf)) files.
Proof. simpl. rewrite map_map. reflexivity. Qed.
End AnyPath.

(** On POSIX, with an absolute working directory, [path.resolve] returns an
    absolute path. *)
Lemma resolve_loop_absolute (cwd : string) :
  Posix.isAbsolute cwd = true ->
  forall args acc, snd (Posix.resolve_loop (args ++ [cwd]) acc) = true.
Proof.
  intros Hcwd. induction args as [|p args IH]; intros acc; simpl.
  - destruct cwd as [|c cwd]; [discriminate|]. simpl. rewrite Hcwd. reflexivity.
  - destruct (String.eqb p EmptyString); [apply IH|].
    destruct (Posix.isAbsolute p); [reflexivity | apply IH].
Qed.

Lemma resolve_args_absolute (cwd : string) (args : list string) :
  Posix.isAbsolute cwd = true ->
  Posix.isAbsolute (Posix.resolve_args cwd args) = true.
Proof.
  intros Hcwd. unfold Posix.resolve_args. simpl rev.
  pose proof (resolve_loop_absolute cwd Hcwd (rev args) EmptyString) as H.
  destruct (Posix.resolve_loop (rev args ++ [cwd]) EmptyString) as [rp abs].
  simpl in H. subst abs. unfold Posix.isAbsolute, startsWith. simpl.
  destruct (Posix.normalizeString rp false); reflexivity.
Qed.

End GraphFacts.

(** ** Scores and metrics *)

Module MetricFacts.
Import JsString Scanner Scenarios.

Lemma count_nonneg (n : nat) : (0 <= count n)%Q.
Proof.
  unfold count. replace 0%Q with (inject_Z 0) by reflexivity.
  rewrite <- Zle_Qle. lia.
Qed.

Lemma fold_left_add_lines (files : list ParsedFile) :
  forall acc, fold_left (fun sum f => sum + lineCount f) files acc
              = acc + sum_nat (map lineCount files).
Proof.
  induction files as [|f files IH]; intros acc; simpl; [lia|].
  rewrite IH. lia.
Qed.

(** [Math.round] picks the integer within one half, halves upwards. *)
Lemma Math_round_nearest (x : Q) :
  exists z : Z,
    Math_round x = inject_Z z
    /\ (x - (1 # 2) < inject_Z z)%Q /\ (inject_Z z <= x + (1 # 2))%Q.
Proof.
  exists (Qfloor (x + (1 # 2))). split; [reflexivity|]. split.
  - pose proof (Qlt_floor (x + (1 # 2))) as H.
    rewrite inject_Z_plus in H. simpl inject_Z in H.
    apply Qplus_lt_l with (z := 1%Q).
    setoid_replace (x - (1 # 2) + 1)%Q with (x + (1 # 2))%Q by ring. exact H.
  - apply Qfloor_le.
Qed.

End MetricFacts.

(** ** Scores in double arithmetic *)

Module ScoreFacts.
Import JsString Scanner Scenarios ScoreNotions Double DoubleFacts.
Local Open Scope Q_scope.

Lemma count_Z (n : nat) : count n = inject_Z (Z.of_nat n).
Proof. reflexivity. Qed.

Lemma count_add (n m : nat) : count (n + m) == count n + count m.
Proof. unfold count. rewrite Nat2Z.inj_add, inject_Z_plus. reflexivity. Qed.

Lemma count_le (n : nat) (b : Z) : (Z.of_nat n < b)%Z -> count n <= inject_Z b.
Proof. intros H. unfold count. rewrite <- Zle_Qle. lia. Qed.

(** The double the literal [0.1] is. *)
Lemma tenth : fl (1 # 10) == 3602879701896397 # 36028797018963968.
Proof. vm_compute. reflexivity. Qed.

(** Functions and classes are counted exactly. *)
Lemma whole_part (F C : nat) :
  (Z.of_nat F + 2 * Z.of_nat C < 2 ^ 53)%Z ->
  fl (count F + fl (count C * 2)) == count F + 2 * count C.
Proof.
  intros H.
  assert (H2 : count C * 2 == inject_Z (Z.of_nat C * 2)).
  { unfold count. rewrite inject_Z_mult. reflexivity. }
  rewrite H2, fl_int by lia.
  assert (H3 : count F + inject_Z (Z.of_nat C * 2) == inject_Z (Z.of_nat F + Z.of_nat C * 2)).
  { unfold count. rewrite inject_Z_plus. reflexivity. }
  rewrite H3, fl_int by lia.
  unfold count. rewrite inject_Z_plus, inject_Z_mult. ring.
Qed.

(** Without call sites the score is the whole number the formula gives. *)
Lemma complexity_exact (a : Analysis) :
  calls a = [] ->
  (Z.of_nat (length (functions a)) + 2 * Z.of_nat (length (classes a)) < 2 ^ 53)%Z ->
  calculateComplexity a == count (length (functions a) + 2 * length (classes a)).
Proof.
  intros Hc H. unfold calculateComplexity, add, mul. rewrite Hc. simpl length.
  rewrite (whole_part _ _ H).
  assert (H0 : count 0 * fl (1 # 10) == 0) by (unfold count; simpl; ring).
  rewrite H0. rewrite fl_0.
  assert (H1 : count (length (functions a)) + 2 * count (length (classes a)) + 0
               == inject_Z (Z.of_nat (length (functions a))
                            + 2 * Z.of_nat (length (classes a)))).
  { unfold count. rewrite inject_Z_plus, inject_Z_mult. ring. }
  rewrite H1, fl_int by lia.
  unfold count. rewrite Nat2Z.inj_add, Nat2Z.inj_mul. reflexivity.
Qed.

(** With call sites it is the formula up to the roundings. *)
Lemma complexity_close (a : Analysis) :
  (Z.of_nat (length (functions a)) + 2 * Z.of_nat (length (classes a)) < 2 ^ 53)%Z ->
  stated_score a * (1 - slack) <= calculateComplexity a
  /\ calculateComplexity a <= stated_score a * (1 + slack).
Proof.
  intros H. unfold stated_score, slack.
  pose proof (MetricFacts.count_nonneg (length (functions a))) as Hf.
  pose proof (MetricFacts.count_nonneg (length (classes a))) as Hcl.
  destruct (calls a) as [|c0 rest] eqn:Ek.
  - rewrite (complexity_exact a Ek H). simpl length.
    rewrite count_add.
    assert (E2 : count (2 * length (classes a)) == 2 * count (length (classes a))).
    { unfold count. rewrite Nat2Z.inj_mul, inject_Z_mult. reflexivity. }
    rewrite E2.
    assert (E0 : count 0 == 0) by reflexivity. rewrite E0.
    split; lra.
  - unfold calculateComplexity, add, mul. rewrite Ek.
    set (k := count (length (c0 :: rest))).
    assert (Hk : 1 <= k).
    { unfold k, count. change 1 with (inject_Z 1). rewrite <- Zle_Qle. simpl length. lia. }
    rewrite (whole_part _ _ H).
    set (f := count (length (functions a))) in *.
    set (c := count (length (classes a))) in *.
    rewrite tenth.
    assert (Hp0 : 0 <= k * (3602879701896397 # 36028797018963968)).
    { apply Qmult_le_0_compat; [lra | discriminate]. }
    destruct (fl_bounds _ Hp0) as [P1 P2].
    pose proof (fl_nonneg _ Hp0) as P0.
    set (p := fl (k * (3602879701896397 # 36028797018963968))) in *.
    assert (Hs0 : 0 <= f + 2 * c + p) by lra.
    destruct (fl_bounds _ Hs0) as [S1 S2].
    set (s := fl (f + 2 * c + p)) in *.
    split; lra.
Qed.

(** The counts of an array-sized analysis, as rationals. *)
Lemma array_sized_bounds (a : Analysis) :
  array_sized a ->
  count (length (functions a)) <= 4294967296
  /\ count (length (classes a)) <= 4294967296
  /\ count (length (calls a)) <= 4294967296.
Proof.
  intros (H1 & H2 & H3). unfold array_length in *.
  repeat split; apply (count_le _ (2 ^ 32)); assumption.
Qed.

Lemma stated_push_function (fn : FunctionInfo) (a : Analysis) :
  stated_score (push_function fn a) == stated_score a + 1.
Proof.
  unfold stated_score, push_function. simpl. rewrite length_app. simpl length.
  rewrite count_add. change (count 1) with 1. ring.
Qed.

Lemma stated_push_class (cls : ClassInfo) (a : Analysis) :
  stated_score (push_class cls a) == stated_score a + 2.
Proof.
  unfold stated_score, push_class. simpl. rewrite length_app. simpl length.
  rewrite count_add. change (count 1) with 1. ring.
Qed.

(** Whole scores, one by one. *)
Lemma whole_scores_list (files : list ParsedFile) :
  whole_scores files ->
  exists ks : list nat, Forall2 (fun pf k => complexity pf == count k) files ks.
Proof.
  induction 1 as [|pf files [k Hk] _ [ks IH]].
  - exists nil. constructor.
  - exists (k :: ks). constructor; assumption.
Qed.

Lemma sum_whole (files : list ParsedFile) (ks : list nat) :
  Forall2 (fun pf k => complexity pf == count k) files ks ->
  sum_Q (map complexity files) == count (list_sum ks).
Proof.
  induction 1 as [|pf k files ks Hk _ IH]; [reflexivity|].
  simpl. rewrite count_add, <- IH, Hk. reflexivity.
Qed.

(** The sum of whole scores is computed exactly. *)
Lemma fold_whole (files : list ParsedFile) (ks : list nat) :
  Forall2 (fun pf k => complexity pf == count k) files ks ->
  forall (A : nat) (acc : Q),
    (Z.of_nat (A + list_sum ks) < 2 ^ 53)%Z ->
    acc == count A ->
    fold_left (fun sum f => add sum (complexity f)) files acc == count (A + list_sum ks).
Proof.
  induction 1 as [|pf k files ks Hk _ IH]; intros A acc Hb Hacc.
  - simpl. rewrite Nat.add_0_r. exact Hacc.
  - simpl fold_left. simpl list_sum in *.
    rewrite (IH (A + k)%nat).
    + rewrite Nat.add_assoc. reflexivity.
    + rewrite <- Nat.add_assoc. exact Hb.
    + unfold add. rewrite Hacc, Hk, <- count_add. unfold count.
      apply fl_int. lia.
Qed.

(** [Math.round(avg * 100)] for the mean of whole scores: the number of
    hundredths nearest to the mean. *)
Lemma hundredths (T N : Z) :
  (0 <= T <= 2 ^ 40)%Z -> (1 <= N < 2 ^ 32)%Z ->
  inject_Z T / inject_Z N * 100 - (1 # 2)
  <= inject_Z (Qfloor (fl (fl (inject_Z T / inject_Z N) * 100) + (1 # 2)))
  /\ inject_Z (Qfloor (fl (fl (inject_Z T / inject_Z N) * 100) + (1 # 2)))
     <= inject_Z T / inject_Z N * 100 + (1 # 2).
Proof.
  intros [HT0 HT1] [HN0 HN1].
  set (tq := inject_Z T). set (nq := inject_Z N).
  assert (Ht0 : 0 <= tq) by (unfold tq; change 0 with (inject_Z 0); rewrite <- Zle_Qle; lia).
  assert (Ht1 : tq <= 1099511627776).
  { unfold tq. change 1099511627776 with (inject_Z (2 ^ 40)). rewrite <- Zle_Qle. lia. }
  assert (Hn0 : 1 <= nq) by (unfold nq; change 1 with (inject_Z 1); rewrite <- Zle_Qle; lia).
  assert (Hn1 : nq <= 4294967296).
  { unfold nq. change 4294967296 with (inject_Z (2 ^ 32)). rewrite <- Zle_Qle. lia. }
  set (q := tq / nq).
  assert (Hq : q * nq == tq) by (unfold q; field; lra).
  assert (Hq0 : 0 <= q).
  { unfold q. apply Qle_shift_div_l; lra. }
  destruct (fl_bounds q Hq0) as [A1 A2]. pose proof (fl_nonneg q Hq0) as A0.
  set (avg := fl q) in *.
  assert (Hv0 : 0 <= avg * 100) by lra.
  destruct (fl_bounds _ Hv0) as [B1 B2].
  set (v := fl (avg * 100)) in *.
  pose proof (Qfloor_le (v + (1 # 2))) as Z1.
  pose proof (Qlt_floor (v + (1 # 2))) as Z2.
  rewrite inject_Z_plus in Z2. change (inject_Z 1) with 1 in Z2.
  set (z := Qfloor (v + (1 # 2))) in *.
  set (zq := inject_Z z) in *.
  assert (Hzn : inject_Z (z * N) == zq * nq) by (unfold zq, nq; rewrite inject_Z_mult; reflexivity).
  (* the distance from [100 T / N] to [z], counted in [1 / (2 N)] *)
  destruct (Z_lt_le_dec N (200 * T - 2 * (z * N))) as [Hhi|Hhi].
  { (* [z] too small: impossible *)
    exfalso.
    assert (Hd : nq + 1 + 2 * (zq * nq) <= 200 * tq).
    { rewrite <- Hzn. unfold nq, tq.
      change 1 with (inject_Z 1). change 2 with (inject_Z 2). change 200 with (inject_Z 200).
      rewrite <- !inject_Z_mult, <- !inject_Z_plus, <- Zle_Qle. lia. }
    assert (P : 0 < (zq - (100 * ((q * (1 - (1 # 9007199254740992))
                                  - (1 # 1606938044258990275541962092341162602522202993782792835301376))
                                  * (1 - (1 # 9007199254740992)))
                           - (1 # 1606938044258990275541962092341162602522202993782792835301376)
                           - (1 # 2))) * nq).
    { apply Qmult_lt_0_compat; lra. }
    lra. }
  destruct (Z_lt_le_dec (200 * T - 2 * (z * N)) (- N)) as [Hlo|Hlo].
  { (* [z] too large: impossible *)
    exfalso.
    assert (Hd : 200 * tq + nq + 1 <= 2 * (zq * nq)).
    { rewrite <- Hzn. unfold nq, tq.
      change 1 with (inject_Z 1). change 2 with (inject_Z 2). change 200 with (inject_Z 200).
      rewrite <- !inject_Z_mult, <- !inject_Z_plus, <- Zle_Qle. lia. }
    assert (P : 0 <= (100 * ((q * (1 + (1 # 9007199254740992))
                              + (1 # 1606938044258990275541962092341162602522202993782792835301376))
                             * (1 + (1 # 9007199254740992)))
                      + (1 # 1606938044258990275541962092341162602522202993782792835301376)
                      + (1 # 2) - zq) * nq).
    { apply Qmult_le_0_compat; lra. }
    lra. }
  assert (Hd1 : 200 * tq <= nq + 2 * (zq * nq)).
  { rewrite <- Hzn. unfold nq, tq.
    change 2 with (inject_Z 2). change 200 with (inject_Z 200).
    rewrite <- !inject_Z_mult, <- !inject_Z_plus, <- Zle_Qle. lia. }
  assert (Hd2 : 2 * (zq * nq) <= 200 * tq + nq).
  { rewrite <- Hzn. unfold nq, tq.
    change 2 with (inject_Z 2). change 200 with (inject_Z 200).
    rewrite <- !inject_Z_mult, <- !inject_Z_plus, <- Zle_Qle. lia. }
  split.
  - apply Qnot_lt_le. intros Hc.
    assert (P : 0 < (q * 100 - (1 # 2) - zq) * nq) by (apply Qmult_lt_0_compat; lra).
    lra.
  - apply Qnot_lt_le. intros Hc.
    assert (P : 0 < (zq - (q * 100 + (1 # 2))) * nq) by (apply Qmult_lt_0_compat; lra).
    lra.
Qed.

End ScoreFacts.

(** ** The detectors *)

Module DetectFacts.
Import JsString Scanner Scenarios.

(** No character is lowered to a capital [E]. *)
Lemma lower_char_not_E (c : ascii) : lower_char c <> "E"%char.
Proof.
  destruct c as [[] [] [] [] [] [] [] []]; vm_compute; discriminate.
Qed.

(** So no lowered name is [addEventListener]. *)
Lemma toLowerCase_not_addEventListener (s : string) :
  toLowerCase s <> "addEventListener".
Proof.
  destruct s as [|c1 [|c2 [|c3 [|c4 s]]]]; simpl; try discriminate.
  intros H. inversion H as [[H1 H2 H3 H4 Hrest]].
  exact (lower_char_not_E c4 H4).
Qed.

Lemma is_observer_iff (fn : FunctionInfo) :
  is_observer fn = true
  <-> In (toLowerCase (fn_name fn)) ["subscribe"; "unsubscribe"; "notify"].
Proof.
  unfold is_observer, observerNames, str_in. simpl.
  rewrite !orb_true_iff, !String.eqb_eq. split.
  - intros [H|[H|[H|[H|H]]]]; auto; try discriminate.
    exfalso. exact (toLowerCase_not_addEventListener _ H).
  - intros [H|[H|[H|[]]]]; auto.
Qed.

Lemma existsb_positive_length {A B : Type} (seq : A -> list B) (l : list A) :
  existsb (fun x => 0 <? length (seq x)) l = true <-> exists x, In x l /\ seq x <> [].
Proof.
  rewrite existsb_exists. split; intros (x & Hin & H); exists x; split; auto.
  - apply Nat.ltb_lt in H. destruct (seq x); [simpl in H; lia | discriminate].
  - apply Nat.ltb_lt. destruct (seq x); [contradiction | simpl; lia].
Qed.

(** A scan without syntax-tree parsers yields files without exports, so the
    module detector cannot fire on it. *)
Lemma regex_scan_no_exports (env : Env) (files : list SourceFile) :
  treeSitterLoaded env = false ->
  forall pfs, parseFiles env files = Some pfs ->
              Forall (fun pf => exports (analysis pf) = []) pfs.
Proof.
  intros Hts. induction files as [|f files IH]; intros pfs H; simpl in H.
  - inversion H. constructor.
  - destruct (parseFile env f) as [pf|] eqn:Epf; [|discriminate].
    destruct (parseFiles env files) as [rest|]; [|discriminate].
    inversion H; subst pfs. constructor; [|apply IH; reflexivity].
    exact (ScanFacts.parseFile_regex_exports env f pf Hts Epf).
Qed.

End DetectFacts.

(** * The claims *)

Import JsString Regex Scanner Scenarios ScoreNotions DoubleFacts.

(** ** C1: extraction never raises; failures degrade to an empty result *)

(** C1, as stated, fails: the result of extraction on the empty text holds six
    sequences (functions, classes, imports, exports, variables, calls), not
    exactly four. *)
Lemma fallbackAnalysis_returns_six_sequences :
  exists a,
    fallbackAnalysis EmptyString app_js = Some a
    /\ map fst (sequences a)
       = ["functions"; "classes"; "imports"; "exports"; "variables"; "calls"]
    /\ length (sequences a) <> 4.
Proof.
  exists emptyAnalysis. split; [vm_compute; reflexivity|].
  split; [reflexivity | simpl; lia].
Qed.

(** C1, amended: for every input text [fallbackAnalysis] returns (its scan
    loops end, nothing is raised) a result with the six sequences functions,
    classes, imports, exports, variables and calls, each possibly empty;
    [parseFiles] returns one entry per input file, in order, whatever happens
    to a single file; a file that cannot be read, or whose syntax-tree
    analysis throws, receives the all-empty result (six empty sequences, line
    count 0, complexity 0) and the scan goes on with the remaining files.
    Exactly four sequences (functions, classes, imports, exports) is the
    shape of the upload-path extractor's result. *)
Theorem extraction_total_and_failures_recovered :
  (forall content f, exists a,
      fallbackAnalysis content f = Some a
      /\ map fst (sequences a)
         = ["functions"; "classes"; "imports"; "exports"; "variables"; "calls"])
  /\ (forall content filename,
         map fst (Server.sequences (Server.parseJavaScriptContent content filename))
         = ["functions"; "classes"; "imports"; "exports"])
  /\ (forall env files, exists pfs,
         parseFiles env files = Some pfs
         /\ map file pfs = files
         /\ Forall2 (fun f pf => parseFile env f = Some pf) files pfs)
  /\ (forall env f, readFile env (path f) = Threw -> parseFile env f = Some (failed f))
  /\ (forall env f content,
         readFile env (path f) = Ok content ->
         treeSitterLoaded env && hasParser env (extension f) = true ->
         astAnalysis env content f = Threw ->
         parseFile env f = Some (failed f))
  /\ (forall f,
         analysis (failed f) = emptyAnalysis
         /\ map snd (sequences (analysis (failed f))) = [0; 0; 0; 0; 0; 0]
         /\ lineCount (failed f) = 0
         /\ complexity (failed f) = 0%Q).
Proof.
  split; [|split; [|split; [|split; [|split]]]].
  - intros content f. destruct (ScanFacts.fallbackAnalysis_ends content f) as (a & Ha & _).
    exists a. split; [exact Ha | reflexivity].
  - intros content filename. reflexivity.
  - intros env files. destruct (ScanFacts.parseFiles_ends env files) as (pfs & Hpfs & Hall).
    exists pfs. split; [exact Hpfs|]. split; [|exact Hall].
    clear Hpfs. induction Hall as [|f pf files pfs Hpf _ IH]; simpl; [reflexivity|].
    destruct (ScanFacts.parseFile_ends env f) as (pf' & Hpf' & Hfile).
    rewrite Hpf in Hpf'. inversion Hpf'; subst pf'. rewrite Hfile, IH. reflexivity.
  - intros env f H. unfold parseFile. rewrite H. reflexivity.
  - intros env f content Hread Hts Hast. unfold parseFile. rewrite Hread, Hts, Hast. reflexivity.
  - intros f. repeat split.
Qed.

(** A file that is not on the disk cannot be read: it gets the all-empty
    result, and the scan of the three files still gives three entries. *)
Lemma unreadable_file_gets_empty_result :
  readFile (regex_env ab_disk) (path app_js) = Threw
  /\ parseFile (regex_env ab_disk) app_js = Some (failed app_js)
  /\ option_map (map (fun pf => (relativePath (file pf), lineCount pf)))
                (parseFiles (regex_env ab_disk) [app_js; a_js; b_js])
     = Some [("app.js", 0); ("a.js", 2); ("b.js", 1)].
Proof.
  split; [reflexivity|].
  split; [|vm_compute; reflexivity].
  apply (proj1 (proj2 (proj2 (proj2 extraction_total_and_failures_recovered)))).
  reflexivity.
Defined.

(** ** C2: duplicate function names *)

(** C2, as stated, fails: on [function foo(){} function foo(){}] in a [.js]
    file the scanner records two functions named [foo]. *)
Lemma fallbackAnalysis_keeps_duplicate_names :
  exists a,
    fallbackAnalysis twice_foo app_js = Some a
    /\ map fn_name (functions a) = ["foo"; "foo"]
    /\ ~ NoDup (map fn_name (functions a)).
Proof.
  eexists. split; [vm_compute; reflexivity|]. split; [reflexivity|].
  simpl. intros H. inversion H as [|x l Hnotin _]; subst. apply Hnotin. left; reflexivity.
Qed.

(** C2, amended: in the repository scanner every match of a function pattern
    contributes one record and none is discarded, so on
    [function foo(){} function foo(){}] it yields exactly two records named
    [foo].  At most one record per captured name, first occurrence first, is
    what the upload-path extractor [parseJavaScriptContent] keeps: for every
    text its function names are pairwise distinct, and on that text it yields
    exactly one function named [foo]. *)
Theorem function_names_per_match_or_per_name :
  (forall content f,
      str_in (extension f) js_family = true ->
      exists ms a,
        forEach_exec functionPatterns content = Some ms
        /\ fallbackAnalysis content f = Some a
        /\ functions a = map (function_of content) ms)
  /\ (exists a,
         fallbackAnalysis twice_foo app_js = Some a
         /\ map fn_name (functions a) = ["foo"; "foo"])
  /\ (forall content filename,
         let names := map Server.name
                          (Server.functions (Server.parseJavaScriptContent content filename)) in
         NoDup names
         /\ names = first_occurrences [] (line_names Server.function_name content))
  /\ map Server.name (Server.functions (Server.parseJavaScriptContent twice_foo "app.js"))
     = ["foo"].
Proof.
  split; [|split; [|split]].
  - intros content f Hjs.
    destruct (ScanFacts.fallbackAnalysis_js content f Hjs) as (fs & cs & ims & Hfs & _ & _ & Ha).
    exists fs. eexists. split; [exact Hfs|]. split; [exact Ha | reflexivity].
  - eexists. split; [vm_compute; reflexivity | reflexivity].
  - intros content filename names. subst names.
    rewrite ServerFacts.function_names.
    split; [apply DedupFacts.first_occurrences_NoDup | reflexivity].
  - vm_compute. reflexivity.
Qed.

(** [app.js] is a JavaScript-family file: its functions are the matches. *)
Lemma app_js_functions_are_the_matches :
  str_in (extension app_js) js_family = true
  /\ exists ms a,
       forEach_exec functionPatterns twice_foo = Some ms
       /\ fallbackAnalysis twice_foo app_js = Some a
       /\ functions a = map (function_of twice_foo) ms.
Proof.
  split; [reflexivity|].
  apply (proj1 function_names_per_match_or_per_name). reflexivity.
Defined.

(** ** C3: what the edges of the graph refer to *)

(** C3, as stated, fails: with [a.js] importing [./b] and [b.js] in the set,
    the one edge has the target [/repo/b], which is the id of no node. *)
Lemma edge_target_is_not_a_node_id :
  exists e,
    In e (edges (@buildDependencyGraph (Posix.posix "/repo") ab_parsed))
    /\ source e = "a.js"
    /\ target e = "/repo/b"
    /\ map id (nodes (@buildDependencyGraph (Posix.posix "/repo") ab_parsed)) = ["a.js"; "b.js"]
    /\ ~ In (target e) (map id (nodes (@buildDependencyGraph (Posix.posix "/repo") ab_parsed))).
Proof.
  exists (mkEdge "a.js" "/repo/b" "import" 1).
  split; [vm_compute; left; reflexivity|].
  split; [reflexivity|]. split; [reflexivity|]. split; [vm_compute; reflexivity|].
  vm_compute. intros [H|[H|[]]]; discriminate.
Qed.

(** C3, amended: every edge's source is the id of a node of the graph.  An
    edge is emitted for every recorded import whose specifier begins with
    [./] or [../] (and resolves to a non-empty string); its target is the
    specifier resolved against the importing file's directory, whether or not
    that path is the path of a scanned file.  On POSIX the target is an
    absolute path. *)
Theorem edges_source_is_node_target_is_resolved_path :
  (forall (P : PathApi) (files : list ParsedFile) (e : Edge),
      In e (edges (buildDependencyGraph files)) <->
      exists pf imp,
        In pf files
        /\ In imp (imports (analysis pf))
        /\ (startsWith (imp_module imp) "./" || startsWith (imp_module imp) "../") = true
        /\ resolve (dirname (path (file pf))) (imp_module imp) <> EmptyString
        /\ e = mkEdge (relativePath (file pf))
                      (resolve (dirname (path (file pf))) (imp_module imp)) "import" 1)
  /\ (forall (P : PathApi) (files : list ParsedFile) (e : Edge),
         In e (edges (buildDependencyGraph files)) ->
         In (source e) (map id (nodes (buildDependencyGraph files))))
  /\ (forall (cwd : string) (files : list ParsedFile) (e : Edge),
         Posix.isAbsolute cwd = true ->
         In e (edges (@buildDependencyGraph (Posix.posix cwd) files)) ->
         startsWith (target e) "/" = true).
Proof.
  split; [|split].
  - intros P files e. apply GraphFacts.graph_edges_iff.
  - intros P files e H. apply GraphFacts.graph_edges_iff in H.
    destruct H as (pf & imp & Hpf & _ & _ & _ & ->).
    rewrite GraphFacts.node_ids. simpl.
    apply in_map with (f := fun pf => relativePath (file pf)). exact Hpf.
  - intros cwd files e Hcwd H. apply GraphFacts.graph_edges_iff in H.
    destruct H as (pf & imp & _ & _ & _ & _ & ->). simpl.
    apply (GraphFacts.resolve_args_absolute cwd _ Hcwd).
Qed.

(** The edge of scenario C has its source among the node ids. *)
Lemma scenario_edge_source_is_a_node :
  In (mkEdge "a.js" "/repo/b" "import" 1)
     (edges (@buildDependencyGraph (Posix.posix "/repo") ab_parsed))
  /\ In "a.js" (map id (nodes (@buildDependencyGraph (Posix.posix "/repo") ab_parsed))).
Proof.
  assert (H : In (mkEdge "a.js" "/repo/b" "import" 1)
                 (edges (@buildDependencyGraph (Posix.posix "/repo") ab_parsed)))
    by (vm_compute; left; reflexivity).
  split; [exact H|].
  exact (proj1 (proj2 edges_source_is_node_target_is_resolved_path)
               (Posix.posix "/repo") ab_parsed _ H).
Defined.

(** ** C4: the edge of a relative import, and bare imports *)

(** C4, as stated, fails: with [a.js] importing [./b] and [b.js] in the set,
    the graph has no edge from [a.js] to [b.js]; its only edge goes from
    [a.js] to [/repo/b]. *)
Lemma no_edge_from_a_js_to_b_js :
  edges (@buildDependencyGraph (Posix.posix "/repo") ab_parsed)
  = [mkEdge "a.js" "/repo/b" "import" 1]
  /\ existsb (fun e => String.eqb (source e) "a.js" && String.eqb (target e) "b.js")
             (edges (@buildDependencyGraph (Posix.posix "/repo") ab_parsed))
     = false.
Proof. split; vm_compute; reflexivity. Qed.

(** C4, amended: for the input set with [/repo/a.js], whose imports are
    [./b] and [lodash], and [/repo/b.js], the built graph contains exactly
    one edge; its source is [a.js] and its target is the resolved path
    [/repo/b].  For every file, an import whose specifier begins with neither
    [./] nor [../], such as [lodash], produces no edge. *)
Theorem relative_import_one_edge_bare_import_none :
  (map imp_module (flat_map (fun pf => imports (analysis pf)) ab_parsed) = ["./b"; "lodash"])
  /\ (forall cwd,
         edges (@buildDependencyGraph (Posix.posix cwd) ab_parsed)
         = [mkEdge "a.js" "/repo/b" "import" 1])
  /\ (forall (P : PathApi) (module : string) (f : SourceFile),
         startsWith module "./" = false ->
         startsWith module "../" = false ->
         resolveImportPath module f = None)
  /\ (forall (P : PathApi) (pf : ParsedFile),
         Forall (fun imp => startsWith (imp_module imp) "./" = false
                            /\ startsWith (imp_module imp) "../" = false)
                (imports (analysis pf)) ->
         edges_of pf = [])
  /\ (forall (P : PathApi) (f : SourceFile), resolveImportPath "lodash" f = None).
Proof.
  split; [vm_compute; reflexivity|].
  split; [intros cwd; vm_compute; reflexivity|].
  split; [|split].
  - intros P module f H1 H2. unfold resolveImportPath. rewrite H1, H2. reflexivity.
  - intros P pf Hall. unfold edges_of.
    induction Hall as [|imp imps [H1 H2] _ IH]; simpl; [reflexivity|].
    unfold resolveImportPath at 1. rewrite H1, H2. simpl. exact IH.
  - intros P f. reflexivity.
Qed.

(** [lodash] begins with neither [./] nor [../]: it resolves to nothing. *)
Lemma bare_lodash_resolves_to_nothing :
  startsWith "lodash" "./" = false
  /\ startsWith "lodash" "../" = false
  /\ @resolveImportPath (Posix.posix "/repo") "lodash" a_js = None.
Proof.
  split; [reflexivity|]. split; [reflexivity|].
  apply (proj1 (proj2 (proj2 relative_import_one_edge_bare_import_none)));
    reflexivity.
Defined.

(** ** C5: the MVC detector *)

(** C5: the detector reports [detected] iff some file matches the heuristic
    of each of the three categories, with confidence the number of categories
    present over three (the quotient as a double).  The heuristic asks for
    [/models/], [/views/] and [/controllers/] inside the relative path, so the
    files [models/user.js],
    [views/home.js] and [controllers/home.js], whose directories stand at the
    start of the path, match nothing: [detected] is false and the confidence
    is 0, where the claim says true and 1.  One directory down
    ([src/models/user.js], ...) the verdict is true with confidence 1. *)
Theorem detectMVCPattern_misses_top_level_directories :
  (forall files,
      let v := detectMVCPattern files in
      (detected v = true <->
       (exists f, In f files /\ mvc_match "model" "/models/" f = true)
       /\ (exists f, In f files /\ mvc_match "view" "/views/" f = true)
       /\ (exists f, In f files /\ mvc_match "controller" "/controllers/" f = true))
      /\ is_num (confidence v)
                (Double.div (count (Number (hasModels (evidence v))
                                    + Number (hasViews (evidence v))
                                    + Number (hasControllers (evidence v))))
                            3))
  /\ map (fun pf => (relativePath (file pf), content pf)) mvc_parsed
     = [ ("models/user.js", EmptyString); ("views/home.js", EmptyString);
         ("controllers/home.js", EmptyString) ]
  /\ detected (detectMVCPattern mvc_parsed) = false
  /\ is_num (confidence (detectMVCPattern mvc_parsed)) 0
  /\ detected (detectMVCPattern nested_mvc_parsed) = true
  /\ is_num (confidence (detectMVCPattern nested_mvc_parsed)) 1.
Proof.
  split.
  - intros files v. subst v. split.
    + simpl. rewrite !andb_true_iff, !existsb_exists. tauto.
    + simpl. reflexivity.
  - repeat split; vm_compute; reflexivity.
Qed.

(** ** C6: the complexity score *)

(** C6, as stated, fails: the score is computed in doubles, and [0.1] is not
    a double.  For one class and one call site the formula gives 2.1 and the
    score is more than that; one more function raises the score by 1 and one
    more class by less than 2, which is not twice as much. *)
Lemma class_increment_is_not_twice_with_a_call_site :
  (stated_score one_class_one_call == 21 # 10)%Q
  /\ (21 # 10 < calculateComplexity one_class_one_call)%Q
  /\ (calculateComplexity (push_function (mkFunction "f" 1 [] false) one_class_one_call)
      - calculateComplexity one_class_one_call == 1)%Q
  /\ (calculateComplexity (push_class (mkClass "C" 1 []) one_class_one_call)
      - calculateComplexity one_class_one_call
      < 2 * (calculateComplexity (push_function (mkFunction "f" 1 [] false) one_class_one_call)
             - calculateComplexity one_class_one_call))%Q.
Proof. repeat split; vm_compute; reflexivity. Qed.

(** C6, amended: the score is function count + 2 x class count + 0.1 x
    call-site count evaluated in double arithmetic.  For an analysis without
    call sites, as every regex scan gives, it is the whole number function
    count + 2 x class count: one more function raises it by exactly 1 and one
    more class by exactly 2, twice as much.  With call sites it is the formula
    up to the roundings, within [2 ^ -50] of it in proportion: it is not
    negative, one more function still raises it, and the increment of a class
    is twice that of a function up to the same roundings. *)
Theorem calculateComplexity_formula_and_increments :
  forall (a : Analysis) (fn : FunctionInfo) (cls : ClassInfo),
    array_sized a ->
    (calls a = [] ->
     (calculateComplexity a == count (length (functions a) + 2 * length (classes a)))%Q
     /\ (calculateComplexity (push_function fn a) - calculateComplexity a == 1)%Q
     /\ (calculateComplexity (push_class cls a) - calculateComplexity a
         == 2 * (calculateComplexity (push_function fn a) - calculateComplexity a))%Q)
    /\ (stated_score a * (1 - slack) <= calculateComplexity a)%Q
    /\ (calculateComplexity a <= stated_score a * (1 + slack))%Q
    /\ (0 <= calculateComplexity a)%Q
    /\ (calculateComplexity a < calculateComplexity (push_function fn a))%Q
    /\ (Qabs (calculateComplexity (push_class cls a) - calculateComplexity a
              - 2 * (calculateComplexity (push_function fn a) - calculateComplexity a))
        <= (4 * stated_score a + 4) * slack)%Q.
Proof.
  intros a fn cls Hsize.
  destruct (ScoreFacts.array_sized_bounds a Hsize) as (Bf & Bc & Bk).
  destruct Hsize as (Hf & Hc & Hk). unfold array_length in Hf, Hc, Hk.
  assert (Ha : (Z.of_nat (length (functions a)) + 2 * Z.of_nat (length (classes a)) < 2 ^ 53)%Z)
    by lia.
  assert (Haf : (Z.of_nat (length (functions (push_function fn a)))
                 + 2 * Z.of_nat (length (classes (push_function fn a))) < 2 ^ 53)%Z).
  { cbn [push_function push_class functions classes]. rewrite length_app. cbn [length]. lia. }
  assert (Hac : (Z.of_nat (length (functions (push_class cls a)))
                 + 2 * Z.of_nat (length (classes (push_class cls a))) < 2 ^ 53)%Z).
  { cbn [push_function push_class functions classes]. rewrite length_app. cbn [length]. lia. }
  destruct (ScoreFacts.complexity_close a Ha) as [L U].
  destruct (ScoreFacts.complexity_close _ Haf) as [Lf Uf].
  destruct (ScoreFacts.complexity_close _ Hac) as [Lc Uc].
  rewrite ScoreFacts.stated_push_function in Lf, Uf.
  rewrite ScoreFacts.stated_push_class in Lc, Uc.
  pose proof (MetricFacts.count_nonneg (length (functions a))) as Pf.
  pose proof (MetricFacts.count_nonneg (length (classes a))) as Pc.
  pose proof (MetricFacts.count_nonneg (length (calls a))) as Pk.
  unfold stated_score, slack in *.
  split.
  { intros Hcalls.
    pose proof (ScoreFacts.complexity_exact a Hcalls Ha) as E.
    pose proof (ScoreFacts.complexity_exact (push_function fn a) Hcalls Haf) as Ef.
    pose proof (ScoreFacts.complexity_exact (push_class cls a) Hcalls Hac) as Ec.
    simpl functions in Ef, Ec. simpl classes in Ef, Ec.
    rewrite length_app in Ef, Ec. simpl length in Ef, Ec.
    assert (Ef' : (calculateComplexity (push_function fn a) - calculateComplexity a == 1)%Q).
    { rewrite Ef, E. unfold count.
      rewrite !Nat2Z.inj_add, !inject_Z_plus. simpl. ring. }
    assert (Ec' : (calculateComplexity (push_class cls a) - calculateComplexity a == 2)%Q).
    { rewrite Ec, E. unfold count.
      rewrite !Nat2Z.inj_add, !Nat2Z.inj_mul, !Nat2Z.inj_add, !inject_Z_plus, !inject_Z_mult,
        !inject_Z_plus. simpl. ring. }
    split; [exact E|]. split; [exact Ef'|]. rewrite Ec', Ef'. reflexivity. }
  split; [exact L|]. split; [exact U|].
  split; [lra|]. split; [lra|].
  apply Qabs_Qle_condition. split; lra.
Qed.

(** For one class and one call site, an analysis of array size, one more
    function raises the score. *)
Lemma one_more_function_raises_the_score :
  array_sized one_class_one_call
  /\ (calculateComplexity one_class_one_call
      < calculateComplexity (push_function (mkFunction "f" 1 [] false) one_class_one_call))%Q.
Proof.
  assert (H : array_sized one_class_one_call) by (repeat split; vm_compute; reflexivity).
  split; [exact H|].
  exact (proj1 (proj2 (proj2 (proj2 (proj2
           (calculateComplexity_formula_and_increments
              one_class_one_call (mkFunction "f" 1 [] false) (mkClass "C" 1 []) H)))))).
Defined.

(** ** C7: aggregate metrics *)

(** C7, as stated, fails: the average is computed in doubles, and a mean
    halfway between two hundredths goes either way.  The scan of forty files,
    thirty-nine with one function and one with two, has the mean score 1.025
    and the average returned is the double 1.02; the scan of eight files, one
    of them with one function, has the mean 0.125 and the average returned is
    the double 0.13.  Four files with scores 2, 0, 0.30000000000000004 and 0
    have a mean above 0.575, and the average returned is the double 0.57,
    more than half a hundredth away.  And the scan of a directory without
    source files does call the function on the empty set, which returns. *)
Lemma avgComplexity_is_not_the_rounded_mean :
  length forty_files = 40
  /\ (mean (map complexity forty_files) == 1025 # 1000)%Q
  /\ is_num (avgComplexity (calculateMetrics forty_files)) (Double.fl (102 # 100))
  /\ (Double.fl (102 # 100) < 1025 # 1000)%Q
  /\ length eight_files = 8
  /\ (mean (map complexity eight_files) == 125 # 1000)%Q
  /\ is_num (avgComplexity (calculateMetrics eight_files)) (Double.fl (13 # 100))
  /\ (125 # 1000 < Double.fl (13 # 100))%Q
  /\ is_num (avgComplexity (calculateMetrics four_files)) (Double.fl (57 # 100))
  /\ (Double.fl (57 # 100) + (1 # 200) < mean (map complexity four_files))%Q
  /\ option_map
       (fun r => match r with
                 | Ok res => Some (avgComplexity (Walk.metrics res), length (Walk.files res))
                 | Threw => None
                 end)
       (@Walk.scanRepository (Posix.posix "/") (PosixFs.posix_fs "/") empty_repository "/repo")
     = Some (Some (NaN, 0)).
Proof. repeat split; vm_compute; reflexivity. Qed.

(** C7, amended: for a non-empty file set, [totalLines] is the sum of the
    files' line counts, [totalFiles] the number of files and [languages] the
    extensions present, each once, in order of first appearance; two files
    with 10 and 20 lines give [totalLines = 30] and [totalFiles = 2].
    [avgComplexity] is computed in doubles.  When the scores are whole
    numbers, as those of every regex scan are, it is the double nearest to a
    whole number of hundredths that lies within half a hundredth of the
    mean; a mean halfway between two hundredths may go either way.  For the
    empty file set the function returns, with [avgComplexity] not a number,
    and so does the scan of a repository without source files. *)
Theorem calculateMetrics_sums_mean_and_languages :
  (forall files,
      files <> [] ->
      let m := calculateMetrics files in
      let extensions := map (fun f => extension (file f)) files in
      totalLines m = sum_nat (map lineCount files)
      /\ totalFiles m = length files
      /\ (whole_scores files -> moderate files ->
          exists z : Z,
            is_num (avgComplexity m) (Double.fl (inject_Z z / 100))
            /\ (mean (map complexity files) * 100 - (1 # 2) <= inject_Z z)%Q
            /\ (inject_Z z <= mean (map complexity files) * 100 + (1 # 2))%Q)
      /\ NoDup (languages m)
      /\ (forall e, In e (languages m) <-> In e extensions)
      /\ languages m = first_occurrences [] extensions)
  /\ (forall env f pf,
         treeSitterLoaded env = false ->
         parseFile env f = Some pf ->
         array_sized (analysis pf) ->
         exists k : nat, (complexity pf == count k)%Q)
  /\ (forall pf1 pf2,
         lineCount pf1 = 10 -> lineCount pf2 = 20 ->
         totalLines (calculateMetrics [pf1; pf2]) = 30
         /\ totalFiles (calculateMetrics [pf1; pf2]) = 2)
  /\ avgComplexity (calculateMetrics []) = NaN
  /\ (forall (P : PathApi) (F : Walk.FsPathApi) w repoPath res,
         Walk.scanRepository w repoPath = Some (Ok res) ->
         Walk.files res = [] ->
         avgComplexity (Walk.metrics res) = NaN /\ totalFiles (Walk.metrics res) = 0).
Proof.
  split; [|split; [|split; [|split]]].
  - intros files Hne m extensions. subst m extensions.
    split; [apply (MetricFacts.fold_left_add_lines files 0)|].
    split; [reflexivity|].
    split.
    { intros Hwhole [Hlen Hsum].
      destruct files as [|f0 rest]; [contradiction|].
      set (files := f0 :: rest) in *.
      destruct (ScoreFacts.whole_scores_list files Hwhole) as [ks Hks].
      pose proof (ScoreFacts.sum_whole files ks Hks) as Hs.
      assert (HT : (0 <= Z.of_nat (list_sum ks) <= 2 ^ 40)%Z).
      { split; [lia|]. rewrite Hs in Hsum. unfold count in Hsum.
        change 1099511627776%Q with (inject_Z (2 ^ 40)) in Hsum.
        rewrite <- Zle_Qle in Hsum. exact Hsum. }
      assert (HN : (1 <= Z.of_nat (length files) < 2 ^ 32)%Z).
      { unfold array_length in Hlen. split; [simpl length; lia | exact Hlen]. }
      assert (Htotal : (fold_left (fun sum f => Double.add sum (complexity f)) files 0
                        == inject_Z (Z.of_nat (list_sum ks)))%Q).
      { apply (ScoreFacts.fold_whole files ks Hks 0 0%Q); [simpl; lia | reflexivity]. }
      set (total := fold_left (fun sum f => Double.add sum (complexity f)) files 0%Q) in *.
      exists (Qfloor (Double.fl (Double.fl (total / count (length files)) * 100) + (1 # 2))).
      split; [simpl; reflexivity|].
      assert (Hmean : (mean (map complexity files)
                       == inject_Z (Z.of_nat (list_sum ks))
                          / inject_Z (Z.of_nat (length files)))%Q).
      { unfold mean. rewrite length_map, Hs. reflexivity. }
      assert (Hz : Qfloor (Double.fl (Double.fl (total / count (length files)) * 100) + (1 # 2))
                   = Qfloor (Double.fl (Double.fl (inject_Z (Z.of_nat (list_sum ks))
                                                   / inject_Z (Z.of_nat (length files))) * 100)
                             + (1 # 2))).
      { apply Qfloor_comp. rewrite Htotal. reflexivity. }
      rewrite Hz, Hmean.
      exact (ScoreFacts.hundredths _ _ HT HN). }
    simpl languages. rewrite DedupFacts.new_Set_first_occurrences.
    split; [apply DedupFacts.first_occurrences_NoDup|].
    split; [|reflexivity].
    intros e. split.
    + intros H. apply DedupFacts.first_occurrences_fresh in H. tauto.
    + intros H. apply DedupFacts.first_occurrences_complete; [exact H | intros []].
  - intros env f pf Hregex Hpf Hsize. unfold parseFile in Hpf. rewrite Hregex in Hpf.
    simpl in Hpf. destruct (readFile env (path f)) as [text|].
    + destruct (ScanFacts.fallbackAnalysis_ends text f) as (a & Ha & _ & _ & Hcalls).
      rewrite Ha in Hpf. inversion Hpf; subst pf. simpl in *.
      exists (length (functions a) + 2 * length (classes a)).
      apply (ScoreFacts.complexity_exact a Hcalls).
      destruct Hsize as (Hf & Hc & _). unfold array_length in Hf, Hc. lia.
    + inversion Hpf; subst pf. exists 0. reflexivity.
  - intros pf1 pf2 H1 H2. unfold calculateMetrics. simpl. rewrite H1, H2. split; reflexivity.
  - reflexivity.
  - intros P F w repoPath res H Hfiles. unfold Walk.scanRepository in H.
    destruct (Walk.getRepositoryInfo repoPath (Walk.stat w) (Walk.git w)); [|discriminate].
    destruct (Walk.findSourceFiles repoPath (Walk.root w)); [|discriminate].
    destruct (parseFiles _ _) as [pfs|]; [|discriminate].
    inversion H; subst res. simpl in *. subst pfs. split; reflexivity.
Qed.

(** The scanned files of scenario C are a non-empty set: two files, three
    lines in all. *)
Lemma metrics_of_two_scanned_files :
  ab_parsed <> []
  /\ totalLines (calculateMetrics ab_parsed) = 3
  /\ totalFiles (calculateMetrics ab_parsed) = 2
  /\ languages (calculateMetrics ab_parsed) = ["js"].
Proof.
  assert (Hne : ab_parsed <> []) by (vm_compute; discriminate).
  destruct (proj1 calculateMetrics_sums_mean_and_languages ab_parsed Hne)
    as (Hlines & Hfiles & _ & _ & _ & Hlang).
  split; [exact Hne|].
  split; [rewrite Hlines; vm_compute; reflexivity|].
  split; [rewrite Hfiles; vm_compute; reflexivity|].
  rewrite Hlang. vm_compute. reflexivity.
Defined.

(** ** C8: export names and the Modules pattern *)

(** C8, as stated, fails: the text [module.exports = foo;] holds an export
    declaration, yet the scanner's extraction of it has an empty exports
    sequence; and a scanned set with that file and a file with imports does
    not have the Modules pattern detected. *)
Lemma fallbackAnalysis_records_no_export :
  Server.export_name (trim exports_text) = Some "default"
  /\ (exists a, fallbackAnalysis exports_text app_js = Some a /\ exports a = [])
  /\ existsb (fun pf => 0 <? length (imports (analysis pf))) modules_parsed = true
  /\ detected (detectModulePattern modules_parsed) = false.
Proof.
  split; [vm_compute; reflexivity|].
  split; [eexists; split; vm_compute; reflexivity|].
  split; vm_compute; reflexivity.
Qed.

(** C8, amended: the export rule family belongs to the upload-path extractor
    [parseJavaScriptContent]: a line matching [module.exports], [exports.] or
    [export [default] name] contributes the captured name, or the literal
    [default] when none is captured, each name once; so a text with such a
    line has a non-empty exports sequence there.  The repository scanner has
    no export rule: extraction leaves exports empty for every text, and on a
    regex scan the Modules pattern is never detected.  The Modules detector
    itself reports detected, with confidence 0.8, on every file set with a
    file with non-empty exports and a file with non-empty imports. *)
Theorem export_rules_upload_path_only :
  (forall content filename,
      let exs := Server.exports (Server.parseJavaScriptContent content filename) in
      NoDup exs
      /\ exs = first_occurrences [] (line_names Server.export_name content)
      /\ (forall line n,
             In line (split newline content) ->
             Server.export_name (trim line) = Some n -> In n exs))
  /\ (Server.export_name "module.exports = foo;" = Some "default"
      /\ Server.export_name "exports.bar = 1;" = Some "default"
      /\ Server.export_name "export default foo;" = Some "foo"
      /\ Server.export_name "export default" = Some "default")
  /\ (forall content f, exists a, fallbackAnalysis content f = Some a /\ exports a = [])
  /\ (forall env files pfs,
         treeSitterLoaded env = false ->
         parseFiles env files = Some pfs ->
         detected (detectModulePattern pfs) = false)
  /\ (forall files,
         (exists f, In f files /\ exports (analysis f) <> []) ->
         (exists f, In f files /\ imports (analysis f) <> []) ->
         detected (detectModulePattern files) = true
         /\ confidence (detectModulePattern files) = Num (Double.fl (8 # 10))).
Proof.
  split; [|split; [|split; [|split]]].
  - intros content filename exs. subst exs. rewrite ServerFacts.export_names.
    split; [apply DedupFacts.first_occurrences_NoDup|]. split; [reflexivity|].
    intros line n Hline Hn.
    apply DedupFacts.first_occurrences_complete; [|intros []].
    unfold line_names. apply DedupFacts.keep_some_In. rewrite <- Hn.
    apply in_map with (f := fun l => Server.export_name (trim l)). exact Hline.
  - repeat split; vm_compute; reflexivity.
  - intros content f. destruct (ScanFacts.fallbackAnalysis_ends content f) as (a & Ha & He & _).
    exists a. split; assumption.
  - intros env files pfs Hts Hpfs. simpl.
    pose proof (DetectFacts.regex_scan_no_exports env files Hts pfs Hpfs) as Hall.
    replace (existsb (fun f => 0 <? length (exports (analysis f))) pfs) with false; [reflexivity|].
    symmetry. clear Hpfs. induction Hall as [|pf pfs Hpf _ IH]; simpl; [reflexivity|].
    rewrite Hpf. simpl. exact IH.
  - intros files Hex Him. split; [|reflexivity]. simpl.
    apply andb_true_iff. split.
    + apply (DetectFacts.existsb_positive_length (fun f => exports (analysis f))). exact Hex.
    + apply (DetectFacts.existsb_positive_length (fun f => imports (analysis f))). exact Him.
Qed.

(** A set with an exporting file and an importing file has the Modules
    pattern detected. *)
Lemma exporting_set_has_modules_detected :
  (exists f, In f exporting_set /\ exports (analysis f) <> [])
  /\ (exists f, In f exporting_set /\ imports (analysis f) <> [])
  /\ detected (detectModulePattern exporting_set) = true
  /\ confidence (detectModulePattern exporting_set) = Num (Double.fl (8 # 10)).
Proof.
  assert (He : exists f, In f exporting_set /\ exports (analysis f) <> []).
  { exists exporting_file. split; [left; reflexivity | discriminate]. }
  assert (Hi : exists f, In f exporting_set /\ imports (analysis f) <> []).
  { exists (parsed a_js a_text
                   (mkAnalysis [] [] [mkImport "./b" 1 "import"; mkImport "lodash" 2 "import"]
                               [] [] [])).
    split; [right; vm_compute; left; reflexivity | discriminate]. }
  split; [exact He|]. split; [exact Hi|].
  exact (proj2 (proj2 (proj2 (proj2 export_rules_upload_path_only))) exporting_set He Hi).
Defined.

(** ** C9: the Observer detector *)

(** C9: the detector counts, over all files, the functions whose lowered
    name is in its list, reports detected iff the count is positive, with
    confidence min(count / 10, 1), the quotient as a double.  The list holds [addEventListener] with its
    capitals while the name is lowered before the comparison, so the names
    that count are [subscribe], [unsubscribe] and [notify] in any case, and a
    function named [addEventListener] is never counted: for a file whose
    extraction is that one function the count is 0, where the claim says
    positive. *)
Theorem detectObserverPattern_never_counts_addEventListener :
  (forall files,
      let v := detectObserverPattern files in
      evidence v = length (observerMethods files)
      /\ detected v = (0 <? evidence v)
      /\ confidence v = Num (Qmin (Double.div (count (evidence v)) 10) 1))
  /\ (forall fn,
         is_observer fn = true
         <-> In (toLowerCase (fn_name fn)) ["subscribe"; "unsubscribe"; "notify"])
  /\ (forall line params async,
         is_observer (mkFunction "addEventListener" line params async) = false)
  /\ is_observer (mkFunction "Subscribe" 1 [] false) = true
  /\ map fn_name (flat_map (fun pf => functions (analysis pf)) listener_parsed)
     = ["addEventListener"]
  /\ evidence (detectObserverPattern listener_parsed) = 0
  /\ detected (detectObserverPattern listener_parsed) = false
  /\ is_num (confidence (detectObserverPattern listener_parsed)) 0.
Proof.
  split; [intros files v; subst v; repeat split|].
  split; [exact DetectFacts.is_observer_iff|].
  split; [intros line params async; reflexivity|].
  repeat split; vm_compute; reflexivity.
Qed.

(** ** C10: constant confidences *)

(** C10: for every file collection the Singleton verdict's confidence is the
    literal 0.9 and the Modules verdict's confidence is the literal 0.8 (the
    doubles so written), whatever [detected] says;
    on the empty collection both verdicts have [detected] false with these
    confidences. *)
Theorem singleton_and_modules_confidence_constant :
  forall files,
    confidence (detectSingletonPattern files) = Num (Double.fl (9 # 10))
    /\ confidence (detectModulePattern files) = Num (Double.fl (8 # 10))
    /\ detected (detectSingletonPattern []) = false
    /\ confidence (detectSingletonPattern []) = Num (Double.fl (9 # 10))
    /\ detected (detectModulePattern []) = false
    /\ confidence (detectModulePattern []) = Num (Double.fl (8 # 10)).
Proof. intros files. repeat split. Qed.

(** * Further properties *)



(** X3: every entry of [parseFiles] either is the failure entry, with line
    count 0, or has as line count the number of newline-delimited segments
    of its content, which is at least 1. *)
Theorem lineCount_counts_segments :
  forall env f, exists pf,
    parseFile env f = Some pf
    /\ ((pf = failed f /\ lineCount pf = 0)
        \/ (lineCount pf = length (split newline (content pf)) /\ 1 <= lineCount pf)).
Proof.
  intros env f.
  assert (Hseg : forall s, 1 <= length (split newline s)).
  { induction s as [|c s IH]; simpl; [lia|].
    destruct (Ascii.eqb c newline); simpl; [lia|].
    destruct (split newline s); simpl in *; lia. }
  unfold parseFile. destruct (readFile env (path f)) as [text|].
  - destruct (treeSitterLoaded env && hasParser env (extension f)).
    + destruct (astAnalysis env text f) as [a|].
      * eexists. split; [reflexivity|]. right. simpl. split; [reflexivity | apply Hseg].
      * eexists. split; [reflexivity|]. left. split; reflexivity.
    + destruct (ScanFacts.fallbackAnalysis_ends text f) as (a & -> & _).
      eexists. split; [reflexivity|]. right. simpl. split; [reflexivity | apply Hseg].
  - eexists. split; [reflexivity|]. left. split; reflexivity.
Qed.

(** X4: the confidence of the MVC, Modules, Singleton and Observer verdicts
    is always a number between 0 and 1; that of the Factory verdict is one
    for a non-empty file set and is not a number for the empty one. *)
Theorem confidences_within_unit_interval :
  (forall files,
      Notions.in_unit (confidence (detectMVCPattern files))
      /\ Notions.in_unit (confidence (detectModulePattern files))
      /\ Notions.in_unit (confidence (detectSingletonPattern files))
      /\ Notions.in_unit (confidence (detectObserverPattern files)))
  /\ (forall f files, Notions.in_unit (confidence (detectFactoryPattern (f :: files))))
  /\ confidence (detectFactoryPattern []) = NaN.
Proof.
  assert (Hdiv : forall n d, (0 < d)%Q -> (0 <= Double.div (count n) d)%Q).
  { intros n d Hd. apply DoubleFacts.fl_nonneg. apply Qle_shift_div_l; [exact Hd|].
    rewrite Qmult_0_l. apply MetricFacts.count_nonneg. }
  assert (Hmin : forall q, (0 <= q)%Q -> (0 <= Qmin q 1)%Q /\ (Qmin q 1 <= 1)%Q).
  { intros q Hq. split; [apply Q.min_glb; [exact Hq | discriminate] | apply Q.le_min_r]. }
  split; [|split].
  - intros files. split; [|split; [|split]].
    + simpl.
      destruct (existsb (mvc_match "model" "/models/") files),
               (existsb (mvc_match "view" "/views/") files),
               (existsb (mvc_match "controller" "/controllers/") files);
        vm_compute; split; discriminate.
    + simpl. split; discriminate.
    + simpl. split; discriminate.
    + simpl. apply Hmin. apply Hdiv. reflexivity.
  - intros f files. unfold detectFactoryPattern. simpl confidence.
    set (n := length _). change (length (f :: files)) with (S (length files)).
    simpl div_count. simpl min1. apply Hmin. apply Hdiv.
    unfold count. replace 0%Q with (inject_Z 0) by reflexivity.
    rewrite <- Zlt_Qlt. lia.
  - reflexivity.
Qed.

(** ** The syntax-tree path *)

Module AstFacts.
Import JsString Scanner Ast.

Lemma visit_unbound (node : TsNode) (a : Analysis) :
  visit false node a = if cased node then Threw else Ok a.
Proof.
  unfold visit, cased, has_case.
  destruct (str_in (ts_type node) function_types); [reflexivity|].
  destruct (String.eqb (ts_type node) "class_declaration"); [reflexivity|].
  destruct (str_in (ts_type node) import_types); [reflexivity|].
  destruct (String.eqb (ts_type node) "call_expression"); reflexivity.
Qed.

Lemma visit_no_case (bound : bool) (node : TsNode) (a : Analysis) :
  cased node = false -> visit bound node a = Ok a.
Proof.
  unfold visit, cased, has_case. rewrite !orb_false_iff.
  intros [[[-> ->] ->] ->]. reflexivity.
Qed.

Lemma traverse_unfold (bound : bool) (node : TsNode) (a : Analysis) :
  traverse bound node a
  = match visit bound node a with
    | Threw => Threw
    | Ok a1 => each (ts_children node) a1
    end.
Proof.
  destruct node as [t x r cs]. simpl.
  destruct (visit bound (TsN t x r cs) a) as [a1|]; [|reflexivity].
  generalize a1. induction cs as [|c cs IH]; intros acc; [reflexivity|].
  simpl. destruct (traverse false c acc); [apply IH | reflexivity].
Qed.

Lemma below_unfold (node : TsNode) : below node = all_below (ts_children node).
Proof.
  destruct node as [t x r cs]. simpl.
  induction cs as [|c cs IH]; [reflexivity|]. simpl. rewrite IH. reflexivity.
Qed.

(** With [this] unbound a subtree is traversed without effect, or throws at
    its first node with a case. *)
Lemma traverse_unbound :
  forall node a,
    traverse false node a = if existsb cased (node :: below node) then Threw else Ok a.
Proof.
  fix IH 1. intros node a. rewrite traverse_unfold, visit_unbound, below_unfold.
  simpl existsb. destruct (cased node); [reflexivity|]. simpl.
  destruct node as [t x r cs]. simpl ts_children.
  induction cs as [|c cs IHcs]; [reflexivity|].
  cbn [each all_below]. rewrite (IH c a), existsb_app.
  destruct (existsb cased (c :: below c)); [reflexivity|]. exact IHcs.
Qed.

Lemma each_unbound (cs : list TsNode) (a : Analysis) :
  each cs a = if existsb cased (all_below cs) then Threw else Ok a.
Proof.
  induction cs as [|c cs IH]; [reflexivity|].
  cbn [each all_below]. rewrite traverse_unbound, existsb_app. destruct (existsb cased (c :: below c)); [reflexivity|]. exact IH.
Qed.

(** [analyzeAST] keeps what the root contributes, if nothing below throws. *)
Lemma analyzeAST_root (rootNode : TsNode) (content : string) (f : SourceFile) :
  analyzeAST rootNode content f
  = match visit true rootNode emptyAnalysis with
    | Threw => Threw
    | Ok a => if existsb cased (below rootNode) then Threw else Ok a
    end.
Proof.
  unfold analyzeAST. rewrite traverse_unfold.
  destruct (visit true rootNode emptyAnalysis) as [a|]; [|reflexivity].
  rewrite each_unbound, below_unfold. reflexivity.
Qed.

Lemma visit_root_size (node : TsNode) (a : Analysis) :
  visit true node emptyAnalysis = Ok a ->
  classes a = [] /\ exports a = [] /\ variables a = []
  /\ length (functions a) + length (imports a) + length (calls a) <= 1.
Proof.
  unfold visit.
  destruct (str_in (ts_type node) function_types).
  { intros H; inversion H; subst; simpl; repeat split; lia. }
  destruct (String.eqb (ts_type node) "class_declaration"); [discriminate|].
  destruct (str_in (ts_type node) import_types).
  { intros H; inversion H; subst; simpl; repeat split; lia. }
  destruct (String.eqb (ts_type node) "call_expression");
    intros H; inversion H; subst; simpl; repeat split; lia.
Qed.

Lemma get_initialized (o : LoadOutcome) :
  treeSitterLoaded (initializeParsers o) = true ->
  forall ext,
    (exists lang, get ext (parsers (initializeParsers o)) = Some lang)
    <-> str_in ext Walk.supportedExtensions = true.
Proof.
  unfold initializeParsers.
  destruct (imports_ok o), (js_ok o), (ts_ok o), (py_ok o); simpl; try discriminate.
  intros _ ext. unfold str_in, Walk.supportedExtensions. simpl.
  destruct (String.eqb ext "js"); [split; eauto|].
  destruct (String.eqb ext "jsx"); [split; eauto|].
  destruct (String.eqb ext "mjs"); [split; intros; eauto; rewrite !orb_true_r; reflexivity|].
  destruct (String.eqb ext "ts"); [split; eauto|].
  destruct (String.eqb ext "tsx"); [split; eauto|].
  destruct (String.eqb ext "py"); [split; eauto|].
  simpl. split; [intros [lang H]; discriminate | discriminate].
Qed.

End AstFacts.

(** ** The directory walk *)

Module WalkFacts.
Import JsString Scanner Walk.

(** Induction on an entry through the listings below it. *)
Lemma entry_nested_ind (Q : entry -> Prop) :
  (forall name bytes, Q (File name bytes)) ->
  (forall name, Q (Other name)) ->
  (forall name, Q (Dir name Threw)) ->
  (forall name sub, Forall Q sub -> Q (Dir name (Ok sub))) ->
  forall e, Q e.
Proof.
  intros Hfile Hother Hthrew Hdir. fix IH 1. intros [name bytes|name [sub|]|name].
  - apply Hfile.
  - apply Hdir. induction sub as [|e sub IHsub]; constructor; [apply IH | exact IHsub].
  - apply Hthrew.
  - apply Hother.
Qed.

Section AnyFs.
Context {F : FsPathApi}.
Variable repoPath : string.

Lemma walkEntry_dir (dir name : string) (sub : list entry) :
  walkEntry repoPath dir (Dir name (Ok sub))
  = if walked name then walkDirectory repoPath (join dir name) sub else Ok [].
Proof.
  simpl. destruct (walked name); [|reflexivity].
  induction sub as [|e sub IH]; [reflexivity|].
  simpl. destruct (walkEntry repoPath (join dir name) e); [|reflexivity].
  rewrite IH. reflexivity.
Qed.

Ltac invert_walk H :=
  inversion H; subst;
  repeat match goal with
         | Hin : In _ [] |- _ => destruct Hin
         | Hin : In _ [_] |- _ => destruct Hin as [Hin|[]]; subst
         | Heq : File _ _ = _ |- _ => inversion Heq; subst; clear Heq
         | Heq : Dir _ _ = _ |- _ => inversion Heq; subst; clear Heq
         | Heq : Other _ = _ |- _ => inversion Heq; subst; clear Heq
         end.

Lemma blocked_nil : ~ blocked [].
Proof. intros H. invert_walk H. Qed.

Lemma reaches_nil (dir : string) (f : SourceFile) : ~ reaches repoPath dir [] f.
Proof. intros H. invert_walk H. Qed.

Lemma blocked_cons (e : entry) (es : list entry) :
  blocked (e :: es) <-> blocked [e] \/ blocked es.
Proof.
  split.
  - intros H. inversion H as [? name Hin Hs|? name Hin Hw|? name sub Hin Hw Hsub]; subst.
    + destruct Hin as [->|Hin]; [left | right]; eapply blocked_file; eauto. left; reflexivity.
    + destruct Hin as [->|Hin]; [left | right]; eapply blocked_here; eauto. left; reflexivity.
    + destruct Hin as [->|Hin]; [left | right]; eapply blocked_below; eauto. left; reflexivity.
  - intros [H|H]; inversion H as [? name Hin Hs|? name Hin Hw|? name sub Hin Hw Hsub]; subst.
    + destruct Hin as [->|[]]. eapply blocked_file; eauto. left; reflexivity.
    + destruct Hin as [->|[]]. eapply blocked_here; eauto. left; reflexivity.
    + destruct Hin as [->|[]]. eapply blocked_below; eauto. left; reflexivity.
    + eapply blocked_file; eauto. right; exact Hin.
    + eapply blocked_here; eauto. right; exact Hin.
    + eapply blocked_below; eauto. right; exact Hin.
Qed.

Lemma reaches_cons (dir : string) (e : entry) (es : list entry) (f : SourceFile) :
  reaches repoPath dir (e :: es) f <-> reaches repoPath dir [e] f \/ reaches repoPath dir es f.
Proof.
  split.
  - intros H. inversion H as [? ? name bytes Hin Hs|? ? name sub ? Hin Hw Hsub]; subst.
    + destruct Hin as [->|Hin]; [left | right]; apply reaches_file; auto. left; reflexivity.
    + destruct Hin as [->|Hin]; [left | right]; eapply reaches_dir; eauto. left; reflexivity.
  - intros [H|H]; inversion H as [? ? name bytes Hin Hs|? ? name sub ? Hin Hw Hsub]; subst.
    + destruct Hin as [->|[]]. apply reaches_file; auto. left; reflexivity.
    + destruct Hin as [->|[]]. eapply reaches_dir; eauto. left; reflexivity.
    + apply reaches_file; auto. right; exact Hin.
    + eapply reaches_dir; eauto. right; exact Hin.
Qed.

Lemma blocked_single (e : entry) :
  blocked [e] <->
  match e with
  | File name Threw => str_in (slice1 (extname name)) supportedExtensions = true
  | Dir name Threw => walked name = true
  | Dir name (Ok sub) => walked name = true /\ blocked sub
  | _ => False
  end.
Proof.
  split.
  - intros H. invert_walk H; simpl; auto.
  - destruct e as [name [bytes|]|name [sub|]|name]; try contradiction.
    + intros Hs. eapply blocked_file; [left; reflexivity | exact Hs].
    + intros [Hw Hb]. eapply blocked_below; [left; reflexivity | exact Hw | exact Hb].
    + intros Hw. eapply blocked_here; [left; reflexivity | exact Hw].
Qed.

Lemma reaches_single (dir : string) (e : entry) (f : SourceFile) :
  reaches repoPath dir [e] f <->
  match e with
  | File name (Ok bytes) =>
      str_in (slice1 (extname name)) supportedExtensions = true
      /\ f = mkFile (join dir name) (relative repoPath (join dir name))
                    (slice1 (extname name)) name bytes
  | Dir name (Ok sub) => walked name = true /\ reaches repoPath (join dir name) sub f
  | _ => False
  end.
Proof.
  split.
  - intros H. invert_walk H; simpl; auto.
  - destruct e as [name [bytes|]|name [sub|]|name]; try contradiction.
    + intros [Hs ->]. apply reaches_file; [left; reflexivity | exact Hs].
    + intros [Hw Hr]. eapply reaches_dir; [left; reflexivity | exact Hw | exact Hr].
Qed.

Lemma walkDirectory_single (dir : string) (e : entry) :
  walkDirectory repoPath dir [e]
  = match walkEntry repoPath dir e with Threw => Threw | Ok found => Ok (found ++ []) end.
Proof. reflexivity. Qed.

Lemma walk_ok_list (es : list entry) :
  Forall (entry_ok repoPath) es -> forall dir, walk_ok repoPath dir es.
Proof.
  induction 1 as [|e es He _ IH]; intros dir.
  - split.
    + split; [discriminate|]. intros H. destruct (blocked_nil H).
    + intros files H f. inversion H; subst. split; [intros []|].
      intros Hr. destruct (reaches_nil _ _ Hr).
  - destruct (He dir) as [He1 He2]. destruct (IH dir) as [IH1 IH2].
    rewrite walkDirectory_single in He1, He2.
    split.
    + rewrite blocked_cons. simpl.
      destruct (walkEntry repoPath dir e) as [found|].
      * destruct (walkDirectory repoPath dir es) as [more|].
        -- split; [discriminate|]. intros [H|H]; [apply He1 in H | apply IH1 in H]; discriminate.
        -- split; [intros _; right; apply IH1; reflexivity | reflexivity].
      * split; [intros _; left; apply He1; reflexivity | reflexivity].
    + intros files H f. rewrite reaches_cons. simpl in H.
      destruct (walkEntry repoPath dir e) as [found|]; [|discriminate].
      destruct (walkDirectory repoPath dir es) as [more|]; [|discriminate].
      inversion H; subst files. rewrite in_app_iff.
      rewrite <- (He2 (found ++ []) eq_refl f), <- (IH2 more eq_refl f).
      rewrite app_nil_r. reflexivity.
Qed.

Lemma every_entry_ok : forall e, entry_ok repoPath e.
Proof.
  apply entry_nested_ind.
  - intros name [bytes|] dir; unfold walk_ok;
      rewrite blocked_single, walkDirectory_single; cbn [walkEntry];
      destruct (str_in (slice1 (extname name)) supportedExtensions) eqn:E.
    + split; [split; [discriminate | contradiction]|].
      intros files H f. inversion H; subst files. rewrite reaches_single, E.
      split; [intros [<-|[]]; auto | intros [_ ->]; left; reflexivity].
    + split; [split; [discriminate | contradiction]|].
      intros files H f. inversion H; subst files. rewrite reaches_single, E.
      split; [intros [] | intros [Hs _]; discriminate].
    + split; [split; reflexivity | discriminate].
    + split; [split; discriminate|].
      intros files H f. inversion H; subst files. rewrite reaches_single.
      split; [intros [] | contradiction].
  - intros name dir. unfold walk_ok. rewrite blocked_single, walkDirectory_single. simpl.
    split; [split; [discriminate | contradiction]|].
    intros files H f. inversion H; subst files. rewrite reaches_single. simpl. tauto.
  - intros name dir. unfold walk_ok. rewrite blocked_single, walkDirectory_single. simpl.
    destruct (walked name) eqn:W.
    + split; [split; reflexivity | discriminate].
    + split; [split; discriminate|].
      intros files H f. inversion H; subst files. rewrite reaches_single. simpl. tauto.
  - intros name sub Hsub dir.
    pose proof (walk_ok_list sub Hsub (join dir name)) as [Hs1 Hs2].
    unfold walk_ok. rewrite blocked_single, walkDirectory_single, walkEntry_dir.
    destruct (walked name) eqn:W.
    + destruct (walkDirectory repoPath (join dir name) sub) as [found|] eqn:E.
      * split.
        -- split; [discriminate|]. intros [_ Hb]. apply Hs1 in Hb. discriminate.
        -- intros files H f. inversion H; subst files.
           rewrite app_nil_r, reaches_single, (Hs2 found eq_refl f). tauto.
      * split; [|discriminate].
        split; [intros _; split; [reflexivity | apply Hs1; reflexivity] | reflexivity].
    + split; [split; [discriminate | intros [Hw _]; discriminate]|].
      intros files H f. inversion H; subst files. rewrite reaches_single. simpl.
      rewrite W. split; [intros [] | intros [Hw _]; discriminate].
Qed.

Lemma walkDirectory_spec (dir : string) (es : list entry) : walk_ok repoPath dir es.
Proof.
  apply walk_ok_list. apply Forall_forall. intros e _. apply every_entry_ok.
Qed.

Lemma reaches_supported (dir : string) (es : list entry) (f : SourceFile) :
  reaches repoPath dir es f ->
  str_in (extension f) supportedExtensions = true
  /\ extension f = slice1 (extname (name f)).
Proof.
  induction 1 as [dir es name bytes Hin Hs|dir es name sub f Hin Hw Hsub IH].
  - simpl. split; [exact Hs | reflexivity].
  - exact IH.
Qed.
End AnyFs.

End WalkFacts.

(** ** [path.extname] on POSIX *)

Module PathFacts.
Import JsString PosixFs ScanNotions.

Lemma chars_app (a b : string) :
  list_ascii_of_string (a ++ b) = list_ascii_of_string a ++ list_ascii_of_string b.
Proof. induction a as [|c a IH]; simpl; [reflexivity | rewrite IH; reflexivity]. Qed.

Lemma chars_length (s : string) : length (list_ascii_of_string s) = String.length s.
Proof. induction s as [|c s IH]; simpl; [reflexivity | rewrite IH; reflexivity]. Qed.

Lemma length_append (a b : string) :
  String.length (a ++ b) = String.length a + String.length b.
Proof. induction a as [|c a IH]; simpl; [reflexivity | rewrite IH; reflexivity]. Qed.

Lemma substring_whole (s : string) : String.substring 0 (String.length s) s = s.
Proof. induction s as [|c s IH]; simpl; [reflexivity | rewrite IH; reflexivity]. Qed.

Lemma substring_suffix (pre suf : string) :
  String.substring (String.length pre) (String.length suf) (pre ++ suf) = suf.
Proof. induction pre as [|c pre IH]; simpl; [apply substring_whole | exact IH]. Qed.

Lemma lacks_app (c : ascii) (a b : list ascii) :
  lacks c (a ++ b) = lacks c a && lacks c b.
Proof. apply forallb_app. Qed.

Lemma lacks_rev (c : ascii) (l : list ascii) : lacks c (rev l) = lacks c l.
Proof.
  induction l as [|d l IH]; [reflexivity|].
  simpl rev. rewrite lacks_app, IH. simpl. rewrite andb_true_r. apply andb_comm.
Qed.

Lemma free_of_append (c : ascii) (a b : string) :
  free_of c (a ++ b) = free_of c a && free_of c b.
Proof. unfold free_of. rewrite chars_app. apply lacks_app. Qed.

(** Characters that are neither a slash nor a dot, met before any dot and
    after the first character, leave the state as it is. *)
Lemma loop_plain (l rest : list ascii) :
  lacks Posix.slash l = true -> lacks dot l = true ->
  forall i sp e ms pd,
    extname_loop (l ++ rest) i (mkExt None sp (Some e) ms pd)
    = extname_loop rest (i - length l) (mkExt None sp (Some e) ms pd).
Proof.
  induction l as [|c l IH]; intros Hs Hd i sp e ms pd; simpl.
  - rewrite Nat.sub_0_r. reflexivity.
  - simpl in Hs, Hd. apply andb_true_iff in Hs, Hd.
    destruct Hs as [Hc Hs], Hd as [Hc' Hd].
    apply negb_true_iff in Hc, Hc'. rewrite Hc, Hc'. simpl.
    rewrite (IH Hs Hd). f_equal. lia.
Qed.

(** The first character met, if it is neither a slash nor a dot, sets [end]. *)
Lemma loop_first (l rest : list ascii) :
  l <> [] -> lacks Posix.slash l = true -> lacks dot l = true ->
  forall i,
    extname_loop (l ++ rest) i ext_init
    = extname_loop rest (i - length l) (mkExt None 0 (Some (i + 1)) false NoDotYet).
Proof.
  destruct l as [|c l]; [congruence|]. intros _ Hs Hd i.
  simpl in Hs, Hd. apply andb_true_iff in Hs, Hd.
  destruct Hs as [Hc Hs], Hd as [Hc' Hd].
  apply negb_true_iff in Hc, Hc'. simpl. rewrite Hc, Hc'. simpl.
  rewrite (loop_plain l rest Hs Hd). f_equal. lia.
Qed.

(** The first dot met sets [startDot], and [end] if it was not set. *)
Lemma loop_dot (rest : list ascii) (i sp : nat) (e : option nat) (ms : bool) (pd : PreDot) :
  extname_loop (dot :: rest) i (mkExt None sp e ms pd)
  = extname_loop rest (i - 1)
                 (mkExt (Some i) sp (Some (match e with Some n => n | None => i + 1 end))
                        (match e with Some _ => ms | None => false end) pd).
Proof. destruct e; reflexivity. Qed.

(** Once the dot is found, the characters before it only move [preDotState]. *)
Lemma loop_pre (l : list ascii) :
  lacks Posix.slash l = true ->
  forall i sd sp e ms pd,
    extname_loop l i (mkExt (Some sd) sp (Some e) ms pd)
    = mkExt (Some sd) sp (Some e) ms (pre_dot l pd).
Proof.
  induction l as [|c l IH]; intros Hs i sd sp e ms pd; [reflexivity|].
  simpl in Hs. apply andb_true_iff in Hs. destruct Hs as [Hc Hs].
  apply negb_true_iff in Hc. simpl. rewrite Hc. simpl.
  destruct (Ascii.eqb c dot); simpl; apply (IH Hs).
Qed.

Lemma pre_dot_some (l : list ascii) (d : PreDot) : l <> [] -> pre_dot l d <> NoDotYet.
Proof.
  destruct l as [|c l] using rev_ind; [congruence|]. intros _.
  unfold pre_dot. rewrite fold_left_app. simpl.
  destruct (Ascii.eqb c dot); discriminate.
Qed.

Lemma chars_nonempty (s : string) : s <> EmptyString -> list_ascii_of_string s <> [].
Proof. destruct s; [congruence | discriminate]. Qed.

Lemma rev_nonempty {A : Type} (l : list A) : l <> [] -> rev l <> [].
Proof.
  destruct l as [|x l]; [congruence|]. intros _ H.
  apply (f_equal (@length A)) in H. simpl in H. rewrite length_app in H. simpl in H. lia.
Qed.

(** The state the scan of [pre ++ "." ++ e] ends in. *)
Lemma extname_loop_parts (pre e : string) :
  free_of Posix.slash pre = true -> free_of Posix.slash e = true -> free_of dot e = true ->
  extname_loop (rev (list_ascii_of_string (pre ++ String dot e)))
               (String.length (pre ++ String dot e) - 1) ext_init
  = mkExt (Some (String.length pre)) 0 (Some (String.length pre + 1 + String.length e))
          false (pre_dot (rev (list_ascii_of_string pre)) NoDotYet).
Proof.
  intros Hp He Hd. unfold free_of in *.
  rewrite chars_app, rev_app_distr. simpl list_ascii_of_string. simpl rev.
  rewrite <- app_assoc. simpl app.
  rewrite length_append. simpl String.length.
  replace (String.length pre + S (String.length e) - 1)
    with (String.length pre + String.length e) by lia.
  destruct e as [|c e].
  - simpl rev. simpl app. simpl String.length. rewrite Nat.add_0_r.
    unfold ext_init.
    rewrite loop_dot, loop_pre by (rewrite lacks_rev; exact Hp).
    f_equal. f_equal. lia.
  - rewrite loop_first;
      [| apply rev_nonempty; discriminate | rewrite lacks_rev; exact He
       | rewrite lacks_rev; exact Hd].
    rewrite length_rev, chars_length.
    replace (String.length pre + String.length (String c e) - String.length (String c e))
      with (String.length pre) by lia.
    rewrite loop_dot, loop_pre by (rewrite lacks_rev; exact Hp).
    f_equal. f_equal. lia.
Qed.

(** A name without a dot has no extension. *)
Lemma extname_loop_no_dot (l : list ascii) :
  lacks Posix.slash l = true -> lacks dot l = true ->
  forall i, startDot (extname_loop l i ext_init) = None.
Proof.
  intros Hs Hd i. destruct l as [|c l]; [reflexivity|].
  pose proof (loop_first (c :: l) [] ltac:(discriminate) Hs Hd i) as H.
  rewrite app_nil_r in H. rewrite H. reflexivity.
Qed.

Lemma extname_no_dot (name : string) :
  free_of Posix.slash name = true -> free_of dot name = true -> extname name = EmptyString.
Proof.
  intros Hs Hd. unfold extname.
  rewrite extname_loop_no_dot; [reflexivity | |]; rewrite lacks_rev; assumption.
Qed.

(** A name that begins with its only dot has no extension. *)
Lemma extname_dotfile (e : string) :
  free_of Posix.slash e = true -> free_of dot e = true ->
  extname (String dot e) = EmptyString.
Proof.
  intros Hs Hd. change (extname (EmptyString ++ String dot e) = EmptyString).
  unfold extname. rewrite (extname_loop_parts EmptyString e eq_refl Hs Hd). reflexivity.
Qed.

(** A name that ends with a dot has an extension of at most the dot. *)
Lemma extname_trailing_dot (pre : string) :
  free_of Posix.slash pre = true ->
  Walk.slice1 (extname (pre ++ String dot EmptyString)) = EmptyString.
Proof.
  intros Hp. unfold extname.
  rewrite (extname_loop_parts pre EmptyString Hp eq_refl eq_refl). simpl.
  replace (String.length pre + 1 + 0 - String.length pre) with 1 by lia.
  pose proof (substring_suffix pre (String dot EmptyString)) as H. simpl String.length in H.
  destruct (pre_dot (rev (list_ascii_of_string pre)) NoDotYet); [reflexivity | |].
  - destruct ((String.length pre =? String.length pre + 1 + 0 - 1)
              && (String.length pre =? 1)); [reflexivity|].
    rewrite H. reflexivity.
  - rewrite H. reflexivity.
Qed.

(** Otherwise the extension is the last dot and what follows it. *)
Lemma extname_parts (pre e : string) :
  pre <> EmptyString -> e <> EmptyString ->
  free_of Posix.slash pre = true -> free_of Posix.slash e = true -> free_of dot e = true ->
  extname (pre ++ String dot e) = String dot e.
Proof.
  intros Hpre Hne Hp He Hd. unfold extname.
  rewrite (extname_loop_parts pre e Hp He Hd). simpl.
  replace (String.length pre + 1 + String.length e - String.length pre)
    with (String.length (String dot e)) by (simpl; lia).
  pose proof (pre_dot_some (rev (list_ascii_of_string pre)) NoDotYet
                           (rev_nonempty _ (chars_nonempty _ Hpre))) as Hpd.
  destruct (pre_dot (rev (list_ascii_of_string pre)) NoDotYet); [congruence | |].
  - replace (String.length pre =? String.length pre + 1 + String.length e - 1) with false.
    + apply substring_suffix.
    + symmetry. apply Nat.eqb_neq. destruct e; [congruence | simpl; lia].
  - apply substring_suffix.
Qed.

(** A string has no dot, or splits at its last one. *)
Lemma last_dot (s : string) :
  free_of dot s = true
  \/ exists pre e, s = (pre ++ String dot e)%string /\ free_of dot e = true.
Proof.
  induction s as [|c s IH]; [left; reflexivity|].
  destruct IH as [Hfree|(pre & e & -> & He)].
  - destruct (Ascii.eqb c dot) eqn:E.
    + right. apply Ascii.eqb_eq in E. subst c. exists EmptyString, s. auto.
    + left. unfold free_of, lacks. simpl. rewrite E. exact Hfree.
  - right. exists (String c pre), e. auto.
Qed.

Lemma supported_plain (ext : string) :
  In ext Walk.supportedExtensions ->
  ext <> EmptyString /\ free_of dot ext = true /\ free_of Posix.slash ext = true.
Proof.
  unfold Walk.supportedExtensions. simpl.
  intros [<-|[<-|[<-|[<-|[<-|[<-|[]]]]]]]; repeat split; discriminate.
Qed.

End PathFacts.

(** ** Line numbers of the regex scan *)

Module LineFacts.
Import JsString Regex Scanner ScanNotions.

Lemma split_length (c : ascii) (s : string) : length (split c s) = S (occ c s).
Proof.
  induction s as [|d s IH]; [reflexivity|]. simpl.
  destruct (Ascii.eqb d c); simpl; [rewrite IH; reflexivity|].
  destruct (split c s); simpl in *; [discriminate | exact IH].
Qed.

Lemma occ_prefix (c : ascii) (s : string) :
  forall n, occ c (String.substring 0 n s) <= occ c s.
Proof.
  induction s as [|d s IH]; intros [|n]; simpl; try lia.
  specialize (IH n). lia.
Qed.

Lemma line_of_bounds (content : string) (idx : nat) :
  1 <= line_of content idx <= length (split newline content).
Proof.
  unfold line_of, substring. rewrite !split_length.
  pose proof (occ_prefix newline content (idx - 0)). lia.
Qed.

Lemma Forall_map_lines {A B : Type} (line : B -> nat) (make : A -> B) (n : nat) (l : list A) :
  (forall x, 1 <= line (make x) <= n) ->
  Forall (fun y => 1 <= line y <= n) (map make l).
Proof. intros H. apply Forall_forall. intros y Hy. apply in_map_iff in Hy. destruct Hy as (x & <- & _). apply H. Qed.

Lemma js_rules_lines (content : string) (a a' : Analysis) :
  js_rules content a = Some a' ->
  lines_within (length (split newline content)) a ->
  lines_within (length (split newline content)) a'.
Proof.
  unfold js_rules. intros H (Hf & Hc & Hi).
  destruct (forEach_exec functionPatterns content) as [fs|]; [|discriminate].
  destruct (exec_all classPattern content) as [cs|]; [|discriminate].
  destruct (forEach_exec importPatterns content) as [ims|]; [|discriminate].
  inversion H; subst a'. unfold lines_within. simpl.
  repeat split; apply Forall_app; split; try assumption;
    apply Forall_map_lines; intros m; apply line_of_bounds.
Qed.

Lemma py_rules_lines (content : string) (a a' : Analysis) :
  py_rules content a = Some a' ->
  lines_within (length (split newline content)) a ->
  lines_within (length (split newline content)) a'.
Proof.
  unfold py_rules. intros H (Hf & Hc & Hi).
  destruct (exec_all funcPattern content) as [fs|]; [|discriminate].
  destruct (exec_all classPattern content) as [cs|]; [|discriminate].
  destruct (exec_all importPattern content) as [ims|]; [|discriminate].
  inversion H; subst a'. unfold lines_within. simpl.
  repeat split; apply Forall_app; split; try assumption;
    apply Forall_map_lines; intros m; apply line_of_bounds.
Qed.

Lemma empty_lines (n : nat) : lines_within n emptyAnalysis.
Proof. repeat split; constructor. Qed.

Lemma fallbackAnalysis_lines (content : string) (f : SourceFile) (a : Analysis) :
  fallbackAnalysis content f = Some a ->
  lines_within (length (split newline content)) a.
Proof.
  unfold fallbackAnalysis. intros H.
  destruct (str_in (extension f) js_family).
  - destruct (js_rules content emptyAnalysis) as [a1|] eqn:E; [|discriminate].
    pose proof (js_rules_lines _ _ _ E (empty_lines _)) as H1.
    destruct (String.eqb (extension f) "py").
    + exact (py_rules_lines _ _ _ H H1).
    + inversion H; subst; exact H1.
  - destruct (String.eqb (extension f) "py").
    + exact (py_rules_lines _ _ _ H (empty_lines _)).
    + inversion H; subst. apply empty_lines.
Qed.

(** The classes of the regex scan carry no methods. *)
Lemma fallbackAnalysis_methods (content : string) (f : SourceFile) (a : Analysis) :
  fallbackAnalysis content f = Some a ->
  Forall (fun cls => cls_methods cls = []) (classes a).
Proof.
  assert (Hmap : forall cs, Forall (fun cls => cls_methods cls = [])
                                   (map (class_of content) cs)).
  { intros cs. apply Forall_forall. intros y Hy. apply in_map_iff in Hy.
    destruct Hy as (x & <- & _). reflexivity. }
  assert (Hjs : forall a0 a1, js_rules content a0 = Some a1 ->
                              Forall (fun cls => cls_methods cls = []) (classes a0) ->
                              Forall (fun cls => cls_methods cls = []) (classes a1)).
  { unfold js_rules. intros a0 a1 H H0.
    destruct (forEach_exec functionPatterns content); [|discriminate].
    destruct (exec_all classPattern content); [|discriminate].
    destruct (forEach_exec importPatterns content); [|discriminate].
    inversion H; subst. simpl. apply Forall_app. auto. }
  assert (Hpy : forall a0 a1, py_rules content a0 = Some a1 ->
                              Forall (fun cls => cls_methods cls = []) (classes a0) ->
                              Forall (fun cls => cls_methods cls = []) (classes a1)).
  { unfold py_rules. intros a0 a1 H H0.
    destruct (exec_all funcPattern content); [|discriminate].
    destruct (exec_all classPattern content); [|discriminate].
    destruct (exec_all importPattern content); [|discriminate].
    inversion H; subst. simpl. apply Forall_app. auto. }
  unfold fallbackAnalysis. intros H.
  destruct (str_in (extension f) js_family).
  - destruct (js_rules content emptyAnalysis) as [a1|] eqn:E; [|discriminate].
    pose proof (Hjs _ _ E (Forall_nil _)) as H1.
    destruct (String.eqb (extension f) "py"); [exact (Hpy _ _ H H1)|].
    inversion H; subst; exact H1.
  - destruct (String.eqb (extension f) "py"); [exact (Hpy _ _ H (Forall_nil _))|].
    inversion H; subst. constructor.
Qed.

End LineFacts.

(** ** A whole scan *)

Module RepoFacts.
Import JsString Scanner Ast Walk ScanNotions.

Lemma parseFiles_each (env : Env) (files : list SourceFile) (pfs : list ParsedFile) :
  parseFiles env files = Some pfs ->
  Forall2 (fun f pf => parseFile env f = Some pf) files pfs.
Proof.
  intros H. destruct (ScanFacts.parseFiles_ends env files) as (pfs' & H' & Hall).
  rewrite H in H'. inversion H'; subst pfs'. exact Hall.
Qed.

Lemma parseFile_file (env : Env) (f : SourceFile) (pf : ParsedFile) :
  parseFile env f = Some pf -> file pf = f.
Proof.
  intros H. destruct (ScanFacts.parseFile_ends env f) as (pf' & H' & Hf).
  rewrite H in H'. inversion H'; subst pf'. exact Hf.
Qed.

Lemma parseFiles_files (env : Env) (files : list SourceFile) (pfs : list ParsedFile) :
  parseFiles env files = Some pfs -> map file pfs = files.
Proof.
  intros H. apply parseFiles_each in H.
  induction H as [|f pf files pfs Hpf _ IH]; [reflexivity|].
  simpl. rewrite IH, (parseFile_file _ _ _ Hpf). reflexivity.
Qed.

(** What holds of every file scanned holds of every entry of the result. *)
Lemma parseFiles_Forall (env : Env) (P : SourceFile -> Prop) (Q : ParsedFile -> Prop)
    (files : list SourceFile) (pfs : list ParsedFile) :
  (forall f pf, P f -> parseFile env f = Some pf -> Q pf) ->
  Forall P files -> parseFiles env files = Some pfs -> Forall Q pfs.
Proof.
  intros HPQ HP H. apply parseFiles_each in H.
  induction H as [|f pf files pfs Hpf _ IH]; [constructor|].
  inversion HP; subst. constructor; [eapply HPQ; eauto | apply IH; assumption].
Qed.

(** The syntax-tree analysis records no class, and at most one item. *)
Lemma analyzeAST_small (tree : TsNode) (content : string) (f : SourceFile) (a : Analysis) :
  analyzeAST tree content f = Ok a ->
  classes a = [] /\ exports a = [] /\ variables a = []
  /\ length (functions a) + length (imports a) + length (calls a) <= 1.
Proof.
  rewrite AstFacts.analyzeAST_root.
  destruct (visit true tree emptyAnalysis) as [a1|] eqn:E; [|discriminate].
  destruct (existsb cased (below tree)); [discriminate|].
  intros H; inversion H; subst. exact (AstFacts.visit_root_size _ _ E).
Qed.

(** Below a root without a case, the analysis is empty or throws. *)
Lemma analyzeAST_plain_root (tree : TsNode) (content : string) (f : SourceFile) :
  cased tree = false ->
  analyzeAST tree content f
  = if existsb cased (below tree) then Threw else Ok emptyAnalysis.
Proof.
  intros H. rewrite AstFacts.analyzeAST_root, (AstFacts.visit_no_case true tree _ H).
  reflexivity.
Qed.

(** A scanner that is not loaded scans as one without any parser. *)
Lemma parseFile_not_loaded (st : ScannerState) (disk : string -> result string)
    (parse : Language -> string -> result TsNode) (f : SourceFile) :
  Ast.treeSitterLoaded st = false ->
  parseFile (scan_env st disk parse) f = parseFile (regex_only disk) f.
Proof. unfold parseFile, scan_env. simpl. intros ->. reflexivity. Qed.

Lemma parseFiles_not_loaded (st : ScannerState) (disk : string -> result string)
    (parse : Language -> string -> result TsNode) (files : list SourceFile) :
  Ast.treeSitterLoaded st = false ->
  parseFiles (scan_env st disk parse) files = parseFiles (regex_only disk) files.
Proof.
  intros H. induction files as [|f files IH]; [reflexivity|].
  simpl. rewrite (parseFile_not_loaded st disk parse f H), IH. reflexivity.
Qed.

(** A loaded scanner sends every file with a supported extension to its
    parser; with roots that have no case, nothing is extracted. *)
Lemma parseFile_loaded (o : LoadOutcome) (disk : string -> result string)
    (parse : Language -> string -> result TsNode) (f : SourceFile) (pf : ParsedFile) :
  Ast.treeSitterLoaded (initializeParsers o) = true ->
  (forall lang content tree, parse lang content = Ok tree -> cased tree = false) ->
  str_in (extension f) supportedExtensions = true ->
  parseFile (scan_env (initializeParsers o) disk parse) f = Some pf ->
  analysis pf = emptyAnalysis.
Proof.
  intros Hl Hroot Hext. unfold parseFile, scan_env. cbn [readFile Scanner.treeSitterLoaded hasParser astAnalysis].
  destruct (disk (path f)) as [content|]; [|intros H; inversion H; reflexivity].
  rewrite Hl.
  destruct (proj2 (AstFacts.get_initialized o Hl (extension f)) Hext) as [lang ->].
  cbn [andb]. destruct (parse lang content) as [tree|] eqn:E;
    [|intros H; inversion H; reflexivity].
  rewrite (analyzeAST_plain_root tree content f (Hroot _ _ _ E)).
  destruct (existsb cased (below tree)); intros H; inversion H; reflexivity.
Qed.

(** Whatever the state of the scanner, the classes of a parsed file carry
    no methods. *)
Lemma parseFile_methods (st : ScannerState) (disk : string -> result string)
    (parse : Language -> string -> result TsNode) (f : SourceFile) (pf : ParsedFile) :
  parseFile (scan_env st disk parse) f = Some pf ->
  Forall (fun cls => cls_methods cls = []) (classes (analysis pf)).
Proof.
  unfold parseFile, scan_env. cbn [readFile Scanner.treeSitterLoaded hasParser astAnalysis].
  destruct (disk (path f)) as [content|]; [|intros H; inversion H; constructor].
  destruct (Ast.treeSitterLoaded st
            && match get (extension f) (parsers st) with Some _ => true | None => false end).
  - destruct (get (extension f) (parsers st)) as [lang|]; [|intros H; inversion H; constructor].
    destruct (parse lang content) as [tree|]; [|intros H; inversion H; constructor].
    destruct (analyzeAST tree content f) as [a|] eqn:E; [|intros H; inversion H; constructor].
    intros H; inversion H; subst. simpl.
    destruct (analyzeAST_small _ _ _ _ E) as [-> _]. constructor.
  - destruct (fallbackAnalysis content f) as [a|] eqn:E; [|discriminate].
    intros H; inversion H; subst. simpl. exact (LineFacts.fallbackAnalysis_methods _ _ _ E).
Qed.

Lemma flat_map_nil {A B : Type} (g : A -> list B) (l : list A) :
  Forall (fun x => g x = []) l -> flat_map g l = [].
Proof. induction 1 as [|x l Hx _ IH]; simpl; [reflexivity | rewrite Hx, IH; reflexivity]. Qed.

Lemma existsb_none {A : Type} (p : A -> bool) (l : list A) :
  Forall (fun x => p x = false) l -> existsb p l = false.
Proof. induction 1 as [|x l Hx _ IH]; simpl; [reflexivity | rewrite Hx, IH; reflexivity]. Qed.

Lemma fold_left_zero {A : Type} (g : A -> nat) (l : list A) :
  Forall (fun x => g x = 0) l -> forall acc, fold_left (fun sum x => sum + g x) l acc = acc.
Proof.
  induction 1 as [|x l Hx _ IH]; intros acc; simpl; [reflexivity|].
  rewrite Hx, Nat.add_0_r. apply IH.
Qed.

Lemma fold_left_sum {A : Type} (g : A -> nat) (l : list A) :
  forall acc, fold_left (fun sum x => sum + g x) l acc = acc + list_sum (map g l).
Proof.
  induction l as [|x l IH]; intros acc; simpl; [lia|]. rewrite IH. lia.
Qed.

Lemma flat_map_filter_same {A B : Type} (g : A -> list B) (p q : B -> bool) (l : list A) :
  Forall (fun x => Forall (fun y => p y = q y) (g x)) l ->
  flat_map (fun x => filter p (g x)) l = flat_map (fun x => filter q (g x)) l.
Proof.
  induction 1 as [|x l Hx _ IH]; simpl; [reflexivity|]. rewrite IH. f_equal.
  apply filter_ext_in. intros y Hy. rewrite Forall_forall in Hx. exact (Hx y Hy).
Qed.

(** On POSIX [path.resolve] never returns the empty string. *)
Lemma resolve_args_nonempty (cwd : string) (args : list string) :
  truthy (Some (Posix.resolve_args cwd args)) = true.
Proof.
  unfold Posix.resolve_args.
  destruct (Posix.resolve_loop (rev (cwd :: args)) EmptyString) as [rp abs].
  destruct abs; [reflexivity|].
  destruct (Posix.normalizeString rp (negb false)); reflexivity.
Qed.

(** On POSIX a file contributes one edge per relative import. *)
Lemma edges_of_posix (cwd : string) (pf : ParsedFile) :
  @edges_of (Posix.posix cwd) pf
  = map (fun imp => mkEdge (relativePath (file pf))
                           (Posix.resolve_args cwd [Posix.posix_dirname (path (file pf));
                                                    imp_module imp])
                           "import" 1)
        (filter (fun imp => Notions.is_relative (imp_module imp)) (imports (analysis pf))).
Proof.
  unfold edges_of. induction (imports (analysis pf)) as [|imp imps IH]; [reflexivity|].
  cbn [flat_map filter]. rewrite IH. unfold resolveImportPath at 1.
  fold (Notions.is_relative (imp_module imp)).
  destruct (Notions.is_relative (imp_module imp)); [|reflexivity].
  cbn [resolve dirname Posix.posix]. rewrite resolve_args_nonempty. reflexivity.
Qed.

Section AnyApi.
Context {P : PathApi} {F : FsPathApi}.

(** A scan always settles. *)
Lemma scanRepository_settles (w : World) (repoPath : string) :
  exists r, scanRepository w repoPath = Some r.
Proof.
  unfold scanRepository.
  destruct (getRepositoryInfo repoPath (stat w) (git w)); [|eauto].
  destruct (findSourceFiles repoPath (root w)) as [sources|]; [|eauto].
  destruct (ScanFacts.parseFiles_ends (scan_env (state w) (disk w) (parse w)) sources)
    as (pfs & -> & _).
  eauto.
Qed.

(** The steps of a scan that returns. *)
Lemma scanRepository_steps (w : World) (repoPath : string) (res : ScanResult) :
  scanRepository w repoPath = Some (Ok res) ->
  exists es sources,
    stat w = Ok true
    /\ root w = Ok es
    /\ walkDirectory repoPath repoPath es = Ok sources
    /\ parseFiles (scan_env (state w) (disk w) (parse w)) sources = Some (files res)
    /\ getRepositoryInfo repoPath (stat w) (git w) = Ok (repository res)
    /\ dependencies res = buildDependencyGraph (files res)
    /\ patterns res = detectArchitecturalPatterns (files res)
    /\ metrics res = calculateMetrics (files res)
    /\ timestamp res = now w.
Proof.
  unfold scanRepository. intros H.
  destruct (getRepositoryInfo repoPath (stat w) (git w)) as [info|] eqn:Einfo; [|discriminate].
  assert (Hstat : stat w = Ok true).
  { unfold getRepositoryInfo in Einfo. destruct (stat w) as [[|]|]; [reflexivity | |]; discriminate. }
  destruct (root w) as [es|] eqn:Eroot; [|discriminate]. simpl in H.
  destruct (walkDirectory repoPath repoPath es) as [sources|] eqn:Ewalk; [|discriminate].
  destruct (parseFiles (scan_env (state w) (disk w) (parse w)) sources) as [pfs|] eqn:Eparse;
    [|discriminate].
  inversion H; subst res. exists es, sources. simpl. repeat split; auto.
Qed.

(** The files a walk returns have a supported extension. *)
Lemma walkDirectory_supported (repoPath dir : string) (es : list entry)
    (found : list SourceFile) :
  walkDirectory repoPath dir es = Ok found ->
  Forall (fun f => str_in (extension f) supportedExtensions = true
                   /\ extension f = slice1 (extname (name f))) found.
Proof.
  intros H. apply Forall_forall. intros f Hf.
  destruct (WalkFacts.walkDirectory_spec repoPath dir es) as [_ Hspec].
  apply (Hspec found H f) in Hf. exact (WalkFacts.reaches_supported repoPath _ _ _ Hf).
Qed.

Lemma walkDirectory_app (repoPath dir : string) (a b : list entry) :
  walkDirectory repoPath dir (a ++ b)
  = match walkDirectory repoPath dir a with
    | Threw => Threw
    | Ok x =>
        match walkDirectory repoPath dir b with
        | Threw => Threw
        | Ok y => Ok (x ++ y)
        end
    end.
Proof.
  induction a as [|e a IH]; simpl.
  - destruct (walkDirectory repoPath dir b); reflexivity.
  - destruct (walkEntry repoPath dir e) as [found|]; [|reflexivity].
    rewrite IH. destruct (walkDirectory repoPath dir a) as [x|]; [|reflexivity].
    destruct (walkDirectory repoPath dir b) as [y|]; [|reflexivity].
    rewrite app_assoc. reflexivity.
Qed.

End AnyApi.

End RepoFacts.

(** ** Stable sorting, and the two paths of the server *)

Module SortFacts.
Import Whisperer.

Section ByKey.
Context {A : Type}.
Variable before : A -> A -> bool.
Variable key : A -> Z.
Hypothesis before_key : forall a b, before a b = (key a <? key b)%Z.

Lemma insert_perm (x : A) (l : list A) : Permutation (insert before x l) (x :: l).
Proof.
  induction l as [|y l IH]; simpl; [reflexivity|].
  destruct (before y x); [|reflexivity].
  rewrite IH. apply perm_swap.
Qed.

Lemma sort_perm (l : list A) : Permutation (sort before l) l.
Proof.
  induction l as [|x l IH]; simpl; [reflexivity|].
  rewrite insert_perm. constructor. exact IH.
Qed.

Lemma insert_sorted (x : A) (l : list A) :
  StronglySorted (fun a b => (key a <= key b)%Z) l ->
  StronglySorted (fun a b => (key a <= key b)%Z) (insert before x l).
Proof.
  induction 1 as [|y l Hl IH Hy]; simpl; [repeat constructor|].
  rewrite before_key. destruct (key y <? key x)%Z eqn:E.
  - apply Z.ltb_lt in E. constructor; [exact IH|].
    apply (Permutation_Forall (Permutation_sym (insert_perm x l))).
    constructor; [lia | exact Hy].
  - apply Z.ltb_ge in E. constructor; [constructor; assumption|].
    constructor; [exact E|].
    eapply Forall_impl; [|exact Hy]. simpl. intros z Hz. lia.
Qed.

Lemma sort_sorted (l : list A) :
  StronglySorted (fun a b => (key a <= key b)%Z) (sort before l).
Proof.
  induction l as [|x l IH]; simpl; [constructor | apply insert_sorted; exact IH].
Qed.

(** Elements with the same key keep their order. *)
Lemma insert_stable (k : Z) (x : A) (l : list A) :
  filter (fun a => (key a =? k)%Z) (insert before x l)
  = filter (fun a => (key a =? k)%Z) (x :: l).
Proof.
  induction l as [|y l IH]; [reflexivity|].
  simpl insert. rewrite before_key. destruct (key y <? key x)%Z eqn:E; [|reflexivity].
  apply Z.ltb_lt in E. simpl in *. rewrite IH.
  destruct (key x =? k)%Z eqn:Ex, (key y =? k)%Z eqn:Ey; try reflexivity.
  apply Z.eqb_eq in Ex, Ey. lia.
Qed.

Lemma sort_stable (k : Z) (l : list A) :
  filter (fun a => (key a =? k)%Z) (sort before l) = filter (fun a => (key a =? k)%Z) l.
Proof.
  induction l as [|x l IH]; [reflexivity|].
  simpl sort. rewrite insert_stable. simpl. rewrite IH. reflexivity.
Qed.
End ByKey.

Lemma sorted_app {A : Type} (R : A -> A -> Prop) (a b : list A) :
  StronglySorted R (a ++ b) ->
  StronglySorted R a /\ forall x y, In x a -> In y b -> R x y.
Proof.
  induction a as [|z a IH]; simpl; intros H.
  - split; [constructor | intros x y []].
  - inversion H as [|? ? Hs Hz]; subst. destruct (IH Hs) as [Ha Hab].
    rewrite Forall_app in Hz. destruct Hz as [Hza Hzb].
    split; [constructor; assumption|].
    intros x y [<-|Hx] Hy; [|auto]. rewrite Forall_forall in Hzb. auto.
Qed.

End SortFacts.

Module WhispererFacts.
Import JsString Scanner Whisperer.

Lemma compare_rank (a b : ContextFile) : (compare a b <? 0)%Z = (rank a <? rank b)%Z.
Proof.
  unfold compare, rank.
  destruct (is_readme a), (is_readme b), (is_main a), (is_main b),
           (is_important a), (is_important b); reflexivity.
Qed.

Lemma points_le (b : bool) (n : nat) : points b n <= n.
Proof. destruct b; simpl; lia. Qed.

Lemma score_le (question fileName : string) (file : ContextFile) :
  score question fileName file <= 33.
Proof.
  unfold score.
  repeat match goal with
         | |- context [points ?b ?n] =>
             let H := fresh in
             pose proof (points_le b n) as H; generalize dependent (points b n); intros
         end.
  lia.
Qed.

(** [scoredFiles] throws at a file without a name, and otherwise gives
    every file its score. *)
Lemma scoredFiles_throws (question : string) (files : list ContextFile) :
  scoredFiles question files = Threw <-> exists f, In f files /\ name f = None.
Proof.
  induction files as [|f files IH]; simpl.
  - split; [discriminate | intros (f & [] & _)].
  - destruct (name f) as [fileName|] eqn:E.
    + destruct (scoredFiles question files) as [more|].
      * split; [discriminate|]. intros (g & [<-|Hg] & Hn); [congruence|].
        assert (H : @Threw (list Scored) = Threw) by reflexivity.
        destruct IH as [_ IH]. discriminate IH. eauto.
      * split; [|reflexivity]. intros _. destruct IH as [IH _].
        destruct (IH eq_refl) as (g & Hg & Hn). eauto.
    + split; [|reflexivity]. intros _. exists f. auto.
Qed.

Lemma scoredFiles_relevant (question : string) (files : list ContextFile) (scored : list Scored) :
  scoredFiles question files = Ok scored ->
  filter (fun f => 0 <? snd f) scored = relevant question files.
Proof.
  revert scored. induction files as [|f files IH]; simpl; intros scored H.
  - inversion H; reflexivity.
  - destruct (name f) as [fileName|]; [|discriminate].
    destruct (scoredFiles question files) as [more|]; [|discriminate].
    inversion H; subst scored. simpl. rewrite (IH more eq_refl).
    destruct (0 <? score question fileName f); reflexivity.
Qed.

Lemma relevant_scores (question : string) (files : list ContextFile) :
  Forall (fun p => In (fst p) files /\ 1 <= snd p <= 33) (relevant question files).
Proof.
  apply Forall_forall. intros p Hp. unfold relevant in Hp. apply in_flat_map in Hp.
  destruct Hp as (f & Hf & Hp). destruct (name f) as [fileName|]; [|destruct Hp].
  destruct (0 <? score question fileName f) eqn:E; [|destruct Hp].
  destruct Hp as [<-|[]]. simpl. apply Nat.ltb_lt in E.
  pose proof (score_le question fileName f). split; [exact Hf | lia].
Qed.

End WhispererFacts.

Module UploadFacts.
Import JsString Scanner Upload.

Lemma set_add_fold (items : list string) :
  forall acc x, In x (fold_left set_add items acc) <-> In x acc \/ In x items.
Proof.
  induction items as [|y items IH]; intros acc x; simpl; [tauto|].
  rewrite IH. unfold set_add. destruct (str_in y acc) eqn:E.
  - split; [tauto|]. intros [H|[<-|H]]; auto.
    left. unfold str_in in E. apply existsb_exists in E.
    destruct E as (z & Hz & Ez). apply String.eqb_eq in Ez. subst. exact Hz.
  - rewrite in_app_iff. simpl. tauto.
Qed.

(** The loop, as maps and sums over the uploaded files. *)
Lemma fold_step (package_keys : string -> result (list string)) (files : list UploadedFile) :
  forall t,
    let t' := fold_left (step package_keys) files t in
    analyzedFiles t' = analyzedFiles t ++ map (analyzeFile package_keys) files
    /\ languages t'
       = fold_left set_add (map (fun f => extension_of (up_name f)) files) (languages t)
    /\ totalFunctions t'
       = totalFunctions t
         + list_sum (map (fun f => length (Server.functions (analysis (analyzeFile package_keys f))))
                         files)
    /\ totalClasses t'
       = totalClasses t
         + list_sum (map (fun f => length (Server.classes (analysis (analyzeFile package_keys f))))
                         files)
    /\ totalLines t'
       = totalLines t + list_sum (map (fun f => lineCount (analyzeFile package_keys f)) files).
Proof.
  induction files as [|f files IH]; intros t; simpl.
  - rewrite app_nil_r, !Nat.add_0_r. auto.
  - destruct (IH (step package_keys t f)) as (H1 & H2 & H3 & H4 & H5).
    rewrite H1, H2, H3, H4, H5. simpl. rewrite <- app_assoc. simpl.
    repeat split; lia.
Qed.

(** Only a file with content whose extension is [js] is analysed for
    functions, classes and exports. *)
Lemma analyzeFile_not_parsed (package_keys : string -> result (list string))
    (f : UploadedFile) :
  is_parsed f = false ->
  Server.functions (analysis (analyzeFile package_keys f)) = []
  /\ Server.classes (analysis (analyzeFile package_keys f)) = []
  /\ Server.exports (analysis (analyzeFile package_keys f)) = [].
Proof.
  unfold is_parsed, analyzeFile. simpl.
  destruct (up_content f) as [[|c s]|]; simpl; auto.
  intros ->.
  destruct (String.eqb (extension_of (up_name f)) "json" && String.eqb (up_name f) "package.json");
    [destruct (package_keys (String c s))|]; auto.
Qed.

Lemma analyzeFile_parsed (package_keys : string -> result (list string)) (f : UploadedFile) :
  is_parsed f = true ->
  analysis (analyzeFile package_keys f)
  = Server.parseJavaScriptContent (or_else (up_content f) EmptyString) (up_name f).
Proof.
  unfold is_parsed, analyzeFile. simpl.
  destruct (up_content f) as [[|c s]|]; simpl; try discriminate.
  intros ->. reflexivity.
Qed.

Lemma sum_over_parsed (package_keys : string -> result (list string))
    (g : Server.Analysis -> nat) (files : list UploadedFile) :
  (forall f, is_parsed f = false -> g (analysis (analyzeFile package_keys f)) = 0) ->
  list_sum (map (fun f => g (analysis (analyzeFile package_keys f))) files)
  = list_sum (map (fun f => g (Server.parseJavaScriptContent
                                 (or_else (up_content f) EmptyString) (up_name f)))
                  (filter is_parsed files)).
Proof.
  intros H0. induction files as [|f files IH]; [reflexivity|].
  assert (Hcons : forall x l, list_sum (x :: l) = x + list_sum l) by reflexivity.
  cbn [map filter]. rewrite Hcons. destruct (is_parsed f) eqn:E.
  - cbn [map]. rewrite Hcons, IH, (analyzeFile_parsed package_keys f E). reflexivity.
  - rewrite IH, (H0 f E). reflexivity.
Qed.

Lemma toFixed1_between (x : Q) :
  (39 # 20 <= x)%Q -> (x <= 101 # 40)%Q -> (2 <= toFixed1 x)%Q /\ (toFixed1 x <= 5 # 2)%Q.
Proof.
  intros Hlo Hhi. unfold toFixed1, Math_round.
  assert (H1 : (20 <= Qfloor (x * 10 + (1 # 2)))%Z).
  { change 20%Z with (Qfloor 20). apply Qfloor_resp_le. lra. }
  assert (H2 : (Qfloor (x * 10 + (1 # 2)) <= 25)%Z).
  { change 25%Z with (Qfloor (103 # 4)). apply Qfloor_resp_le. lra. }
  generalize dependent (Qfloor (x * 10 + (1 # 2))). intros z H1 H2.
  unfold Qle, Qdiv, Qmult, Qinv. simpl. lia.
Qed.

(** The figure [Math.random() * 0.5 + 2], computed in doubles. *)
Lemma random_figure_between (random : Q) :
  (0 <= random)%Q -> (random < 1)%Q ->
  (39 # 20 <= Double.add 2 (Double.mul random (1 # 2)))%Q
  /\ (Double.add 2 (Double.mul random (1 # 2)) <= 101 # 40)%Q.
Proof.
  intros H0 H1. unfold Double.add, Double.mul.
  assert (Hh : (0 <= random * (1 # 2))%Q) by lra.
  pose proof (DoubleFacts.fl_nonneg _ Hh) as Hn.
  destruct (DoubleFacts.fl_bounds _ Hh) as [_ Hu].
  assert (Hs : (0 <= 2 + Double.fl (random * (1 # 2)))%Q) by lra.
  destruct (DoubleFacts.fl_bounds _ Hs) as [Hl' Hu'].
  split; lra.
Qed.

End UploadFacts.

(** * Further properties of the scan *)

Import Ast Walk ScanNotions.

(** X5: [analyzeAST] reads the root of the tree and nothing else.  The
    nested calls [traverse(child)] run with [this] undefined, so the first
    node below the root that the [switch] has a case for makes the analysis
    throw, and so does a [class_declaration] at the root, whose case calls
    the undefined [extractMethods].  When it returns, the result holds no
    class, export or variable and at most one function, import or call,
    that of the root; for a root without a case it is empty. *)
Theorem analyzeAST_reads_only_the_root :
  forall tree content f,
    (existsb cased (below tree) = true -> analyzeAST tree content f = Threw)
    /\ (ts_type tree = "class_declaration" -> analyzeAST tree content f = Threw)
    /\ (cased tree = false -> existsb cased (below tree) = false ->
        analyzeAST tree content f = Ok emptyAnalysis)
    /\ (forall a, analyzeAST tree content f = Ok a ->
                  existsb cased (below tree) = false
                  /\ classes a = [] /\ exports a = [] /\ variables a = []
                  /\ length (functions a) + length (imports a) + length (calls a) <= 1).
Proof.
  intros tree content f. rewrite AstFacts.analyzeAST_root.
  split; [|split; [|split]].
  - intros ->. destruct (visit true tree emptyAnalysis); reflexivity.
  - intros H. unfold visit. rewrite H. reflexivity.
  - intros Hroot Hbelow. rewrite (AstFacts.visit_no_case true tree _ Hroot), Hbelow.
    reflexivity.
  - intros a H.
    destruct (visit true tree emptyAnalysis) as [a1|] eqn:E; [|discriminate].
    destruct (existsb cased (below tree)); [discriminate|].
    inversion H; subst a1. split; [reflexivity|].
    exact (AstFacts.visit_root_size _ _ E).
Qed.

(** X6: a scanner whose parsers all loaded extracts nothing.  When the
    parsers build trees whose root has no case (the roots of the three
    grammars are [program] and [module]), every file of a scan has the empty
    analysis: the totals of functions and classes are 0, the graph has no
    edge, and the Modules, Factory, Singleton and Observer patterns are not
    detected, whatever the files contain. *)
Theorem loaded_scanner_extracts_nothing
    (P : PathApi) (F : FsPathApi) (w : World) (o : LoadOutcome) (repoPath : string)
    (res : ScanResult) :
  state w = initializeParsers o ->
  Ast.treeSitterLoaded (state w) = true ->
  (forall lang content tree, parse w lang content = Ok tree -> cased tree = false) ->
  scanRepository w repoPath = Some (Ok res) ->
  Forall (fun pf => analysis pf = emptyAnalysis) (files res)
  /\ totalFunctions (metrics res) = 0
  /\ totalClasses (metrics res) = 0
  /\ edges (dependencies res) = []
  /\ detected (modules (patterns res)) = false
  /\ detected (factories (patterns res)) = false
  /\ detected (singletons (patterns res)) = false
  /\ detected (observers (patterns res)) = false.
Proof.
  intros Hst Hl Hroot Hscan.
  destruct (RepoFacts.scanRepository_steps w repoPath res Hscan)
    as (es & sources & _ & _ & Hwalk & Hparse & _ & -> & -> & -> & _).
  rewrite Hst in Hl, Hparse.
  assert (Hall : Forall (fun pf => analysis pf = emptyAnalysis) (files res)).
  { apply (RepoFacts.parseFiles_Forall
             (scan_env (initializeParsers o) (disk w) (parse w))
             (fun f => str_in (extension f) supportedExtensions = true) _ sources (files res));
      [| | exact Hparse].
    - intros f pf Hext Hpf. exact (RepoFacts.parseFile_loaded o _ _ f pf Hl Hroot Hext Hpf).
    - eapply Forall_impl; [|exact (RepoFacts.walkDirectory_supported _ _ _ _ Hwalk)].
      intros f [H _]. exact H. }
  split; [exact Hall|].
  assert (Hwith : forall (Q : ParsedFile -> Prop),
             (forall pf, analysis pf = emptyAnalysis -> Q pf) -> Forall Q (files res)).
  { intros Q HQ. eapply Forall_impl; [|exact Hall]. exact HQ. }
  split; [|split; [|split; [|split; [|split; [|split]]]]].
  - simpl. apply RepoFacts.fold_left_zero. apply Hwith. intros pf ->. reflexivity.
  - simpl. apply RepoFacts.fold_left_zero. apply Hwith. intros pf ->. reflexivity.
  - simpl. apply RepoFacts.flat_map_nil. apply Hwith.
    intros pf E. unfold edges_of. rewrite E. reflexivity.
  - simpl. rewrite (RepoFacts.existsb_none (fun f => 0 <? length (exports (analysis f))));
      [reflexivity|]. apply Hwith. intros pf ->. reflexivity.
  - simpl. rewrite RepoFacts.flat_map_nil; [reflexivity|].
    apply Hwith. intros pf ->. reflexivity.
  - simpl. rewrite RepoFacts.flat_map_nil; [reflexivity|].
    apply Hwith. intros pf ->. reflexivity.
  - simpl. unfold observerMethods. rewrite RepoFacts.flat_map_nil; [reflexivity|].
    apply Hwith. intros pf ->. reflexivity.
Qed.

(** The scan of the sample repository by a loaded scanner: [a.js] holds a
    function, and none is counted. *)
Lemma loaded_sample_scan_finds_no_function :
  exists res,
    @scanRepository (Posix.posix "/") (PosixFs.posix_fs "/") (sample_world all_loaded) "/repo"
    = Some (Ok res)
    /\ map (fun pf => relativePath (file pf)) (files res) = ["a.js"; "src/b.py"]
    /\ totalFunctions (metrics res) = 0
    /\ edges (dependencies res) = [].
Proof.
  destruct (@scanRepository (Posix.posix "/") (PosixFs.posix_fs "/")
                            (sample_world all_loaded) "/repo") as [[res|]|] eqn:E;
    [|vm_compute in E; discriminate E|vm_compute in E; discriminate E].
  exists res. split; [reflexivity|].
  split; [vm_compute in E; inversion E; reflexivity|].
  assert (Hroot : forall lang content tree,
             parse (sample_world all_loaded) lang content = Ok tree -> cased tree = false).
  { intros lang content tree. simpl. unfold sample_parse.
    destruct (String.eqb content "function f() {}"); intros H; inversion H; reflexivity. }
  destruct (loaded_scanner_extracts_nothing
              (Posix.posix "/") (PosixFs.posix_fs "/") (sample_world all_loaded) all_loaded
              "/repo" res eq_refl eq_refl Hroot E) as (_ & Hf & _ & He & _).
  split; [exact Hf | exact He].
Defined.

(** X7: the parsers are in use only when every step of their loading went
    through, and then the extensions that have a parser are exactly the six
    the walk collects, so no collected file goes to the regex scan.  When a
    step fails the parsers created before it stay in the table but are never
    used: every file is scanned as if there were none. *)
Theorem parsers_used_only_when_all_loaded :
  forall o,
    (Ast.treeSitterLoaded (initializeParsers o) = true
     <-> imports_ok o && js_ok o && ts_ok o && py_ok o = true)
    /\ (Ast.treeSitterLoaded (initializeParsers o) = true ->
        forall ext,
          (exists lang, get ext (parsers (initializeParsers o)) = Some lang)
          <-> str_in ext supportedExtensions = true)
    /\ (Ast.treeSitterLoaded (initializeParsers o) = false ->
        forall disk parse files,
          parseFiles (scan_env (initializeParsers o) disk parse) files
          = parseFiles (regex_only disk) files)
    /\ map fst (parsers (initializeParsers python_missing)) = ["js"; "jsx"; "mjs"; "ts"; "tsx"].
Proof.
  intros o. split; [|split; [|split]].
  - unfold initializeParsers.
    destruct (imports_ok o), (js_ok o), (ts_ok o), (py_ok o); simpl; split;
      (reflexivity || discriminate).
  - exact (AstFacts.get_initialized o).
  - intros H disk parse files. apply RepoFacts.parseFiles_not_loaded. exact H.
  - reflexivity.
Qed.

(** X8: [findSourceFiles] throws exactly when the walk meets a walked
    directory that cannot be listed or a file with a supported extension
    whose size cannot be read; otherwise it returns exactly the regular
    files with a supported extension that lie in the repository or below
    directories that are walked, each with the extension the name gives.
    Entries that are neither files nor directories are passed over, and so
    are files with another extension, whose size is not read. *)
Theorem findSourceFiles_finds_the_supported_files :
  forall (F : FsPathApi) (repoPath : string) (es : list entry),
    (findSourceFiles repoPath (Ok es) = Threw <-> blocked es)
    /\ (forall found,
           findSourceFiles repoPath (Ok es) = Ok found ->
           (forall f, In f found <-> reaches repoPath repoPath es f)
           /\ Forall (fun f => str_in (extension f) supportedExtensions = true
                               /\ extension f = slice1 (extname (name f))) found)
    /\ (forall name, findSourceFiles repoPath (Ok (Other name :: es))
                     = findSourceFiles repoPath (Ok es))
    /\ (forall name stat,
           str_in (slice1 (extname name)) supportedExtensions = false ->
           findSourceFiles repoPath (Ok (File name stat :: es))
           = findSourceFiles repoPath (Ok es)).
Proof.
  intros F repoPath es. simpl.
  destruct (WalkFacts.walkDirectory_spec repoPath repoPath es) as [Hthrow Hfound].
  split; [exact Hthrow|]. split; [|split].
  - intros found H. split; [exact (Hfound found H)|].
    exact (RepoFacts.walkDirectory_supported _ _ _ _ H).
  - intros name. destruct (walkDirectory repoPath repoPath es); reflexivity.
  - intros name stat H. rewrite H.
    destruct (walkDirectory repoPath repoPath es); reflexivity.
Qed.

(** X9: a directory named in [ignoreDirs], or whose name begins with a dot,
    is never listed: the walk gives the same result whatever the directory
    holds, also when it cannot be read. *)
Theorem ignored_directories_are_never_read
    (F : FsPathApi) (repoPath dir name : string) (listing : result (list entry))
    (before after : list entry) :
  str_in name ignoreDirs = true \/ startsWith name "." = true ->
  walkDirectory repoPath dir (before ++ Dir name listing :: after)
  = walkDirectory repoPath dir (before ++ after).
Proof.
  intros H.
  assert (W : walked name = false).
  { unfold walked. destruct H as [-> | ->]; [reflexivity | apply andb_false_r]. }
  rewrite !RepoFacts.walkDirectory_app.
  destruct (walkDirectory repoPath dir before) as [x|]; [|reflexivity].
  f_equal.
  change (walkDirectory repoPath dir (Dir name listing :: after))
    with (match walkEntry repoPath dir (Dir name listing) with
          | Threw => Threw
          | Ok found =>
              match walkDirectory repoPath dir after with
              | Threw => Threw
              | Ok more => Ok (found ++ more)
              end
          end).
  assert (E : walkEntry repoPath dir (Dir name listing) = Ok []).
  { destruct listing as [sub|]; [rewrite WalkFacts.walkEntry_dir | simpl]; rewrite W; reflexivity. }
  rewrite E. destruct (walkDirectory repoPath dir after); reflexivity.
Qed.

(** The unreadable [node_modules] of the sample repository does not stop
    the walk. *)
Lemma unreadable_node_modules_is_skipped :
  str_in "node_modules" ignoreDirs = true
  /\ @findSourceFiles (PosixFs.posix_fs "/") "/repo" (Ok sample_root)
     = @findSourceFiles (PosixFs.posix_fs "/") "/repo"
         (Ok [File "a.js" (Ok 16); File "notes.txt" (Ok 5);
              Dir "src" (Ok [File "b.py" (Ok 12)])]).
Proof.
  split; [reflexivity|].
  exact (ignored_directories_are_never_read
           (PosixFs.posix_fs "/") "/repo" "/repo" "node_modules" Threw
           [File "a.js" (Ok 16); File "notes.txt" (Ok 5)]
           [Dir "src" (Ok [File "b.py" (Ok 12)])]
           (or_introl eq_refl)).
Defined.

(** X10: on POSIX a file name (which holds no slash) is collected exactly
    when it is a non-empty stem, a dot, and one of [js], [jsx], [ts], [tsx],
    [py], [mjs] written in lower case.  A name that is only the dot and the
    extension, such as [.js], is not collected. *)
Theorem collected_names_on_posix (name : string) :
  free_of Posix.slash name = true ->
  (str_in (slice1 (PosixFs.extname name)) supportedExtensions = true
   <-> exists stem ext,
         name = (stem ++ "." ++ ext)%string
         /\ stem <> EmptyString
         /\ In ext supportedExtensions).
Proof.
  intros Hs. split.
  - intros H. destruct (PathFacts.last_dot name) as [Hd|(pre & e & -> & He)].
    + rewrite (PathFacts.extname_no_dot name Hs Hd) in H. discriminate.
    + rewrite PathFacts.free_of_append in Hs. apply andb_true_iff in Hs.
      destruct Hs as [Hp Hse].
      assert (Hse' : free_of Posix.slash e = true).
      { unfold free_of, lacks in *. simpl in Hse. exact Hse. }
      destruct pre as [|c pre].
      * simpl in H. rewrite (PathFacts.extname_dotfile e Hse' He) in H. discriminate.
      * destruct e as [|d e].
        -- rewrite (PathFacts.extname_trailing_dot (String c pre) Hp) in H. discriminate.
        -- rewrite (PathFacts.extname_parts (String c pre) (String d e)) in H;
             try assumption; try discriminate.
           exists (String c pre), (String d e). split; [reflexivity|].
           split; [discriminate|]. apply DedupFacts.str_in_In. exact H.
  - intros (stem & ext & -> & Hstem & Hext).
    destruct (PathFacts.supported_plain ext Hext) as (Hne & Hd & Hse).
    rewrite PathFacts.free_of_append in Hs. apply andb_true_iff in Hs.
    destruct Hs as [Hp _].
    change ("." ++ ext)%string with (String PosixFs.dot ext).
    rewrite (PathFacts.extname_parts stem ext Hstem Hne Hp Hse Hd).
    apply DedupFacts.str_in_In. exact Hext.
Qed.

(** [app.test.js] is collected, with the stem [app.test]. *)
Lemma app_test_js_is_collected :
  free_of Posix.slash "app.test.js" = true
  /\ (str_in (slice1 (PosixFs.extname "app.test.js")) supportedExtensions = true
      <-> exists stem ext,
            "app.test.js" = (stem ++ "." ++ ext)%string
            /\ stem <> EmptyString
            /\ In ext supportedExtensions).
Proof.
  split; [reflexivity|].
  exact (collected_names_on_posix "app.test.js" eq_refl).
Defined.

(** X11: a scan always settles.  It rejects exactly when the path is not a
    directory that can be examined, or the repository cannot be listed, or
    the walk meets a walked directory that cannot be listed or a source file
    whose size cannot be read; a file whose content cannot be read or parsed
    never makes it reject.  When it returns, the
    parsed files are the collected files in the order of the walk, the graph
    has one node per file with the file's relative path as id, the totals of
    the metrics are the sums over the nodes, the languages are among the six
    supported extensions, and the repository is described from the branch
    and commits of git when there are any, from the base name otherwise. *)
Theorem scanRepository_settles_and_agrees :
  forall (P : PathApi) (F : FsPathApi) (w : World) (repoPath : string),
    (exists r, scanRepository w repoPath = Some r)
    /\ (scanRepository w repoPath = Some Threw
        <-> stat w <> Ok true \/ root w = Threw \/ exists es, root w = Ok es /\ blocked es)
    /\ (forall res,
           scanRepository w repoPath = Some (Ok res) ->
           findSourceFiles repoPath (root w) = Ok (map file (files res))
           /\ map id (nodes (dependencies res))
              = map (fun pf => relativePath (file pf)) (files res)
           /\ totalFiles (metrics res) = length (nodes (dependencies res))
           /\ totalFunctions (metrics res)
              = list_sum (map node_functions (nodes (dependencies res)))
           /\ totalClasses (metrics res)
              = list_sum (map node_classes (nodes (dependencies res)))
           /\ Forall (fun ext => In ext supportedExtensions) (languages (metrics res))
           /\ repository res
              = match git w with
                | Some g => Local repoPath (current g) (length (all_commits g))
                                  (hd_error (all_commits g))
                | None => Directory repoPath (basename repoPath)
                end
           /\ timestamp res = now w).
Proof.
  intros P F w repoPath. split; [apply RepoFacts.scanRepository_settles|]. split.
  - unfold scanRepository, getRepositoryInfo.
    destruct (stat w) as [[|]|].
    + assert (Hinfo : exists info,
                 match git w with
                 | Some g => Ok (Local repoPath (current g) (length (all_commits g))
                                       (hd_error (all_commits g)))
                 | None => Ok (Directory repoPath (basename repoPath))
                 end = Ok info) by (destruct (git w); eauto).
      destruct Hinfo as [info ->].
      destruct (root w) as [es|]; simpl.
      * destruct (WalkFacts.walkDirectory_spec repoPath repoPath es) as [Hthrow _].
        destruct (walkDirectory repoPath repoPath es) as [sources|].
        -- destruct (ScanFacts.parseFiles_ends (scan_env (state w) (disk w) (parse w)) sources)
             as (pfs & -> & _).
           split; [discriminate|].
           intros [H|[H|(es' & H & Hb)]]; [congruence | discriminate|].
           inversion H; subst es'. apply Hthrow in Hb. discriminate.
        -- split; [|reflexivity]. intros _. right. right. exists es.
           split; [reflexivity | apply Hthrow; reflexivity].
      * split; [|reflexivity]. intros _. right. left. reflexivity.
    + split; [|reflexivity]. intros _. left. discriminate.
    + split; [|reflexivity]. intros _. left. discriminate.
  - intros res Hscan.
    destruct (RepoFacts.scanRepository_steps w repoPath res Hscan)
      as (es & sources & Hstat & Hroot & Hwalk & Hparse & Hinfo & -> & _ & -> & Hnow).
    split; [|split; [|split; [|split; [|split; [|split; [|split]]]]]].
    + rewrite Hroot. simpl. rewrite Hwalk, (RepoFacts.parseFiles_files _ _ _ Hparse).
      reflexivity.
    + apply GraphFacts.node_ids.
    + simpl. rewrite length_map. reflexivity.
    + simpl. rewrite RepoFacts.fold_left_sum, map_map. reflexivity.
    + simpl. rewrite RepoFacts.fold_left_sum, map_map. reflexivity.
    + simpl languages.
      assert (Hset : forall items acc x,
                 In x (fold_left set_add items acc) -> In x acc \/ In x items).
      { induction items as [|y items IH]; intros acc x Hx; simpl in *; [auto|].
        apply IH in Hx. destruct Hx as [Hx|Hx]; [|auto].
        unfold set_add in Hx. destruct (str_in y acc); [auto|].
        apply in_app_iff in Hx. destruct Hx as [Hx|[<-|[]]]; auto. }
      apply Forall_forall. intros ext Hext. apply Hset in Hext.
      destruct Hext as [[]|Hext].
      apply in_map_iff in Hext. destruct Hext as (pf & <- & Hpf).
      pose proof (RepoFacts.walkDirectory_supported _ _ _ _ Hwalk) as Hsup.
      rewrite <- (RepoFacts.parseFiles_files _ _ _ Hparse) in Hsup.
      rewrite Forall_forall in Hsup.
      apply DedupFacts.str_in_In. apply Hsup. apply in_map. exact Hpf.
    + unfold getRepositoryInfo in Hinfo. rewrite Hstat in Hinfo.
      destruct (git w); inversion Hinfo; reflexivity.
    + exact Hnow.
Qed.

(** X12: the line numbers the regex scan records are line numbers of the
    file: each function, class and import of a file scanned without
    syntax-tree parsers has a line between 1 and the file's line count. *)
Theorem regex_lines_are_lines_of_the_file (env : Env) (f : SourceFile) (pf : ParsedFile) :
  Scanner.treeSitterLoaded env = false ->
  parseFile env f = Some pf ->
  lines_within (lineCount pf) (analysis pf).
Proof.
  unfold parseFile. intros -> H. simpl in H.
  destruct (readFile env (path f)) as [content|].
  - destruct (fallbackAnalysis content f) as [a|] eqn:E; [|discriminate].
    inversion H; subst pf. simpl. exact (LineFacts.fallbackAnalysis_lines _ _ _ E).
  - inversion H; subst pf. apply LineFacts.empty_lines.
Qed.

(** The two imports of [a.js] are on its lines 1 and 2. *)
Lemma a_js_imports_are_on_lines_1_and_2 :
  exists pf,
    parseFile (regex_env ab_disk) a_js = Some pf
    /\ map imp_line (imports (analysis pf)) = [1; 2]
    /\ lineCount pf = 2
    /\ lines_within (lineCount pf) (analysis pf).
Proof.
  destruct (parseFile (regex_env ab_disk) a_js) as [pf|] eqn:E;
    [|vm_compute in E; discriminate E].
  exists pf. split; [reflexivity|].
  split; [vm_compute in E; inversion E; reflexivity|].
  split; [vm_compute in E; inversion E; reflexivity|].
  exact (regex_lines_are_lines_of_the_file (regex_env ab_disk) a_js pf eq_refl E).
Defined.

(** X13: the [getInstance] rule of the Singleton detector never applies in
    a scan: no class of a scanned file carries a method, whichever way the
    file was analysed, so the singletons counted are the classes whose name
    holds [singleton]. *)
Theorem singletons_are_found_by_name_only
    (P : PathApi) (F : FsPathApi) (w : World) (repoPath : string) (res : ScanResult) :
  scanRepository w repoPath = Some (Ok res) ->
  Forall (fun pf => Forall (fun cls => cls_methods cls = []) (classes (analysis pf)))
         (files res)
  /\ evidence (singletons (patterns res)) = length (named_singleton (files res))
  /\ detected (singletons (patterns res)) = (0 <? length (named_singleton (files res))).
Proof.
  intros Hscan.
  destruct (RepoFacts.scanRepository_steps w repoPath res Hscan)
    as (es & sources & _ & _ & _ & Hparse & _ & _ & -> & _ & _).
  assert (Hall : Forall (fun pf => Forall (fun cls => cls_methods cls = [])
                                          (classes (analysis pf))) (files res)).
  { apply (RepoFacts.parseFiles_Forall (scan_env (state w) (disk w) (parse w))
             (fun _ => True) _ sources (files res));
      [| apply Forall_forall; intros; exact I | exact Hparse].
    intros f pf _ Hpf. exact (RepoFacts.parseFile_methods _ _ _ f pf Hpf). }
  split; [exact Hall|].
  assert (E : flat_map (fun f => filter (fun cls => includes (toLowerCase (cls_name cls)) "singleton"
                                           || existsb (fun m => String.eqb (method_name m) "getInstance")
                                                      (cls_methods cls))
                                        (classes (analysis f))) (files res)
              = named_singleton (files res)).
  { unfold named_singleton.
    apply (RepoFacts.flat_map_filter_same (fun f => classes (analysis f))).
    eapply Forall_impl; [|exact Hall]. intros pf Hpf.
    eapply Forall_impl; [|exact Hpf]. intros cls ->. apply orb_false_r. }
  simpl. rewrite E. split; reflexivity.
Qed.

(** The scan of the sample repository without the Python grammar finds no
    singleton. *)
Lemma sample_scan_has_no_singleton :
  exists res,
    @scanRepository (Posix.posix "/") (PosixFs.posix_fs "/") (sample_world python_missing) "/repo"
    = Some (Ok res)
    /\ totalFunctions (metrics res) = 1
    /\ evidence (singletons (patterns res)) = length (named_singleton (files res)).
Proof.
  destruct (@scanRepository (Posix.posix "/") (PosixFs.posix_fs "/")
                            (sample_world python_missing) "/repo") as [[res|]|] eqn:E;
    [|vm_compute in E; discriminate E|vm_compute in E; discriminate E].
  exists res. split; [reflexivity|].
  split; [vm_compute in E; inversion E; reflexivity|].
  exact (proj1 (proj2 (singletons_are_found_by_name_only
                         (Posix.posix "/") (PosixFs.posix_fs "/")
                         (sample_world python_missing) "/repo" res E))).
Defined.

(** X18: on POSIX the edges of the graph are the relative imports, one edge
    each, in the order of the files and of their imports: nothing is
    deduplicated and no import that begins with [./] or [../] is dropped,
    whether or not its target is a scanned file, so the number of edges is
    the number of relative imports and a file that imports [./b] twice gets
    two equal edges. *)
Theorem posix_edges_are_the_relative_imports :
  forall cwd files,
    edges (@buildDependencyGraph (Posix.posix cwd) files)
    = flat_map
        (fun pf =>
           map (fun imp =>
                  mkEdge (relativePath (file pf))
                         (Posix.resolve_args cwd [Posix.posix_dirname (path (file pf));
                                                  imp_module imp])
                         "import" 1)
               (filter (fun imp => Notions.is_relative (imp_module imp))
                       (imports (analysis pf))))
        files
    /\ length (edges (@buildDependencyGraph (Posix.posix cwd) files))
       = list_sum (map (fun pf => length (filter (fun imp => Notions.is_relative (imp_module imp))
                                                 (imports (analysis pf))))
                       files)
    /\ edges (@buildDependencyGraph (Posix.posix cwd)
                [parsed a_js EmptyString
                        (mkAnalysis [] [] [mkImport "./b" 1 "import"; mkImport "./b" 2 "import"]
                                    [] [] [])])
       = [mkEdge "a.js" "/repo/b" "import" 1; mkEdge "a.js" "/repo/b" "import" 1].
Proof.
  intros cwd.
  assert (H : forall files,
             edges (@buildDependencyGraph (Posix.posix cwd) files)
             = flat_map
                 (fun pf =>
                    map (fun imp =>
                           mkEdge (relativePath (file pf))
                                  (Posix.resolve_args cwd
                                     [Posix.posix_dirname (path (file pf)); imp_module imp])
                                  "import" 1)
                        (filter (fun imp => Notions.is_relative (imp_module imp))
                                (imports (analysis pf))))
                 files).
  { intros files. simpl. induction files as [|pf files IH]; [reflexivity|].
    simpl. rewrite IH, RepoFacts.edges_of_posix. reflexivity. }
  intros files. split; [apply H|]. split.
  - rewrite H. induction files as [|pf files IH]; [reflexivity|].
    simpl. rewrite length_app, length_map, IH. reflexivity.
  - rewrite H. simpl. unfold Posix.resolve_args. simpl rev.
    assert (E : forall acc, Posix.resolve_loop ["./b"; "/repo"; cwd] acc
                            = (("/repo" ++ "/" ++ "./b" ++ "/" ++ acc)%string, true))
      by reflexivity.
    rewrite E. reflexivity.
Qed.

(** * Further properties of the server *)

(** X14: the totals of an upload count the JavaScript files only.  The
    analysed files are the uploaded ones in order; a file is searched for
    functions, classes and exports only if it has content and the text after
    the last dot of its name is [js] in any case, so that [.ts], [.jsx],
    [.mjs] and [.py] files add lines but no function or class to the totals,
    while [LIB.JS] is analysed. *)
Theorem upload_totals_count_js_files_only :
  forall package_keys random now uploaded,
    let r := Upload.analyzeUploadedFiles package_keys random now uploaded in
    map Upload.name (Upload.files r) = map Upload.up_name uploaded
    /\ Upload.m_totalFiles (Upload.metrics r) = length (Upload.files r)
    /\ Upload.m_totalLines (Upload.metrics r) = list_sum (map Upload.lineCount (Upload.files r))
    /\ Upload.m_totalFunctions (Upload.metrics r)
       = list_sum (map (fun f => length (Server.functions
                                           (Server.parseJavaScriptContent
                                              (or_else (Upload.up_content f) EmptyString)
                                              (Upload.up_name f))))
                       (filter Upload.is_parsed uploaded))
    /\ Upload.m_totalClasses (Upload.metrics r)
       = list_sum (map (fun f => length (Server.classes
                                           (Server.parseJavaScriptContent
                                              (or_else (Upload.up_content f) EmptyString)
                                              (Upload.up_name f))))
                       (filter Upload.is_parsed uploaded))
    /\ (forall f, Upload.is_parsed f = false ->
                  Server.functions (Upload.analysis (Upload.analyzeFile package_keys f)) = []
                  /\ Server.classes (Upload.analysis (Upload.analyzeFile package_keys f)) = []
                  /\ Server.exports (Upload.analysis (Upload.analyzeFile package_keys f)) = [])
    /\ map (fun n => Upload.is_parsed (Upload.mkUpload n (Some "function f() {}") None))
           ["LIB.JS"; "app.ts"; "App.jsx"; "lib.mjs"; "main.py"]
       = [true; false; false; false; false].
Proof.
  intros package_keys random now uploaded r. subst r. unfold Upload.analyzeUploadedFiles.
  destruct (UploadFacts.fold_step package_keys uploaded (Upload.mkTotals [] [] 0 0 0))
    as (H1 & _ & H3 & H4 & H5).
  simpl in H1, H3, H4, H5. simpl.
  split; [rewrite H1, map_map; reflexivity|].
  split; [rewrite H1, length_map; reflexivity|].
  split; [rewrite H1, H5, map_map; reflexivity|].
  split.
  { rewrite H3.
    apply (UploadFacts.sum_over_parsed package_keys (fun a => length (Server.functions a))).
    intros f Hf. destruct (UploadFacts.analyzeFile_not_parsed package_keys f Hf) as (-> & _).
    reflexivity. }
  split.
  { rewrite H4.
    apply (UploadFacts.sum_over_parsed package_keys (fun a => length (Server.classes a))).
    intros f Hf. destruct (UploadFacts.analyzeFile_not_parsed package_keys f Hf) as (_ & -> & _).
    reflexivity. }
  split; [exact (UploadFacts.analyzeFile_not_parsed package_keys) | reflexivity].
Qed.

(** X15: the dependency graph and the patterns of an upload do not come
    from the uploaded files.  The graph is the single node [index.js] without
    edges, or, exactly when some file has the extension [js] and some file is
    named [package.json], the four nodes [index.js], [server.js], [routes.js]
    and [middleware.js] with two edges from [server.js]; the Modules pattern
    is always reported as detected, with the double 0.9 as confidence, and
    the Factory pattern never, with the double 0.2; the average complexity is
    a random figure between 2.0 and 2.5. *)
Theorem upload_graph_and_patterns_are_canned :
  forall package_keys random now uploaded,
    let r := Upload.analyzeUploadedFiles package_keys random now uploaded in
    let hasNode :=
      (exists f, In f uploaded /\ Upload.extension_of (Upload.up_name f) = "js")
      /\ (exists f, In f uploaded /\ Upload.up_name f = "package.json") in
    (hasNode ->
     map Upload.id (Upload.nodes (Upload.dependencies r))
     = ["index.js"; "server.js"; "routes.js"; "middleware.js"]
     /\ Upload.edges (Upload.dependencies r)
        = [("server.js", "routes.js"); ("server.js", "middleware.js")])
    /\ (~ hasNode ->
        map Upload.id (Upload.nodes (Upload.dependencies r)) = ["index.js"]
        /\ Upload.edges (Upload.dependencies r) = [])
    /\ In ("modules", Upload.mkMockVerdict true (Double.fl (9 # 10))) (Upload.patterns r)
    /\ In ("factories", Upload.mkMockVerdict false (Double.fl (2 # 10))) (Upload.patterns r)
    /\ ((0 <= random)%Q -> (random < 1)%Q ->
        (2 <= Upload.m_avgComplexity (Upload.metrics r))%Q
        /\ (Upload.m_avgComplexity (Upload.metrics r) <= 5 # 2)%Q).
Proof.
  intros package_keys random now uploaded r hasNode. subst r.
  unfold Upload.analyzeUploadedFiles.
  destruct (UploadFacts.fold_step package_keys uploaded (Upload.mkTotals [] [] 0 0 0))
    as (_ & H2 & _).
  simpl in H2. cbn [Upload.dependencies Upload.patterns Upload.metrics Upload.m_avgComplexity].
  set (flag := str_in "js" _ && existsb _ uploaded).
  assert (Hflag : flag = true <-> hasNode).
  { subst flag hasNode. rewrite andb_true_iff, H2, DedupFacts.str_in_In,
      UploadFacts.set_add_fold, in_map_iff, existsb_exists.
    split.
    - intros [[[]|(f & Hext & Hf)] (g & Hg & Hname)].
      apply String.eqb_eq in Hname. split; eauto.
    - intros [(f & Hf & Hext) (g & Hg & Hname)]. split.
      + right. eauto.
      + exists g. split; [exact Hg | apply String.eqb_eq; exact Hname]. }
  split; [|split; [|split; [|split]]].
  - intros H. apply Hflag in H. rewrite H. split; reflexivity.
  - intros H. destruct flag; [destruct H; apply Hflag; reflexivity | split; reflexivity].
  - left. reflexivity.
  - right. left. reflexivity.
  - intros H0 H1.
    destruct (UploadFacts.random_figure_between random H0 H1) as [Hlo Hhi].
    apply UploadFacts.toFixed1_between; assumption.
Qed.

(** X16: [selectRelevantFiles] returns the eight best files.  It throws
    exactly when a file of the context has no name; without a list of files
    it returns nothing.  Otherwise the files returned are at most eight, each
    one a file of the context with its score, between 1 and 33; they are in
    decreasing order of score, files of equal score in the order of the
    context; and the files of positive score left out, if any, are left out
    of a full list of eight and score no more than any file returned. *)
Theorem selectRelevantFiles_returns_the_best_eight :
  forall question files,
    (Whisperer.selectRelevantFiles question (Some files) = Threw
     <-> exists f, In f files /\ Whisperer.name f = None)
    /\ Whisperer.selectRelevantFiles question None = Ok []
    /\ (forall selected,
           Whisperer.selectRelevantFiles question (Some files) = Ok selected ->
           length selected <= 8
           /\ Forall (fun p => In (fst p) files /\ 1 <= snd p <= 33) selected
           /\ StronglySorted (fun a b => snd b <= snd a) selected
           /\ exists rest,
               Permutation (selected ++ rest) (Whisperer.relevant question files)
               /\ (forall x y, In x selected -> In y rest -> snd y <= snd x)
               /\ (rest <> [] -> length selected = 8)
               /\ forall s,
                   filter (fun p => snd p =? s) (Whisperer.relevant question files)
                   = filter (fun p => snd p =? s) selected
                     ++ filter (fun p => snd p =? s) rest).
Proof.
  intros question files. unfold Whisperer.selectRelevantFiles.
  split; [|split; [reflexivity|]].
  - rewrite <- (WhispererFacts.scoredFiles_throws question files).
    destruct (Whisperer.scoredFiles question files); split; intros H;
      (reflexivity || discriminate H).
  - intros selected H.
    destruct (Whisperer.scoredFiles question files) as [scored|] eqn:E; [|discriminate].
    rewrite (WhispererFacts.scoredFiles_relevant question files scored E) in H.
    set (before := fun y x : Whisperer.Scored => snd x <? snd y) in H.
    set (key := fun p : Whisperer.Scored => (- Z.of_nat (snd p))%Z).
    assert (Hkey : forall a b, before a b = (key a <? key b)%Z).
    { intros a b. unfold before, key.
      destruct (snd b <? snd a) eqn:L; symmetry.
      - apply Nat.ltb_lt in L. apply Z.ltb_lt. lia.
      - apply Nat.ltb_ge in L. apply Z.ltb_ge. lia. }
    set (sorted := Whisperer.sort before (Whisperer.relevant question files)) in H.
    pose proof (SortFacts.sort_perm before (Whisperer.relevant question files)) as Hperm.
    pose proof (SortFacts.sort_sorted before key Hkey (Whisperer.relevant question files))
      as Hsorted.
    fold sorted in Hperm, Hsorted.
    assert (Hsel : selected = firstn 8 sorted) by (inversion H; reflexivity).
    subst selected. clear H.
    rewrite <- (firstn_skipn 8 sorted) in Hperm, Hsorted.
    destruct (SortFacts.sorted_app _ _ _ Hsorted) as [Hfirst Hcross].
    split; [apply firstn_le_length|].
    split.
    { assert (Hall : Forall (fun p => In (fst p) files /\ 1 <= snd p <= 33)
                            (firstn 8 sorted ++ skipn 8 sorted)).
      { apply (Permutation_Forall (Permutation_sym Hperm)).
        apply WhispererFacts.relevant_scores. }
      apply Forall_app in Hall. exact (proj1 Hall). }
    split.
    { clear -Hfirst. induction Hfirst as [|a l Hl IH Ha]; constructor; [exact IH|].
      eapply Forall_impl; [|exact Ha]. unfold key. simpl. intros b Hb. lia. }
    exists (skipn 8 sorted). split; [exact Hperm|]. split; [|split].
    + intros x y Hx Hy. specialize (Hcross x y Hx Hy). unfold key in Hcross. lia.
    + intros Hrest. rewrite length_firstn.
      destruct (Nat.le_gt_cases 8 (length sorted)) as [Hlen|Hlen]; [lia|].
      destruct Hrest. apply skipn_all2. lia.
    + intros s. rewrite <- filter_app, firstn_skipn. unfold sorted.
      pose proof (SortFacts.sort_stable before key Hkey (- Z.of_nat s)%Z
                                        (Whisperer.relevant question files)) as Hst.
      assert (Hsame : forall l : list Whisperer.Scored,
                 filter (fun a => (key a =? - Z.of_nat s)%Z) l
                 = filter (fun p => snd p =? s) l).
      { intros l. apply filter_ext. intros a. unfold key.
        destruct (snd a =? s) eqn:Es.
        - apply Nat.eqb_eq in Es. apply Z.eqb_eq. lia.
        - apply Nat.eqb_neq in Es. apply Z.eqb_neq. lia. }
      rewrite !Hsame in Hst. symmetry. exact Hst.
Qed.

(** X17: [filterFilesForAI] reads the name and the extension of a file and
    nothing else.  It keeps exactly the files whose extension is not a binary
    one and not [pyc], and whose name contains none of [.cpython-],
    [__pycache__], [node_modules] and [.git/]; the path is not read, so a file
    that lies in a cache directory is kept.  The files kept are ordered by
    three tests, the first that differs deciding: README in the name, then
    main or index in the name, then an important extension.  Files that agree
    on all three tests keep the order they came in; files that differ in a
    later test do not, and [README] before [README.md] comes out after it. *)
Theorem filterFilesForAI_filters_by_name_orders_by_rank :
  forall files,
    Permutation (Whisperer.filterFilesForAI files) (filter Whisperer.kept files)
    /\ (forall f, In f (Whisperer.filterFilesForAI files)
                  <-> In f files /\ Whisperer.kept f = true)
    /\ (forall f,
           Whisperer.kept f = true
           <-> str_in (Whisperer.lower_or_empty (Whisperer.extension f))
                      Whisperer.binaryExtensions = false
               /\ Whisperer.lower_or_empty (Whisperer.extension f) <> "pyc"
               /\ Forall (fun part =>
                            includes (Whisperer.lower_or_empty (Whisperer.name f)) part = false)
                         [".cpython-"; "__pycache__"; "node_modules"; ".git/"])
    /\ (forall a b,
           (Whisperer.compare a b < 0)%Z
           <-> (Whisperer.is_readme a = true /\ Whisperer.is_readme b = false)
               \/ (Whisperer.is_readme a = Whisperer.is_readme b
                   /\ Whisperer.is_main a = true /\ Whisperer.is_main b = false)
               \/ (Whisperer.is_readme a = Whisperer.is_readme b
                   /\ Whisperer.is_main a = Whisperer.is_main b
                   /\ Whisperer.is_important a = true /\ Whisperer.is_important b = false))
    /\ StronglySorted (fun a b => (0 <= Whisperer.compare b a)%Z)
                      (Whisperer.filterFilesForAI files)
    /\ (forall readme main important,
           let agree f :=
             Bool.eqb (Whisperer.is_readme f) readme
             && Bool.eqb (Whisperer.is_main f) main
             && Bool.eqb (Whisperer.is_important f) important in
           filter agree (Whisperer.filterFilesForAI files)
           = filter agree (filter Whisperer.kept files))
    /\ Whisperer.filterFilesForAI
         [Whisperer.mkContext (Some "x.js") (Some "node_modules/x.js") (Some "js")
                              None None None]
       = [Whisperer.mkContext (Some "x.js") (Some "node_modules/x.js") (Some "js")
                              None None None]
    /\ map Whisperer.name
           (Whisperer.filterFilesForAI
              [Whisperer.mkContext (Some "README") (Some "README") None None None None;
               Whisperer.mkContext (Some "README.md") (Some "README.md") (Some "md")
                                   None None None])
       = [Some "README.md"; Some "README"]
    /\ map Whisperer.name (Whisperer.filterFilesForAI (rev Whisperer.sample_context))
       = [Some "README.md"; Some "auth.js"].
Proof.
  intros files. unfold Whisperer.filterFilesForAI.
  set (before := fun y x => (Whisperer.compare y x <? 0)%Z).
  assert (Hkey : forall a b, before a b = (Whisperer.rank a <? Whisperer.rank b)%Z)
    by exact WhispererFacts.compare_rank.
  pose proof (SortFacts.sort_perm before (filter Whisperer.kept files)) as Hperm.
  split; [exact Hperm|].
  split.
  { intros f. rewrite <- filter_In. split; intros H.
    - exact (Permutation_in _ Hperm H).
    - exact (Permutation_in _ (Permutation_sym Hperm) H). }
  split.
  { intros f. unfold Whisperer.kept. cbv zeta.
    rewrite !Forall_cons_iff.
    destruct (str_in (Whisperer.lower_or_empty (Whisperer.extension f))
                     Whisperer.binaryExtensions).
    { split; [discriminate | intros [H _]; discriminate]. }
    destruct (String.eqb_spec (Whisperer.lower_or_empty (Whisperer.extension f)) "pyc")
      as [Epyc|Epyc].
    { split; [discriminate | intros (_ & H & _); contradiction]. }
    destruct (includes (Whisperer.lower_or_empty (Whisperer.name f)) ".cpython-");
      [split; [discriminate | intros (_ & _ & H & _); discriminate]|].
    destruct (includes (Whisperer.lower_or_empty (Whisperer.name f)) "__pycache__");
      [split; [discriminate | intros (_ & _ & _ & H & _); discriminate]|].
    destruct (includes (Whisperer.lower_or_empty (Whisperer.name f)) "node_modules");
      [split; [discriminate | intros (_ & _ & _ & _ & H & _); discriminate]|].
    destruct (includes (Whisperer.lower_or_empty (Whisperer.name f)) ".git/");
      [split; [discriminate | intros (_ & _ & _ & _ & _ & H & _); discriminate]|].
    simpl. split; [|reflexivity]. intros _.
    repeat split; try reflexivity; try exact Epyc. constructor. }
  split.
  { intros a b. unfold Whisperer.compare.
    destruct (Whisperer.is_readme a), (Whisperer.is_readme b),
             (Whisperer.is_main a), (Whisperer.is_main b),
             (Whisperer.is_important a), (Whisperer.is_important b); simpl;
      (split; [intros H; try lia; tauto | intros H; try lia; intuition discriminate]). }
  split.
  { assert (Hgen : forall l,
               StronglySorted (fun a b => (Whisperer.rank a <= Whisperer.rank b)%Z) l ->
               StronglySorted (fun a b => (0 <= Whisperer.compare b a)%Z) l);
      [|exact (Hgen _ (SortFacts.sort_sorted before Whisperer.rank Hkey
                         (filter Whisperer.kept files)))].
    intros l Hs.
    induction Hs as [|x l Hs IH Hall]; constructor; [exact IH|].
    apply Forall_forall. intros y Hy.
    pose proof (proj1 (Forall_forall _ _) Hall y Hy) as Hle. cbv beta in Hle.
    pose proof (Hkey y x) as Hyx. unfold before in Hyx.
    destruct (Z.ltb_spec (Whisperer.compare y x) 0) as [Hlt|Hge]; [|exact Hge].
    symmetry in Hyx. apply Z.ltb_lt in Hyx. lia. }
  split.
  { intros readme main important.
    pose (k := ((if readme then 0 else 4) + (if main then 0 else 2)
                + (if important then 0 else 1))%Z).
    assert (Hagree : forall f,
               Bool.eqb (Whisperer.is_readme f) readme
               && Bool.eqb (Whisperer.is_main f) main
               && Bool.eqb (Whisperer.is_important f) important
               = (Whisperer.rank f =? k)%Z).
    { intros f. subst k. unfold Whisperer.rank.
      destruct (Whisperer.is_readme f), (Whisperer.is_main f), (Whisperer.is_important f),
               readme, main, important; reflexivity. }
    rewrite (filter_ext _ _ Hagree), (filter_ext _ _ Hagree).
    exact (SortFacts.sort_stable before Whisperer.rank Hkey k _). }
  split; [vm_compute; reflexivity|].
  split; vm_compute; reflexivity.
Qed.
